(** * TSserver: ephemeral code-execution sessions

    A shallow embedding of section 3 ("EPHEMERAL CODE EXECUTION") and
    section 4 ("File/Plot & Session Cleanup") of
    [src/flask_project/TSserver.py].

    The Python module keeps one global dictionary, [ephemeral_sessions],
    from the socket id of a client to a session dictionary.  The session
    dictionary is a mutable object: the output thread started by
    [start_session] keeps a reference to it in its closure and goes on
    reading its ["closing"] entry after the dictionary has been popped from
    the table.  The model therefore has a store of session objects and a
    table from socket ids to references into that store.

    Everything the module does to the outside world (socket.io emissions,
    process control, file-system calls) is recorded, in order, in a log.
    What the outside world answers (the result of a spawn, the chunks read
    from the pseudo-terminal, the listing of a directory) is an argument of
    the function that asks for it.

    What the model leaves out.  A handler, a cleanup and each of the three
    steps of a thread run without anything in between, unless a definition
    says otherwise ([pump_finish_interrupted]).  In [start_session] the
    calls between the registration and the spawn ([mkdtemp], [open],
    [write]) do not raise.  [shutil.rmtree] removes the directory.
    Strings are bytes in the ASCII range: white space is 9 to 13 and 28 to
    32, a word character is a letter, a digit or an underscore.  A child
    that has reached the end of its output counts as alive until it is
    seen to have exited.  Pillow's quotients are exact. *)

From Stdlib Require Import ZArith String Ascii List Bool Lia.
From stdpp Require Import base option gmap sets list strings.

Local Open Scope string_scope.

(** ** Python and POSIX string helpers *)

Module Py.

(** [str.isspace] on the ASCII range. *)
Definition is_space (c : ascii) : bool :=
  let n := nat_of_ascii c in
  (((9 <=? n) && (n <=? 13)) || ((28 <=? n) && (n <=? 32)))%nat.

Fixpoint lstrip (s : string) : string :=
  match s with
  | String c r => if is_space c then lstrip r else s
  | EmptyString => EmptyString
  end.

Fixpoint rstrip (s : string) : string :=
  match s with
  | String c r =>
      match rstrip r with
      | EmptyString => if is_space c then EmptyString else String c EmptyString
      | r' => String c r'
      end
  | EmptyString => EmptyString
  end.

(** [s.strip()] *)
Definition strip (s : string) : string := rstrip (lstrip s).

Definition lower_ascii (c : ascii) : ascii :=
  let n := nat_of_ascii c in
  if ((65 <=? n) && (n <=? 90))%nat then ascii_of_nat (n + 32) else c.

(** [s.lower()] *)
Fixpoint lower (s : string) : string :=
  match s with
  | String c r => String (lower_ascii c) (lower r)
  | EmptyString => EmptyString
  end.

(** Truth value of a string: [if s:] *)
Definition truthy (s : string) : bool :=
  match s with EmptyString => false | _ => true end.

(** [d.get(key, default)] on a request field that may be absent. *)
Definition get (field : option string) (dflt : string) : string :=
  match field with Some v => v | None => dflt end.

(** [p in s] for a key of a static table. *)
Fixpoint assoc (k : string) (tbl : list (string * string)) : option string :=
  match tbl with
  | [] => None
  | (k', v) :: tbl' => if String.eqb k k' then Some v else assoc k tbl'
  end.

(** [s.startswith(p)], returning the rest of [s]. *)
Fixpoint strip_prefix (p s : string) : option string :=
  match p, s with
  | EmptyString, _ => Some s
  | String a p', String b s' => if Ascii.eqb a b then strip_prefix p' s' else None
  | String _ _, EmptyString => None
  end.

(** [s.replace(old_char, new)] for a one-character [old]. *)
Fixpoint replace_char (old : ascii) (new s : string) : string :=
  match s with
  | String c r =>
      (if Ascii.eqb c old then new else String c EmptyString) ++ replace_char old new r
  | EmptyString => EmptyString
  end.

End Py.

(** ** [re], [shlex], [os.path], [glob] *)

Module Re.

Definition is_alpha_ (c : ascii) : bool :=
  let n := nat_of_ascii c in
  (((65 <=? n) && (n <=? 90)) || ((97 <=? n) && (n <=? 122)) || (n =? 95))%nat.

(** [\w] on the ASCII range *)
Definition is_word (c : ascii) : bool :=
  let n := nat_of_ascii c in
  is_alpha_ c || ((48 <=? n) && (n <=? 57))%nat.

Fixpoint skip_spaces (s : string) : string :=
  match s with
  | String c r => if Py.is_space c then skip_spaces r else s
  | EmptyString => EmptyString
  end.

(** [\s+] *)
Definition spaces1 (s : string) : option string :=
  match s with
  | String c r => if Py.is_space c then Some (skip_spaces r) else None
  | EmptyString => None
  end.

(** a greedy run of word characters *)
Fixpoint take_word (s : string) : string :=
  match s with
  | String c r => if is_word c then String c (take_word r) else EmptyString
  | EmptyString => EmptyString
  end.

(** The pattern of [find_public_class_name] anchored at the head of [s]:
    the word public, white space, the word class, white space, then an
    identifier, which is group 1 and the result. *)
Definition match_public_class (s : string) : option string :=
  s1 ← Py.strip_prefix "public" s;
  s2 ← spaces1 s1;
  s3 ← Py.strip_prefix "class" s2;
  s4 ← spaces1 s3;
  match s4 with
  | String c r => if is_alpha_ c then Some (String c (take_word r)) else None
  | EmptyString => None
  end.

End Re.

(** [find_public_class_name]: [re.search] returns the leftmost match. *)
Fixpoint find_public_class_name (java_code : string) : option string :=
  match Re.match_public_class java_code with
  | Some cname => Some cname
  | None =>
      match java_code with
      | String _ r => find_public_class_name r
      | EmptyString => None
      end
  end.

Module Shlex.

(** characters outside [[^\w@%+=:,./-]] *)
Definition is_safe (c : ascii) : bool :=
  Re.is_word c ||
  existsb (Ascii.eqb c) ["@"; "%"; "+"; "="; ":"; ","; "."; "/"; "-"]%char.

Fixpoint all_safe (s : string) : bool :=
  match s with
  | String c r => is_safe c && all_safe r
  | EmptyString => true
  end.

Definition dquote : string := String (ascii_of_nat 34) EmptyString.

(** [shlex.quote] *)
Definition quote (s : string) : string :=
  if negb (Py.truthy s) then "''"
  else if all_safe s then s
  else "'" ++ Py.replace_char "'"%char ("'" ++ dquote ++ "'" ++ dquote ++ "'") s ++ "'".

End Shlex.

Module OsPath.

Fixpoint ends_with_slash (p : string) : bool :=
  match p with
  | EmptyString => false
  | String c EmptyString => Ascii.eqb c "/"
  | String _ r => ends_with_slash r
  end.

(** [posixpath.join(a, p)] *)
Definition join (a p : string) : string :=
  match p with
  | String "/" _ => p
  | _ => if negb (Py.truthy a) || ends_with_slash a then a ++ p else a ++ "/" ++ p
  end.

(** [(p[:i], p[i:])] with [i = p.rfind('/') + 1] *)
Fixpoint split_last (p : string) : string * string :=
  match p with
  | EmptyString => (EmptyString, EmptyString)
  | String c r =>
      match split_last r with
      | (EmptyString, _) =>
          if Ascii.eqb c "/" then (String c EmptyString, r) else (EmptyString, p)
      | (h, t) => (String c h, t)
      end
  end.

(** [posixpath.basename] *)
Definition basename (p : string) : string := snd (split_last p).

Fixpoint all_slashes (p : string) : bool :=
  match p with
  | String c r => Ascii.eqb c "/" && all_slashes r
  | EmptyString => true
  end.

(** [head.rstrip('/')] *)
Fixpoint rstrip_slashes (p : string) : string :=
  match p with
  | String c r =>
      match rstrip_slashes r with
      | EmptyString => if Ascii.eqb c "/" then EmptyString else String c EmptyString
      | r' => String c r'
      end
  | EmptyString => EmptyString
  end.

(** [posixpath.dirname] *)
Definition dirname (p : string) : string :=
  let head := fst (split_last p) in
  if Py.truthy head && negb (all_slashes head) then rstrip_slashes head else head.

End OsPath.

Module Glob.

(** [fnmatch] for patterns built from literals, [*] and [?]. *)
Fixpoint fnmatch (pat : string) : string -> bool :=
  match pat with
  | EmptyString => fun name => negb (Py.truthy name)
  | String "*" pat' =>
      fix star (name : string) : bool :=
        fnmatch pat' name ||
        match name with
        | String _ r => star r
        | EmptyString => false
        end
  | String "?" pat' =>
      fun name => match name with String _ r => fnmatch pat' r | EmptyString => false end
  | String c pat' =>
      fun name =>
        match name with
        | String d r => Ascii.eqb c d && fnmatch pat' r
        | EmptyString => false
        end
  end.

Definition is_hidden (name : string) : bool :=
  match name with String "." _ => true | _ => false end.

(** [glob.glob(pathname)] for a [pathname] whose directory part has no
    wildcard: the entries of the directory that match the base name,
    each joined to the directory.  [entries] is what [os.scandir] lists
    at the time of the call. *)
Definition glob (pathname : string) (entries : list string) : list string :=
  let d := OsPath.dirname pathname in
  let pat := OsPath.basename pathname in
  map (OsPath.join d)
      (filter (fun name => Is_true (fnmatch pat name && (is_hidden pat || negb (is_hidden name))))
              entries).

End Glob.

(** ** Pillow *)

(** A decoded image; only its size matters here. *)
Record image := Image { width : Z; height : Z }.

Module PIL.

(** [round_aspect] of [Image.thumbnail]: the integer next to [num / den]
    (below first) whose key is least, and at least 1.  [key_le f c] says
    that the key of the floor is not larger than the key of the ceiling. *)
Definition round_aspect (num den : Z) (key_le : Z -> Z -> bool) : Z :=
  let f := (num / den)%Z in
  let c := (if (num mod den =? 0)%Z then f else f + 1)%Z in
  Z.max (if key_le f c then f else c) 1.

(** [Image.thumbnail((x, y))] of Pillow, on the size of the image: the
    size is left alone when it fits the box, and is otherwise the box
    shrunk along one side to keep the aspect ratio.  Pillow computes the
    quotients in floating point; here they are exact rationals, compared
    by cross multiplication. *)
Definition thumbnail (box : Z * Z) (im : image) : image :=
  let '(x, y) := box in
  let w := width im in
  let h := height im in
  if ((x >=? w) && (y >=? h))%Z then im
  else if (x * h >=? w * y)%Z then
    (* x / y >= aspect *)
    Image (round_aspect (y * w) h
             (fun f c => (Z.abs (w * y - f * h) <=? Z.abs (w * y - c * h))%Z))
          y
  else
    Image x
          (round_aspect (x * h) w
             (fun f c => (f =? 0)%Z ||
                         (Z.abs (w * f - x * h) * c <=? Z.abs (w * c - x * h) * f)%Z)).

End PIL.

(** ** Data model *)

(** The dictionary stored in [ephemeral_sessions[sid]].  [child] and
    [thread] hold the identity of a [pexpect.spawn] object and of a
    [threading.Thread] object. *)
Record session := Session {
  child : option nat;
  temp_dir : option string;
  sql_temp_dir : option string;
  temp_file : option string;
  thread : option nat;
  closing : bool;
  sent_images : gset string
}.

(** What [handle_plot_file] sends as ["image_base64"]: the base64 text of
    either the PNG encoding of an image or the bytes of the file. *)
Inductive image_data :=
| Png (im : image)
| Raw (bytes : string).

(** The events of [socketio.emit], by name, with their payload. *)
Inductive payload :=
| session_error (error : string)
| python_output (data : string)
| process_ended
| session_started
| plot_image (filename : string) (image_base64 : image_data).

(** Calls that reach outside the module, in the order they are made. *)
Inductive effect :=
| Emit (p : payload) (room : string)
| Mkdtemp (prefix path : string)
| WriteFile (path content : string)
| System (cmd : string)
| Spawned (cmd : string) (c : nat)
| SpawnFailed (cmd err : string)
| ThreadStart (t : nat)
| Terminate (c : nat)
| Rmtree (path : string)
| Send (c : nat) (text : string)
| ReadNonblocking (c : nat)
| Read (c : nat)
| Glob (pathname : string).

(** The free variables of the closure [read_output] (and of its copy
    [read_sql_output]): [sid], [session_obj] and [child]. *)
Record pump := Pump { p_sid : string; p_obj : nat; p_child : nat }.

Record state := State {
  ephemeral_sessions : gmap string nat;  (** socket id to session object *)
  heap : gmap nat session;               (** session objects, by identity *)
  alive : gset nat;                      (** children whose process runs *)
  dirs : gset string;                    (** directories that exist *)
  threads : gmap nat pump;               (** output threads, by identity *)
  next_id : nat;                         (** next object identity *)
  PIL_ENABLED : bool;
  log : list effect
}.

#[global] Instance effect_eq_dec : EqDecision effect.
Proof. unfold EqDecision, Decision. repeat decide equality; apply Z.eq_dec. Defined.

Definition LANG_EXTENSIONS : list (string * string) :=
  [("python", "py"); ("c", "c"); ("cpp", "cpp"); ("java", "java");
   ("js", "js"); ("php", "php"); ("sql", "sql")].

Definition LANG_COMMANDS : list (string * string) :=
  [("python", "python3 -u user_code.py");
   ("c", "gcc -fdiagnostics-color=never user_code.c -o main && ./main");
   ("cpp", "g++ -fdiagnostics-color=never user_code.cpp -o main && ./main");
   ("java", "");
   ("js", "node user_code.js");
   ("php", "php user_code.php");
   ("sql", "")].

Definition nl : string := String (ascii_of_nat 10) EmptyString.

(** ** State updates *)

Definition with_table (f : gmap string nat -> gmap string nat) (st : state) : state :=
  State (f (ephemeral_sessions st)) (heap st) (alive st) (dirs st) (threads st)
        (next_id st) (PIL_ENABLED st) (log st).

Definition with_heap (f : gmap nat session -> gmap nat session) (st : state) : state :=
  State (ephemeral_sessions st) (f (heap st)) (alive st) (dirs st) (threads st)
        (next_id st) (PIL_ENABLED st) (log st).

Definition with_alive (f : gset nat -> gset nat) (st : state) : state :=
  State (ephemeral_sessions st) (heap st) (f (alive st)) (dirs st) (threads st)
        (next_id st) (PIL_ENABLED st) (log st).

Definition with_dirs (f : gset string -> gset string) (st : state) : state :=
  State (ephemeral_sessions st) (heap st) (alive st) (f (dirs st)) (threads st)
        (next_id st) (PIL_ENABLED st) (log st).

Definition with_threads (f : gmap nat pump -> gmap nat pump) (st : state) : state :=
  State (ephemeral_sessions st) (heap st) (alive st) (dirs st) (f (threads st))
        (next_id st) (PIL_ENABLED st) (log st).

Definition record (e : effect) (st : state) : state :=
  State (ephemeral_sessions st) (heap st) (alive st) (dirs st) (threads st)
        (next_id st) (PIL_ENABLED st) (log st ++ [e]).

(** A new object identity. *)
Definition alloc (st : state) : nat * state :=
  (next_id st,
   State (ephemeral_sessions st) (heap st) (alive st) (dirs st) (threads st)
         (S (next_id st)) (PIL_ENABLED st) (log st)).

(** [session_obj[key] = v] on the object [a] *)
Definition assign (a : nat) (f : session -> session) (st : state) : state :=
  with_heap (alter f a) st.

Definition set_child v (s : session) : session :=
  Session v (temp_dir s) (sql_temp_dir s) (temp_file s) (thread s) (closing s) (sent_images s).
Definition set_temp_dir v (s : session) : session :=
  Session (child s) v (sql_temp_dir s) (temp_file s) (thread s) (closing s) (sent_images s).
Definition set_sql_temp_dir v (s : session) : session :=
  Session (child s) (temp_dir s) v (temp_file s) (thread s) (closing s) (sent_images s).
Definition set_temp_file v (s : session) : session :=
  Session (child s) (temp_dir s) (sql_temp_dir s) v (thread s) (closing s) (sent_images s).
Definition set_thread v (s : session) : session :=
  Session (child s) (temp_dir s) (sql_temp_dir s) (temp_file s) v (closing s) (sent_images s).
Definition set_closing v (s : session) : session :=
  Session (child s) (temp_dir s) (sql_temp_dir s) (temp_file s) (thread s) v (sent_images s).
Definition set_sent_images v (s : session) : session :=
  Session (child s) (temp_dir s) (sql_temp_dir s) (temp_file s) (thread s) (closing s) v.

(** ** The outside world *)

(** [socketio.emit(name, payload, room=sid)] *)
Definition emit (p : payload) (room : string) (st : state) : state :=
  record (Emit p room) st.

(** [child.isalive()] *)
Definition isalive (c : nat) (st : state) : bool := bool_decide (c ∈ alive st).

(** [child.terminate(force=True)] *)
Definition terminate (c : nat) (st : state) : state :=
  record (Terminate c) (with_alive (fun al => al ∖ {[c]}) st).

(** The child exits by itself. *)
Definition child_exit (c : nat) (st : state) : state :=
  with_alive (fun al => al ∖ {[c]}) st.

(** [os.path.isdir(d)]; the empty path is no directory. *)
Definition isdir (d : string) (st : state) : bool :=
  Py.truthy d && bool_decide (d ∈ dirs st).

(** [shutil.rmtree(d, ignore_errors=True)].  Workspaces are siblings made
    by [mkdtemp]; none lies inside another. *)
Definition rmtree (d : string) (st : state) : state :=
  record (Rmtree d) (with_dirs (fun ds => ds ∖ {[d]}) st).

(** [tempfile.mkdtemp(prefix=...)], answering [path] *)
Definition mkdtemp (prefix path : string) (st : state) : state :=
  record (Mkdtemp prefix path) (with_dirs (fun ds => {[path]} ∪ ds) st).

(** [ephemeral_sessions.get(sid)]: the object and its present content. *)
Definition get_session (sid : string) (st : state) : option (nat * session) :=
  a ← ephemeral_sessions st !! sid;
  s ← heap st !! a;
  Some (a, s).

(** [ephemeral_sessions.pop(sid, None)] *)
Definition pop (sid : string) (st : state) : state := with_table (delete sid) st.

(** ** Session cleanup *)

(** [cleanup_ephemeral_session] *)
Definition cleanup_ephemeral_session (sid : string) (st : state) : state :=
  match get_session sid st with
  | None => st
  | Some (a, s) =>
      if closing s then st
      else
        let st := assign a (set_closing true) st in
        let st := match child s with
                  | Some c => if isalive c st then terminate c st else st
                  | None => st
                  end in
        let st := match temp_dir s with
                  | Some tmp_dir =>
                      if Py.truthy tmp_dir && isdir tmp_dir st then rmtree tmp_dir st else st
                  | None => st
                  end in
        let st := assign a (set_temp_dir None) st in
        let st := match sql_temp_dir s with
                  | Some sql_dir =>
                      if Py.truthy sql_dir && isdir sql_dir st then rmtree sql_dir st else st
                  | None => st
                  end in
        let st := assign a (set_sql_temp_dir None) st in
        let st := assign a (set_child None) st in
        let st := assign a (set_temp_file None) st in
        let st := assign a (set_thread None) st in
        let st := assign a (set_sent_images ∅) st in
        pop sid st
  end.

(** ** Artifacts *)

(** What the file system and Pillow answer when [handle_plot_file] looks
    at a path. *)
Inductive file_obs :=
| Missing                                (** [os.path.exists] is false *)
| Unreadable (err : string)              (** opening, decoding or encoding raises [err] *)
| Readable (im : image) (bytes : string). (** the decoded image and the raw bytes *)

(** The body of the [try] of [handle_plot_file] up to the encoding. *)
Definition load_image (pil : bool) (im : image) (bytes : string) : image_data :=
  if pil then
    let max_dim := 800%Z in
    Png (if (width im >? max_dim)%Z || (height im >? max_dim)%Z
         then PIL.thumbnail (max_dim, max_dim) im
         else im)
  else Raw bytes.

(** [handle_plot_file] *)
Definition handle_plot_file (sid filepath : string) (obs : file_obs) (st : state) : state :=
  match get_session sid st with
  | None => st
  | Some (a, _) =>
      match obs with
      | Missing =>
          emit (session_error ("Plot file not found: " ++ filepath)) sid st
      | Unreadable e =>
          emit (session_error ("Could not handle plot file " ++ filepath ++ ": " ++ e)) sid st
      | Readable im bytes =>
          let st := emit (plot_image (OsPath.basename filepath)
                                     (load_image (PIL_ENABLED st) im bytes)) sid st in
          assign a (fun s => set_sent_images ({[filepath]} ∪ sent_images s) s) st
      end
  end.

(** [path in session_obj["sent_images"]], read from the object. *)
Definition is_sent (a : nat) (path : string) (st : state) : bool :=
  match heap st !! a with
  | Some s => bool_decide (path ∈ sent_images s)
  | None => false
  end.

Definition patterns : list string := ["*.png"; "*.jpg"; "*.jpeg"].

(** The inner [for] of [scan_for_new_images]. *)
Definition scan_paths (sid : string) (a : nat) (probe : string -> file_obs)
    (paths : list string) (st : state) : state :=
  fold_left (fun st path =>
               if is_sent a path st then st
               else handle_plot_file sid path (probe path) st)
            paths st.

(** [scan_for_new_images].  [listing pat] is the content of the workspace
    when the pattern [pat] is globbed, [probe path] what is found at [path]
    when it is handled. *)
Definition scan_for_new_images (sid : string) (listing : string -> list string)
    (probe : string -> file_obs) (st : state) : state :=
  match get_session sid st with
  | None => st
  | Some (a, s) =>
      match temp_dir s with
      | None => st
      | Some tmp_dir =>
          if negb (Py.truthy tmp_dir) || negb (isdir tmp_dir st) then st
          else
            fold_left (fun st pat =>
                         let pathname := OsPath.join tmp_dir pat in
                         scan_paths sid a probe (Glob.glob pathname (listing pat))
                                    (record (Glob pathname) st))
                      patterns st
      end
  end.

(** ** Starting a session *)

(** The [data] of a [start_session] event. *)
Record start_data := StartData {
  data_code : option string;
  data_language : option string
}.

(** What the operating system answers during [start_session]. *)
Record start_env := StartEnv {
  mkdtemp_path : string;        (** the directory made by [mkdtemp] *)
  prepop_path : string;         (** [prepopulate.sql] next to the module *)
  prepop_exists : bool;         (** [os.path.exists(prepop_path)] *)
  spawn_error : option string   (** [Some e]: [pexpect.spawn] raises [e] *)
}.

Definition new_session : session :=
  Session None None None None None false ∅.

(** The state of the handler when it reaches [pexpect.spawn]. *)
Record spawn_point := SpawnPoint {
  sp_state : state;
  sp_obj : nat;            (** [session_obj] *)
  sp_tmp_dir : string;
  sp_code_path : string;
  sp_shell_cmd : string;
  sp_sql : bool            (** the [sql] branch *)
}.

(** [start_session] from its first line to the [try] around
    [pexpect.spawn]: [inl] when the handler has returned before, [inr] with
    the state reached otherwise. *)
Definition start_session_setup (sid : string) (data : start_data) (env : start_env)
    (st : state) : state + spawn_point :=
  let code := Py.strip (Py.get (data_code data) "") in
  let language := Py.lower (Py.strip (Py.get (data_language data) "python")) in
  if negb (Py.truthy code) then
    inl (emit (session_error "No code provided") sid st)
  else
    match Py.assoc language LANG_EXTENSIONS with
    | None =>
        inl (emit (session_error ("Unsupported language '" ++ language ++ "'")) sid st)
    | Some extension =>
        let st := cleanup_ephemeral_session sid st in
        let '(a, st) := alloc st in
        let st := with_heap <[a := new_session]> st in
        let st := with_table <[sid := a]> st in
        if negb (String.eqb language "sql") then
          let tmp_dir := mkdtemp_path env in
          let st := mkdtemp "user_session_" tmp_dir st in
          let st := assign a (set_temp_dir (Some tmp_dir)) st in
          let code_file_name := "user_code." ++ extension in
          let code_path := OsPath.join tmp_dir code_file_name in
          let run_cmd := default "" (Py.assoc language LANG_COMMANDS) in
          let '(code_path, run_cmd) :=
            if String.eqb language "java" then
              match find_public_class_name code with
              | Some cname =>
                  let code_file_name := cname ++ ".java" in
                  (OsPath.join tmp_dir code_file_name,
                   "javac " ++ Shlex.quote code_file_name ++ " && java " ++ Shlex.quote cname)
              | None => (code_path, "javac user_code.java && java user_code")
              end
            else (code_path, run_cmd) in
          let st := record (WriteFile code_path code) st in
          let shell_cmd := "cd " ++ Shlex.quote tmp_dir ++ " && env TERM=dumb " ++ run_cmd in
          inr (SpawnPoint st a tmp_dir code_path shell_cmd false)
        else
          let tmp_dir := mkdtemp_path env in
          let st := mkdtemp "sql_session_" tmp_dir st in
          let st := assign a (set_sql_temp_dir (Some tmp_dir)) st in
          let st :=
            if prepop_exists env then
              record (System ("cd " ++ Shlex.quote tmp_dir ++ " && sqlite3 ephemeral.db < "
                              ++ Shlex.quote (prepop_path env))) st
            else st in
          let code_path := OsPath.join tmp_dir "user_code.sql" in
          let st := record (WriteFile code_path code) st in
          let shell_cmd :=
            "cd " ++ Shlex.quote tmp_dir ++ " && env TERM=dumb sqlite3 ephemeral.db < user_code.sql" in
          inr (SpawnPoint st a tmp_dir code_path shell_cmd true)
    end.

(** [start_session] from [pexpect.spawn] on. *)
Definition start_session_spawn (sid : string) (env : start_env) (sp : spawn_point) : state :=
  let st := sp_state sp in
  match spawn_error env with
  | Some e =>
      let st := record (SpawnFailed (sp_shell_cmd sp) e) st in
      let st := emit (session_error e) sid st in
      let st := if sp_sql sp then st else rmtree (sp_tmp_dir sp) st in
      pop sid st
  | None =>
      let '(c, st) := alloc st in
      let st := record (Spawned (sp_shell_cmd sp) c) (with_alive (fun al => {[c]} ∪ al) st) in
      let st := assign (sp_obj sp) (set_child (Some c)) st in
      let st := assign (sp_obj sp) (set_temp_file (Some (sp_code_path sp))) st in
      let '(t, st) := alloc st in
      let st := with_threads <[t := Pump sid (sp_obj sp) c]> st in
      let st := assign (sp_obj sp) (set_thread (Some t)) st in
      let st := record (ThreadStart t) st in
      emit session_started sid st
  end.

(** [start_session] *)
Definition start_session (sid : string) (data : start_data) (env : start_env)
    (st : state) : state :=
  match start_session_setup sid data env st with
  | inl st' => st'
  | inr sp => start_session_spawn sid env sp
  end.

(** ** The output thread *)

(** What one turn of the [while] loop finds. *)
Inductive poll :=
| Exited                 (** [child.isalive()] finds that the child has exited *)
| Chunk (s : string)     (** [read_nonblocking] returns [s] *)
| Timeout                (** [read_nonblocking] raises [TIMEOUT] *)
| Eof                    (** [read_nonblocking] raises [EOF] *)
| Failure (e : string).  (** any other exception, with message [e] *)

Inductive loop_result :=
| Looping (st : state)             (** still in the loop, out of polls *)
| LoopExit (st : state)            (** the loop was left by its test or by [break] *)
| Raised (e : string) (st : state). (** the loop was left by an exception *)

(** [session_obj["closing"]] as the thread reads it. *)
Definition obj_closing (p : pump) (st : state) : bool :=
  match heap st !! p_obj p with
  | Some s => closing s
  | None => true
  end.

(** The [while] loop of [read_output]. *)
Fixpoint pump_loop (p : pump) (polls : list poll) (st : state) : loop_result :=
  if obj_closing p st then LoopExit st
  else if negb (isalive (p_child p) st) then LoopExit st
  else
    match polls with
    | [] => Looping st
    | Exited :: _ => LoopExit (child_exit (p_child p) st)
    | Chunk s :: polls' =>
        let st := record (ReadNonblocking (p_child p)) st in
        pump_loop p polls' (if Py.truthy s then emit (python_output s) (p_sid p) st else st)
    | Timeout :: polls' => pump_loop p polls' (record (ReadNonblocking (p_child p)) st)
    | Eof :: _ => LoopExit (record (ReadNonblocking (p_child p)) st)
    | Failure e :: _ => Raised e st
    end.

(** The leftover drain: [leftover] is what [child.read()] returns, [None]
    when it raises. *)
Definition pump_drain (p : pump) (leftover : option string) (st : state) : state :=
  if obj_closing p st then st
  else
    let st := record (Read (p_child p)) st in
    match leftover with
    | Some s => if Py.truthy s then emit (python_output s) (p_sid p) st else st
    | None => st
    end.

(** [read_output] after its [try] statement. *)
Definition pump_finish (p : pump) (listing : string -> list string)
    (probe : string -> file_obs) (st : state) : state :=
  let st :=
    if obj_closing p st then st
    else emit process_ended (p_sid p) (scan_for_new_images (p_sid p) listing probe st) in
  cleanup_ephemeral_session (p_sid p) st.

(** Where an output thread stands between two of its steps. *)
Inductive pump_pc := AtLoop | AtDrain | AtFinish.

(** The thread from [pc] to its end; [None] when the polls run out with
    the loop still going. *)
Definition pump_resume (pc : pump_pc) (p : pump) (polls : list poll)
    (leftover : option string) (listing : string -> list string)
    (probe : string -> file_obs) (st : state) : option state :=
  match pc with
  | AtLoop =>
      match pump_loop p polls st with
      | Looping _ => None
      | LoopExit st1 => Some (pump_finish p listing probe (pump_drain p leftover st1))
      | Raised e st1 =>
          Some (pump_finish p listing probe (emit (session_error e) (p_sid p) st1))
      end
  | AtDrain => Some (pump_finish p listing probe (pump_drain p leftover st))
  | AtFinish => Some (pump_finish p listing probe st)
  end.

(** [read_output], and [read_sql_output], which is the same text. *)
Definition read_output := pump_resume AtLoop.

(** ** Input and disconnection *)

(** [handle_send_input]; [line] is [data.get("line", "")]. *)
Definition handle_send_input (sid : string) (line : option string) (st : state) : state :=
  match get_session sid st with
  | None =>
      emit process_ended sid (emit (python_output ("[No active session]" ++ nl)) sid st)
  | Some (_, s) =>
      if closing s then
        cleanup_ephemeral_session sid
          (emit process_ended sid (emit (python_output ("[Session closed]" ++ nl)) sid st))
      else
        match child s with
        | Some c =>
            if isalive c st then record (Send c (Py.get line "" ++ nl)) st
            else
              cleanup_ephemeral_session sid
                (emit process_ended sid
                   (emit (python_output ("[No active session]" ++ nl)) sid st))
        | None =>
            cleanup_ephemeral_session sid
              (emit process_ended sid
                 (emit (python_output ("[No active session]" ++ nl)) sid st))
        end
  end.

(** [handle_disconnect_session] *)
Definition handle_disconnect_session (sid : string) (st : state) : state :=
  let st :=
    match get_session sid st with
    | Some (_, s) =>
        if closing s then st
        else emit (python_output ("[Session killed by user]" ++ nl)) sid st
    | None => st
    end in
  emit process_ended sid (cleanup_ephemeral_session sid st).

(** * Properties *)

Local Open Scope list_scope.
Set Warnings "-clear-no-such-hyp".

#[local] Arguments Py.assoc : simpl never.
#[local] Arguments Py.strip : simpl never.
#[local] Arguments Py.lower : simpl never.
#[local] Arguments Shlex.quote : simpl never.
#[local] Arguments OsPath.join : simpl never.
#[local] Arguments OsPath.basename : simpl never.
#[local] Arguments String.append : simpl never.
#[local] Arguments String.eqb : simpl never.
#[local] Arguments find_public_class_name : simpl never.

(** Everything but the log is the same in both states. *)
Definition same_world (st st' : state) : Prop :=
  ephemeral_sessions st' = ephemeral_sessions st ∧ heap st' = heap st ∧
  alive st' = alive st ∧ dirs st' = dirs st ∧ threads st' = threads st ∧
  next_id st' = next_id st ∧ PIL_ENABLED st' = PIL_ENABLED st.

(** The session object after [cleanup_ephemeral_session] has cleared it. *)
Definition cleared : session := Session None None None None None true ∅.

(** Number of [process_ended] events sent to [sid]. *)
Definition ended_count (sid : string) (l : list effect) : nat :=
  count_occ effect_eq_dec l (Emit process_ended sid).

(** The processes, directories and calls of a teardown of session [s]. *)
Definition child_set (s : session) : gset nat :=
  match child s with Some c => {[c]} | None => ∅ end.

Definition dir_set (d : option string) : gset string :=
  match d with
  | Some d => if Py.truthy d then {[d]} else ∅
  | None => ∅
  end.

Definition workspace (s : session) : gset string :=
  dir_set (temp_dir s) ∪ dir_set (sql_temp_dir s).

Definition kills (s : session) (st : state) : list effect :=
  match child s with
  | Some c => if isalive c st then [Terminate c] else []
  | None => []
  end.

Definition removals (d : option string) (ds : gset string) : list effect :=
  match d with
  | Some d => if Py.truthy d && bool_decide (d ∈ ds) then [Rmtree d] else []
  | None => []
  end.

Definition teardown (s : session) (st : state) : list effect :=
  kills s st ++ removals (temp_dir s) (dirs st) ++
  removals (sql_temp_dir s) (dirs st ∖ dir_set (temp_dir s)).

(** The code and the language [start_session] works with. *)
Definition request_code (data : start_data) : string :=
  Py.strip (Py.get (data_code data) "").

Definition request_language (data : start_data) : string :=
  Py.lower (Py.strip (Py.get (data_language data) "python")).

(** The request passes the two checks at the head of [start_session]. *)
Definition accepted (data : start_data) : bool :=
  Py.truthy (request_code data) &&
  bool_decide (is_Some (Py.assoc (request_language data) LANG_EXTENSIONS)).

(** Calls that prepare the workspace, as opposed to the spawn itself. *)
Definition is_file_setup (e : effect) : Prop :=
  match e with
  | Mkdtemp _ _ | WriteFile _ _ | System _ => True
  | _ => False
  end.

(** A directory entry: a name without a slash. *)
Fixpoint slash_free (n : string) : bool :=
  match n with
  | String c r => negb (Ascii.eqb c "/") && slash_free r
  | EmptyString => true
  end.

(** The part of [OsPath.join a p] that comes from [a]. *)
Definition join_prefix (a : string) : string :=
  if negb (Py.truthy a) || OsPath.ends_with_slash a then a else (a ++ "/")%string.

(** The directory whose entries [scan_for_new_images] handles. *)
Definition scan_dir (tmp_dir : string) : string :=
  OsPath.dirname (OsPath.join tmp_dir "*.png").

(** [e] is a [plot_image] event for the file name [name], sent to [sid]. *)
Definition is_plot (sid name : string) (e : effect) : bool :=
  match e with
  | Emit (plot_image f _) room => String.eqb f name && String.eqb room sid
  | _ => false
  end.

Definition plot_count (sid name : string) (l : list effect) : nat :=
  length (List.filter (is_plot sid name) l).

(** Several scans in a row, each with its own view of the workspace. *)
Definition scan_many (sid : string)
    (runs : list ((string → list string) * (string → file_obs))) (st : state) : state :=
  fold_left (fun st r => scan_for_new_images sid (fst r) (snd r) st) runs st.

(** What holds of a session between the calls of [handle_plot_file] made
    for it since the log was [log0] and its sent set [sent0]: a file name
    has been sent at most once, and if it has, its path is marked sent and
    was not so at the start. *)
Definition scan_inv (sid : string) (a : nat) (d : string) (sent0 : gset string)
    (log0 : list effect) (st : state) : Prop :=
  ∃ s new,
    ephemeral_sessions st !! sid = Some a ∧ heap st !! a = Some s ∧
    temp_dir s = Some d ∧ sent0 ⊆ sent_images s ∧ log st = log0 ++ new ∧
    ∀ name,
      plot_count sid name new = 0 ∨
      (plot_count sid name new = 1 ∧
       OsPath.join (scan_dir d) name ∈ sent_images s ∧
       OsPath.join (scan_dir d) name ∉ sent0).

(** The state in a result of [pump_loop]. *)
Definition loop_state (r : loop_result) : state :=
  match r with
  | Looping st | LoopExit st | Raised _ st => st
  end.

(** The calls of the leftover drain: the read, then the forwarding of what
    was read if it is not empty. *)
Definition drained (p : pump) (leftover : option string) : list effect :=
  Read (p_child p) ::
  match leftover with
  | Some t => if Py.truthy t then [Emit (python_output t) (p_sid p)] else []
  | None => []
  end.

(** The state of the world when an output thread started in [st] stands
    at [pc]: in the loop with the polls used up, at the drain after the
    loop was left, or after the [try] statement. *)
Definition pump_advance (pc : pump_pc) (p : pump) (polls : list poll)
    (leftover : option string) (st : state) : option state :=
  match pc, pump_loop p polls st with
  | AtLoop, Looping st0 => Some st0
  | AtDrain, LoopExit st1 => Some st1
  | AtFinish, LoopExit st1 => Some (pump_drain p leftover st1)
  | AtFinish, Raised e st1 => Some (emit (session_error e) (p_sid p) st1)
  | _, _ => None
  end.

(** A poll after which the loop is over. *)
Definition ends_loop (o : poll) : bool :=
  match o with
  | Exited | Eof | Failure _ => true
  | Chunk _ | Timeout => false
  end.

(** The notice of [handle_disconnect_session]. *)
Definition killed_notice (sid : string) : effect :=
  Emit (python_output ("[Session killed by user]" ++ nl)%string) sid.

(** No [process_ended] event among the calls [l]. *)
Definition no_ended (l : list effect) : Prop :=
  Forall (λ e, ∀ room, e ≠ Emit process_ended room) l.

(** The session of [sid] is the object [a], its closing flag is [cl], and
    the log is [log0] followed by calls without [process_ended]. *)
Definition steady (sid : string) (a : nat) (cl : bool) (log0 : list effect)
    (st : state) : Prop :=
  ∃ s l, ephemeral_sessions st !! sid = Some a ∧ heap st !! a = Some s ∧
         closing s = cl ∧ log st = log0 ++ l ∧ no_ended l.

(** The table has no entry for [sid] when the handler reaches
    [pexpect.spawn]. *)
Definition unregistered_at_spawn (sid : string) (data : start_data) (env : start_env)
    (st : state) : Prop :=
  ∀ sp, start_session_setup sid data env st = inr sp →
        ephemeral_sessions (sp_state sp) !! sid = None.

(** ** Sample states *)

Module Demo.

(** The server before any session. *)
Definition st0 : state := State ∅ ∅ ∅ ∅ ∅ 0 true [].

Definition env_ok : start_env :=
  StartEnv "/tmp/user_session_ab12" "/srv/app/prepopulate.sql" false None.

Definition env_fail : start_env :=
  StartEnv "/tmp/sql_session_cd34" "/srv/app/prepopulate.sql" false
           (Some "out of pty devices").

(** What the system answers to a second request. *)
Definition env_again : start_env :=
  StartEnv "/tmp/user_session_ef56" "/srv/app/prepopulate.sql" false None.

(** A request with blank code. *)
Definition blank : start_data := StartData (Some "   ") None.

Definition python_hi : start_data := StartData (Some "print(1)") (Some "python").

Definition sql_one : start_data := StartData (Some "select 1;") (Some "sql").

(** Client [s1] runs a Python program. *)
Definition running : state := start_session "s1" python_hi env_ok st0.

(** Its session dictionary, object 0; the child is object 1 and the
    thread object 2. *)
Definition running_session : session :=
  Session (Some 1) (Some "/tmp/user_session_ab12") None
          (Some "/tmp/user_session_ab12/user_code.py") (Some 2) false ∅.

Definition running_pump : pump := Pump "s1" 0 1.

(** The handler for that request when it reaches [pexpect.spawn]. *)
Definition at_spawn : spawn_point :=
  SpawnPoint
    (State {["s1" := 0]}
           {[0 := set_temp_dir (Some "/tmp/user_session_ab12") new_session]}
           ∅ {["/tmp/user_session_ab12"]} ∅ 1 true
           [Mkdtemp "user_session_" "/tmp/user_session_ab12";
            WriteFile "/tmp/user_session_ab12/user_code.py" "print(1)"])
    0 "/tmp/user_session_ab12" "/tmp/user_session_ab12/user_code.py"
    "cd /tmp/user_session_ab12 && env TERM=dumb python3 -u user_code.py"
    false.

(** The same for the [sql] request under [env_fail]. *)
Definition at_spawn_sql : spawn_point :=
  SpawnPoint
    (State {["s1" := 0]}
           {[0 := set_sql_temp_dir (Some "/tmp/sql_session_cd34") new_session]}
           ∅ {["/tmp/sql_session_cd34"]} ∅ 1 true
           [Mkdtemp "sql_session_" "/tmp/sql_session_cd34";
            WriteFile "/tmp/sql_session_cd34/user_code.sql" "select 1;"])
    0 "/tmp/sql_session_cd34" "/tmp/sql_session_cd34/user_code.sql"
    "cd /tmp/sql_session_cd34 && env TERM=dumb sqlite3 ephemeral.db < user_code.sql"
    true.

(** The workspace of [s1] holds one plot, 1000 by 1200, and a text
    file. *)
Definition listing (pat : string) : list string := ["plot.png"; "notes.txt"].

Definition probe (path : string) : file_obs :=
  if String.eqb path "/tmp/user_session_ab12/plot.png"
  then Readable (Image 1000 1200) "" else Missing.

(** Client [s1] starts a second program while the first one runs: the
    new session is object 3 and its child object 4. *)
Definition restarted : state := start_session "s1" python_hi env_again running.

(** The child of [s1] has exited and nobody has noticed yet. *)
Definition exited : state := child_exit 1 running.

(** A table entry whose session object is marked closing. *)
Definition half_closed : state :=
  State {["s1" := 0]} {[0 := set_closing true running_session]} ∅ ∅ ∅ 3 true [].

End Demo.

(** * Exam rooms

    Section 2 of the module ("EXAM ROOM EVENTS"): the dictionary
    [rooms_data] from room codes to room dictionaries, and the handlers
    that act on it.  A room dictionary always has the seven keys that
    [handle_create_room] gives it, so it is a record.  The values a client
    sends are taken at the types the handlers use them at: codes, names
    and texts are strings, the time limit is an integer, and a field that
    is absent is [None].  The fields read with a default ([name], [code],
    [language], [taskText], [timeLimit]) are taken to be absent or of
    their type, not null.  [handle_end_exam] and [handle_close_room] test
    [not roomCode] before the membership; here the room is looked up
    first, which has no effect of its own. *)

Module Exam.

Record room := Room {
  teacherSocketId : string;
  participants : gset string;
  taskText : string;
  timeLimit : Z;
  examEnded : bool;
  submittedUsers : gset string;
  studentSockets : gmap string string   (** student id to socket id *)
}.

Inductive payload :=
| room_created (roomCode : string)
| session_error (error : string)
| new_task (taskText : string) (timeLimit : Z)
| exam_ended
| room_closed
| student_joined (studentName : string)
| solution_submitted (studentName code language : string) (taskId : option string).

(** [socketio.emit(..., room=...)] and [join_room(room)] for the socket
    of the request. *)
Inductive effect :=
| Emit (p : payload) (room : string)
| JoinRoom (sid room : string).

Record state := State {
  rooms_data : gmap string room;
  log : list effect
}.

Definition with_rooms (f : gmap string room → gmap string room) (st : state) : state :=
  State (f (rooms_data st)) (log st).

Definition record (e : effect) (st : state) : state :=
  State (rooms_data st) (log st ++ [e]).

Definition emit (p : payload) (room : string) (st : state) : state :=
  record (Emit p room) st.

(** [str(x)] inside an f-string, for a value that may be [None]. *)
Definition py_str (x : option string) : string :=
  match x with Some s => s | None => "None" end.

(** [rooms_data.get(roomCode)] where [roomCode] may be [None]. *)
Definition find_room (roomCode : option string) (st : state) : option (string * room) :=
  code ← roomCode;
  r ← rooms_data st !! code;
  Some (code, r).

(** [string.ascii_uppercase + string.digits] *)
Definition alphabet : list ascii :=
  list_ascii_of_string "ABCDEFGHIJKLMNOPQRSTUVWXYZ0123456789".

(** [random.choice(seq)] when the generator draws [n]. *)
Definition choice (seq : list ascii) (n : nat) : ascii :=
  nth (n mod length seq) seq "A"%char.

(** [generate_room_code]; [draws] are the six numbers the generator
    gives. *)
Definition generate_room_code (draws : nat → nat) : string :=
  string_of_list_ascii (map (λ k, choice alphabet (draws k)) (seq 0 6)).

(** [handle_create_room] *)
Definition handle_create_room (sid : string) (draws : nat → nat) (st : state) : state :=
  let code := generate_room_code draws in
  let st := with_rooms <[code := Room sid ∅ "" 0 false ∅ ∅]> st in
  let st := record (JoinRoom sid code) st in
  emit (room_created code) sid st.

Record task_data := TaskData {
  t_roomCode : option string;
  t_taskText : option string;
  t_timeLimit : option Z
}.

(** [handle_send_task] *)
Definition handle_send_task (sid : string) (data : task_data) (st : state) : state :=
  let roomCode := t_roomCode data in
  let taskText := default "" (t_taskText data) in
  let timeLimit := default 0%Z (t_timeLimit data) in
  match find_room roomCode st with
  | None =>
      emit (session_error ("Room " ++ py_str roomCode ++ " not found")) sid st
  | Some (code, _) =>
      let st :=
        with_rooms (alter (λ r, Room (teacherSocketId r) (participants r) taskText timeLimit
                                     false ∅ (studentSockets r)) code) st in
      emit (new_task taskText timeLimit) code st
  end.

(** [handle_end_exam]; [roomCode] is [data.get("roomCode")]. *)
Definition handle_end_exam (roomCode : option string) (st : state) : state :=
  match find_room roomCode st with
  | None => st
  | Some (code, _) =>
      if negb (Py.truthy code) then st
      else
        let st :=
          with_rooms (alter (λ r, Room (teacherSocketId r) (participants r) (taskText r)
                                       (timeLimit r) true (submittedUsers r)
                                       (studentSockets r)) code) st in
        emit exam_ended code st
  end.

(** [handle_close_room] *)
Definition handle_close_room (roomCode : option string) (st : state) : state :=
  match find_room roomCode st with
  | None => st
  | Some (code, _) =>
      if negb (Py.truthy code) then st
      else with_rooms (delete code) (emit room_closed code st)
  end.

Record join_data := JoinData {
  j_roomCode : option string;
  j_name : option string;
  j_studentId : option string
}.

(** [handle_join_room] *)
Definition handle_join_room (sid : string) (data : join_data) (st : state) : state :=
  let roomCode := j_roomCode data in
  let studentName := default "Unknown" (j_name data) in
  match find_room roomCode st with
  | None =>
      emit (session_error ("Room " ++ py_str roomCode ++ " not found")) sid st
  | Some (code, _) =>
      let st := record (JoinRoom sid code) st in
      let st :=
        with_rooms (alter (λ r, Room (teacherSocketId r) ({[sid]} ∪ participants r)
                                     (taskText r) (timeLimit r) (examEnded r)
                                     (submittedUsers r) (studentSockets r)) code) st in
      let st :=
        match j_studentId data with
        | Some studentId =>
            if Py.truthy studentId then
              with_rooms (alter (λ r, Room (teacherSocketId r) (participants r)
                                           (taskText r) (timeLimit r) (examEnded r)
                                           (submittedUsers r)
                                           (<[studentId := sid]> (studentSockets r))) code) st
            else st
        | None => st
        end in
      emit (student_joined studentName) code st
  end.

Record submit_data := SubmitData {
  s_roomCode : option string;
  s_name : option string;
  s_code : option string;
  s_language : option string;
  s_taskId : option string
}.

(** [handle_submit_solution] *)
Definition handle_submit_solution (sid : string) (data : submit_data) (st : state) : state :=
  let roomCode := s_roomCode data in
  let studentName := default "Unknown" (s_name data) in
  let code := default "" (s_code data) in
  let language := default "" (s_language data) in
  let taskId := s_taskId data in
  match find_room roomCode st with
  | None =>
      emit (session_error ("Room " ++ py_str roomCode ++ " not found")) sid st
  | Some (room_code, r) =>
      if examEnded r then
        emit (session_error "Exam ended. No more submissions.") sid st
      else if bool_decide (sid ∈ submittedUsers r) then st
      else
        let st :=
          with_rooms (alter (λ r, Room (teacherSocketId r) (participants r) (taskText r)
                                       (timeLimit r) (examEnded r)
                                       ({[sid]} ∪ submittedUsers r)
                                       (studentSockets r)) room_code) st in
        let code := Py.rstrip code in
        emit (solution_submitted studentName code language taskId) room_code st
  end.

(** The requests a client can make of the exam rooms. *)
Inductive request :=
| CreateRoom (sid : string) (draws : nat → nat)
| SendTask (sid : string) (data : task_data)
| EndExam (roomCode : option string)
| CloseRoom (roomCode : option string)
| JoinRoomReq (sid : string) (data : join_data)
| SubmitSolution (sid : string) (data : submit_data).

Definition handle (rq : request) (st : state) : state :=
  match rq with
  | CreateRoom sid draws => handle_create_room sid draws st
  | SendTask sid data => handle_send_task sid data st
  | EndExam roomCode => handle_end_exam roomCode st
  | CloseRoom roomCode => handle_close_room roomCode st
  | JoinRoomReq sid data => handle_join_room sid data st
  | SubmitSolution sid data => handle_submit_solution sid data st
  end.

Definition handle_all (rqs : list request) (st : state) : state :=
  fold_left (λ st rq, handle rq st) rqs st.

(** Sample data. *)
Definition draws_abc (k : nat) : nat := k.

Definition empty : state := State ∅ [].

Definition one_room : state := handle_create_room "teacher" draws_abc empty.

End Exam.

(** * The session handlers as a state machine *)

(** What can happen to the server, one step at a time: a request of a
    client, or a step of an output thread.  A thread is named by its
    identity; the table [threads] says which closure it runs.  The state
    does not record where a thread stands, so the steps of a thread may
    come in any order and any number of times.  [EvLoop] is a stretch of
    the [while] loop, with the report of the exception if it raises one;
    [EvDrain] the read of what is left; [EvFinish] the thread after its
    [try] statement.

    Each event is one step: a handler runs from its first line to its
    return without another handler or thread in between, and without an
    exception of the file system.  The runs of the server in which a
    request comes in the middle of another handler, of a cleanup or of the
    last block of a thread are not among the runs of this machine. *)
Inductive event :=
| EvStart (sid : string) (data : start_data) (env : start_env)
| EvInput (sid : string) (line : option string)
| EvDisconnect (sid : string)
| EvLoop (t : nat) (polls : list poll)
| EvDrain (t : nat) (leftover : option string)
| EvFinish (t : nat) (listing : string → list string) (probe : string → file_obs).

Definition run (ev : event) (st : state) : state :=
  match ev with
  | EvStart sid data env => start_session sid data env st
  | EvInput sid line => handle_send_input sid line st
  | EvDisconnect sid => handle_disconnect_session sid st
  | EvLoop t polls =>
      match threads st !! t with
      | Some p =>
          match pump_loop p polls st with
          | Raised e st1 => emit (session_error e) (p_sid p) st1
          | Looping st1 | LoopExit st1 => st1
          end
      | None => st
      end
  | EvDrain t leftover =>
      match threads st !! t with
      | Some p => pump_drain p leftover st
      | None => st
      end
  | EvFinish t listing probe =>
      match threads st !! t with
      | Some p => pump_finish p listing probe st
      | None => st
      end
  end.

Definition run_all (evs : list event) (st : state) : state :=
  fold_left (λ st ev, run ev st) evs st.

(** The server when the module has just been loaded. *)
Definition initial (pil : bool) : state := State ∅ ∅ ∅ ∅ ∅ 0 pil [].

(** A session as [start_session] leaves it in the table: open, with a
    child, a thread, a source file and one workspace. *)
Definition live (st : state) (s : session) : Prop :=
  closing s = false ∧
  (∃ c, child s = Some c ∧ c < next_id st) ∧
  is_Some (thread s) ∧
  is_Some (temp_file s) ∧
  ((is_Some (temp_dir s) ∧ sql_temp_dir s = None) ∨
   (temp_dir s = None ∧ is_Some (sql_temp_dir s))).

(** What the handlers keep true of the table. *)
Definition wf (st : state) : Prop :=
  (∀ sid a, ephemeral_sessions st !! sid = Some a →
            a < next_id st ∧ ∃ s, heap st !! a = Some s ∧ live st s) ∧
  (∀ sid1 sid2 a, ephemeral_sessions st !! sid1 = Some a →
                  ephemeral_sessions st !! sid2 = Some a → sid1 = sid2) ∧
  (∀ sid1 sid2 a1 a2 s1 s2 c,
     get_session sid1 st = Some (a1, s1) → get_session sid2 st = Some (a2, s2) →
     child s1 = Some c → child s2 = Some c → sid1 = sid2) ∧
  (∀ c, c ∈ alive st → c < next_id st).

(** A session object without its set of sent images. *)
Definition core (s : session) : session := set_sent_images ∅ s.

(** The text of the [python_output] events for [sid] in a log. *)
Fixpoint output_text (sid : string) (l : list effect) : string :=
  match l with
  | [] => ""
  | Emit (python_output data) room :: l' =>
      ((if String.eqb room sid then data else "") ++ output_text sid l')%string
  | _ :: l' => output_text sid l'
  end.

(** The text of the chunks a loop reads from [polls] before it is over. *)
Fixpoint polled_text (polls : list poll) : string :=
  match polls with
  | Chunk s :: polls' => (s ++ polled_text polls')%string
  | Timeout :: polls' => polled_text polls'
  | _ => ""
  end.

(** Whether the first poll that ends the loop is a failure. *)
Fixpoint fails (polls : list poll) : bool :=
  match polls with
  | Chunk _ :: polls' | Timeout :: polls' => fails polls'
  | Failure _ :: _ => true
  | _ => false
  end.

(** ** Exam rooms: what the properties speak of *)

Module ExamSpec.

Import Exam.

Fixpoint all_space (w : string) : bool :=
  match w with
  | String c r => Py.is_space c && all_space r
  | EmptyString => true
  end.

(** The last character of [s] is not white space ([true] for the empty
    string). *)
Fixpoint ends_clean (s : string) : bool :=
  match s with
  | EmptyString => true
  | String c EmptyString => negb (Py.is_space c)
  | String _ r => ends_clean r
  end.

(** A request that neither makes, nor closes, nor gives a new task to the
    room [code]. *)
Definition keeps (code : string) (rq : request) : Prop :=
  match rq with
  | CreateRoom _ draws => generate_room_code draws ≠ code
  | SendTask _ data => t_roomCode data ≠ Some code
  | CloseRoom roomCode => roomCode ≠ Some code
  | EndExam _ | JoinRoomReq _ _ | SubmitSolution _ _ => True
  end.

(** A request that neither makes nor closes the room [code]; it may give
    it a new task. *)
Definition stays (code : string) (rq : request) : Prop :=
  match rq with
  | CreateRoom _ draws => generate_room_code draws ≠ code
  | CloseRoom roomCode => roomCode ≠ Some code
  | SendTask _ _ | EndExam _ | JoinRoomReq _ _ | SubmitSolution _ _ => True
  end.

(** Room [r'] is room [r] some requests later, none of which made, closed
    or gave a task to it. *)
Definition extends (r r' : room) : Prop :=
  teacherSocketId r' = teacherSocketId r ∧
  taskText r' = taskText r ∧ timeLimit r' = timeLimit r ∧
  participants r ⊆ participants r' ∧
  submittedUsers r ⊆ submittedUsers r' ∧
  (examEnded r = true → examEnded r' = true).

End ExamSpec.

(** ** The state machine: what the properties speak of *)

(** Between [st] and [st'] only the log and the sets of sent images have
    changed. *)
Definition quiet (st st' : state) : Prop :=
  ephemeral_sessions st' = ephemeral_sessions st ∧
  (∀ a, core <$> heap st' !! a = core <$> heap st !! a) ∧
  alive st' = alive st ∧ dirs st' = dirs st ∧ threads st' = threads st ∧
  next_id st' = next_id st ∧ PIL_ENABLED st' = PIL_ENABLED st.

(** The session object that [start_session] has made by the time it
    spawns the child. *)
Definition fresh_session (sql : bool) (tmp_dir : string) : session :=
  if sql then set_sql_temp_dir (Some tmp_dir) new_session
  else set_temp_dir (Some tmp_dir) new_session.

(** No event in [l] is sent to the client [sid']. *)
Definition not_to (sid' : string) (l : list effect) : Prop :=
  Forall (λ e, ∀ p, e ≠ Emit p sid') l.

(** From [st] to [st'] the session of [sid'] has not changed, its child
    is alive in the one state if and only if it is in the other, and the
    client was sent nothing. *)
Definition apart (sid' : string) (st st' : state) : Prop :=
  get_session sid' st' = get_session sid' st ∧
  (∀ a' s' c', get_session sid' st = Some (a', s') → child s' = Some c' →
               isalive c' st' = isalive c' st) ∧
  ∃ l, log st' = log st ++ l ∧ not_to sid' l.

(** Calls that are no events. *)
Definition no_emit (l : list effect) : Prop :=
  Forall (λ e, ∀ p room, e ≠ Emit p room) l.

(** The calls of a scan for the client [sid]: globbing, and events sent
    to [sid] that carry an image or an error. *)
Definition scan_effect (sid : string) (e : effect) : Prop :=
  match e with
  | Glob _ => True
  | Emit (plot_image _ _) room | Emit (session_error _) room => room = sid
  | _ => False
  end.

(** A step of a scan for [sid], whose session is the object [a]: the
    table and the processes are as before, no other object has changed,
    and the log has grown by calls of a scan. *)
Definition scan_step (sid : string) (a : nat) (st st' : state) : Prop :=
  ephemeral_sessions st' = ephemeral_sessions st ∧ alive st' = alive st ∧
  (∀ a', a' ≠ a → heap st' !! a' = heap st !! a') ∧
  ∃ l, log st' = log st ++ l ∧ Forall (scan_effect sid) l.

(** The paths that a scan of the directory [d] goes through, in its
    order. *)
Definition found (d : string) (listing : string → list string) : list string :=
  flat_map (λ pat, Glob.glob (OsPath.join d pat) (listing pat)) patterns.

(** [probe] finds an image at [path] that can be read and encoded. *)
Definition readable (probe : string → file_obs) (path : string) : Prop :=
  ∃ im bytes, probe path = Readable im bytes.

(** From [st] to [st'] the session [a] of [sid], which had sent the paths
    [sent0], has gone through [paths]: it has now sent those of [sent0]
    and the readable ones of [paths], each new one with its event. *)
Definition scanned (sid : string) (a : nat) (probe : string → file_obs)
    (paths : list string) (sent0 : gset string) (st st' : state) : Prop :=
  ∃ s' l, get_session sid st' = Some (a, s') ∧
    PIL_ENABLED st' = PIL_ENABLED st ∧ log st' = log st ++ l ∧
    (∀ path, path ∈ sent_images s' ↔
             path ∈ sent0 ∨ (path ∈ paths ∧ readable probe path)) ∧
    (∀ path im bytes, path ∈ paths → probe path = Readable im bytes → path ∉ sent0 →
       Emit (plot_image (OsPath.basename path)
                        (load_image (PIL_ENABLED st) im bytes)) sid ∈ l).

(** A Java identifier in the ASCII range: a letter or an underscore, then
    letters, digits and underscores. *)
Fixpoint all_word (w : string) : bool :=
  match w with
  | String c r => Re.is_word c && all_word r
  | EmptyString => true
  end.

Definition identifier (w : string) : bool :=
  match w with
  | String c r => Re.is_alpha_ c && all_word r
  | EmptyString => false
  end.

(** The file name endings that [patterns] ask for. *)
Definition image_endings : list string := [".png"; ".jpg"; ".jpeg"].

(** An event that starts no session for [sid]. *)
Definition no_start (sid : string) (ev : event) : Prop :=
  match ev with
  | EvStart sid' _ _ => sid' ≠ sid
  | EvInput _ _ | EvDisconnect _ | EvLoop _ _ | EvDrain _ _ | EvFinish _ _ _ => True
  end.

(** The thread after its [try] statement, with [h] running between the
    scan and the emission of [process_ended]: the thread holds no lock,
    and the handler of a request that arrives while it scans the
    workspace runs then.  With nothing in between this is
    [pump_finish]. *)
Definition pump_finish_interrupted (p : pump) (listing : string → list string)
    (probe : string → file_obs) (h : state → state) (st : state) : state :=
  let entered := negb (obj_closing p st) in
  let st := if entered then scan_for_new_images (p_sid p) listing probe st else st in
  let st := h st in
  let st := if entered then emit process_ended (p_sid p) st else st in
  cleanup_ephemeral_session (p_sid p) st.

(** The event that [handle_plot_file] sends for [path] when it finds
    [obs] there. *)
Definition handled (sid : string) (pil : bool) (path : string) (obs : file_obs) : effect :=
  match obs with
  | Missing => Emit (session_error ("Plot file not found: " ++ path)%string) sid
  | Unreadable e =>
      Emit (session_error ("Could not handle plot file " ++ path ++ ": " ++ e)%string) sid
  | Readable im bytes =>
      Emit (plot_image (OsPath.basename path) (load_image pil im bytes)) sid
  end.

(** [path] is the path of an image of the workspace [d]: of an entry
    listed for one of the three patterns, whose name has the ending of the
    pattern and does not begin with a dot. *)
Definition image_entry (d : string) (listing : string → list string) (path : string) : Prop :=
  ∃ ending name stem,
    ending ∈ image_endings ∧ name ∈ listing ("*" ++ ending)%string ∧
    name = (stem ++ ending)%string ∧ Glob.is_hidden name = false ∧
    path = OsPath.join (scan_dir d) name.

(** From [st] to [st'] the session [a] of [sid], which had sent the paths
    [sent0], has gone through [paths]: the log has grown by globs and by
    the events of [handle_plot_file] for the paths not sent before, one at
    least for each. *)
Definition traced (sid : string) (a : nat) (probe : string → file_obs)
    (paths : list string) (sent0 : gset string) (st st' : state) : Prop :=
  ∃ s' l, get_session sid st' = Some (a, s') ∧
    PIL_ENABLED st' = PIL_ENABLED st ∧ log st' = log st ++ l ∧
    sent0 ⊆ sent_images s' ∧
    (∀ path, path ∈ sent_images s' → path ∈ sent0 ∨ path ∈ paths) ∧
    (∀ e, e ∈ l →
       (∃ pathname, e = Glob pathname) ∨
       ∃ path, path ∈ paths ∧ (path ∉ sent0) ∧
               e = handled sid (PIL_ENABLED st) path (probe path)) ∧
    (∀ path, path ∈ paths → path ∉ sent0 →
       handled sid (PIL_ENABLED st) path (probe path) ∈ l).

(** * Proofs *)

Lemma same_world_refl st : same_world st st.
Proof. by repeat split. Qed.

Lemma same_world_record e st : same_world st (record e st).
Proof. by repeat split. Qed.

Lemma same_world_trans st1 st2 st3 :
  same_world st1 st2 → same_world st2 st3 → same_world st1 st3.
Proof.
  unfold same_world. intros (?&?&?&?&?&?&?) (?&?&?&?&?&?&?).
  repeat split; congruence.
Qed.

Lemma same_world_get_session sid st st' :
  same_world st st' → get_session sid st' = get_session sid st.
Proof. intros (Ht & Hh & _). unfold get_session. by rewrite Ht, Hh. Qed.

Lemma state_eq st st' :
  same_world st st' → log st' = log st → st' = st.
Proof.
  destruct st, st'. unfold same_world. simpl.
  intros (?&?&?&?&?&?&?) ?. by subst.
Qed.

(** ** Cleanup *)

Section Cleanup.

Variables (sid : string) (st : state).

Lemma cleanup_absent :
  get_session sid st = None → cleanup_ephemeral_session sid st = st.
Proof. intros H. unfold cleanup_ephemeral_session. by rewrite H. Qed.

Lemma cleanup_closing a s :
  get_session sid st = Some (a, s) → closing s = true →
  cleanup_ephemeral_session sid st = st.
Proof. intros H Hc. unfold cleanup_ephemeral_session. by rewrite H, Hc. Qed.

Lemma get_session_Some a s :
  get_session sid st = Some (a, s) ↔
  ephemeral_sessions st !! sid = Some a ∧ heap st !! a = Some s.
Proof.
  unfold get_session. split.
  - destruct (ephemeral_sessions st !! sid) as [a'|]; simpl; [|done].
    destruct (heap st !! a') as [s'|] eqn:E; simpl; [|done].
    intros [= <- <-]. done.
  - intros [-> Hs]. simpl. by rewrite Hs.
Qed.

Context (a : nat) (s : session).
Hypothesis Hget : get_session sid st = Some (a, s).
Hypothesis Hopen : closing s = false.

Lemma cleanup_table :
  ephemeral_sessions (cleanup_ephemeral_session sid st) = delete sid (ephemeral_sessions st).
Proof.
  unfold cleanup_ephemeral_session. rewrite Hget, Hopen.
  repeat case_match; reflexivity.
Qed.

Lemma cleanup_heap :
  heap (cleanup_ephemeral_session sid st) = <[a := cleared]> (heap st).
Proof.
  pose proof (proj1 (get_session_Some a s) Hget) as [_ Hs].
  unfold cleanup_ephemeral_session. rewrite Hget, Hopen.
  apply map_eq. intros i.
  destruct (decide (i = a)) as [->|Hne].
  - rewrite lookup_insert_eq.
    repeat case_match; simpl; rewrite !lookup_alter_eq, Hs; reflexivity.
  - rewrite lookup_insert_ne by done.
    repeat case_match; simpl; rewrite !lookup_alter_ne by done; reflexivity.
Qed.

Lemma cleanup_alive :
  alive (cleanup_ephemeral_session sid st) = alive st ∖ child_set s.
Proof.
  unfold cleanup_ephemeral_session, child_set. rewrite Hget, Hopen.
  destruct (child s) as [c|]; simpl.
  - unfold isalive. simpl. case_bool_decide as Hc; repeat case_match; simpl; set_solver.
  - repeat case_match; simpl; set_solver.
Qed.

Lemma cleanup_dirs :
  dirs (cleanup_ephemeral_session sid st) = dirs st ∖ workspace s.
Proof.
  unfold cleanup_ephemeral_session, workspace, dir_set, isdir. rewrite Hget, Hopen.
  destruct (child s) as [c|]; [destruct (isalive c _)|];
    (destruct (temp_dir s) as [d1|]; [destruct (Py.truthy d1) eqn:T1|]);
    (destruct (sql_temp_dir s) as [d2|]; [destruct (Py.truthy d2) eqn:T2|]);
    simpl; rewrite ?T1, ?T2; simpl;
    repeat (case_bool_decide; simpl); set_solver.
Qed.

Lemma cleanup_log :
  log (cleanup_ephemeral_session sid st) = log st ++ teardown s st.
Proof.
  unfold cleanup_ephemeral_session, teardown, kills, removals, dir_set, isdir.
  rewrite Hget, Hopen.
  destruct (child s) as [c|]; [unfold isalive; simpl; destruct (bool_decide (c ∈ alive st))|];
    (destruct (temp_dir s) as [d1|]; [destruct (Py.truthy d1) eqn:T1|]);
    (destruct (sql_temp_dir s) as [d2|]; [destruct (Py.truthy d2) eqn:T2|]);
    simpl; rewrite ?T1, ?T2; simpl;
    repeat (case_bool_decide; simpl);
    rewrite <- ?app_assoc, ?app_nil_r; simpl; try reflexivity; set_solver.
Qed.

Lemma cleanup_rest :
  threads (cleanup_ephemeral_session sid st) = threads st ∧
  next_id (cleanup_ephemeral_session sid st) = next_id st ∧
  PIL_ENABLED (cleanup_ephemeral_session sid st) = PIL_ENABLED st.
Proof.
  unfold cleanup_ephemeral_session. rewrite Hget, Hopen.
  repeat case_match; done.
Qed.

End Cleanup.

Lemma cleanup_idempotent sid st :
  cleanup_ephemeral_session sid (cleanup_ephemeral_session sid st) =
  cleanup_ephemeral_session sid st.
Proof.
  destruct (get_session sid st) as [[a s]|] eqn:Hget.
  - destruct (closing s) eqn:Hc.
    + by rewrite !(cleanup_closing sid st a s Hget Hc).
    + apply cleanup_absent. unfold get_session.
      by rewrite (cleanup_table sid st a s Hget Hc), lookup_delete_eq.
  - by rewrite !(cleanup_absent sid st Hget).
Qed.

Lemma cleanup_iter sid st n :
  Nat.iter (S n) (cleanup_ephemeral_session sid) st = cleanup_ephemeral_session sid st.
Proof.
  induction n as [|n IH]; [done|].
  change (Nat.iter (S (S n)) (cleanup_ephemeral_session sid) st)
    with (cleanup_ephemeral_session sid (Nat.iter (S n) (cleanup_ephemeral_session sid) st)).
  rewrite IH. apply cleanup_idempotent.
Qed.

(** What one teardown achieves. *)
Lemma teardown_complete (sid : string) (st : state) (a : nat) (s : session) :
  get_session sid st = Some (a, s) →
  closing s = false →
  let st1 := cleanup_ephemeral_session sid st in
  (∀ c, child s = Some c →
        isalive c st1 = false ∧ (isalive c st = true → Terminate c ∈ teardown s st)) ∧
  (∀ d, temp_dir s = Some d ∨ sql_temp_dir s = Some d →
        isdir d st1 = false ∧ (isdir d st = true → Rmtree d ∈ teardown s st)) ∧
  heap st1 !! a = Some cleared ∧
  ephemeral_sessions st1 !! sid = None ∧
  log st1 = log st ++ teardown s st.
Proof.
  intros Hget Hopen st1. subst st1.
  split; [|split; [|split; [|split]]].
  - intros c H. split.
    + unfold isalive. rewrite (cleanup_alive sid st a s Hget Hopen).
      apply bool_decide_eq_false. unfold child_set. rewrite H. set_solver.
    + intros Hal. unfold teardown, kills. rewrite H, Hal. set_solver.
  - intros d H. split.
    + unfold isdir. rewrite (cleanup_dirs sid st a s Hget Hopen).
      destruct (Py.truthy d) eqn:Ht; [simpl|done].
      apply bool_decide_eq_false. unfold workspace, dir_set.
      destruct H as [H | H]; rewrite H, Ht; set_solver.
    + unfold isdir. intros [Ht Hin]%andb_true_iff.
      apply bool_decide_eq_true in Hin.
      unfold teardown, removals.
      destruct H as [H | H].
      * rewrite H, Ht. rewrite bool_decide_eq_true_2 by done. set_solver.
      * rewrite H, Ht. simpl.
        destruct (decide (temp_dir s = Some d)) as [E|E].
        -- rewrite E, Ht. rewrite bool_decide_eq_true_2 by done. set_solver.
        -- rewrite (bool_decide_eq_true_2 (d ∈ dirs st ∖ dir_set (temp_dir s))).
           { set_solver. }
           unfold dir_set. destruct (temp_dir s) as [d'|]; [|set_solver].
           destruct (Py.truthy d'); [|set_solver].
           assert (d ≠ d') by congruence. set_solver.
  - rewrite (cleanup_heap sid st a s Hget Hopen). apply lookup_insert_eq.
  - rewrite (cleanup_table sid st a s Hget Hopen). apply lookup_delete_eq.
  - apply (cleanup_log sid st a s Hget Hopen).
Qed.

(** ** Disconnection and input *)

Lemma get_session_unregistered sid st :
  ephemeral_sessions st !! sid = None → get_session sid st = None.
Proof. intros H. unfold get_session. by rewrite H. Qed.

(** C10: a disconnect request from a client that has no entry in the
    table appends one [process_ended] event for that client to the log and
    nothing else (so no kill notice), and leaves the table, the session
    objects, the processes and the directories as they were. *)
Theorem disconnect_without_session (sid : string) (st : state) :
  ephemeral_sessions st !! sid = None →
  log (handle_disconnect_session sid st) = log st ++ [Emit process_ended sid] ∧
  same_world st (handle_disconnect_session sid st).
Proof.
  intros Hnone. apply get_session_unregistered in Hnone.
  unfold handle_disconnect_session. rewrite Hnone.
  rewrite (cleanup_absent sid st Hnone).
  split; [reflexivity | apply same_world_record].
Qed.

Lemma disconnect_without_session_witness :
  log (handle_disconnect_session "s2" Demo.running) =
    log Demo.running ++ [Emit process_ended "s2"] ∧
  same_world Demo.running (handle_disconnect_session "s2" Demo.running).
Proof.
  apply (disconnect_without_session "s2" Demo.running).
  vm_compute. reflexivity.
Defined.

(** C6: the four cases of [handle_send_input].  With no session: the
    notice and [process_ended], nothing else.  With a closing session: the
    closed notice, [process_ended], then the cleanup (which returns at
    once).  With no child or a dead child: the notice, [process_ended],
    then the cleanup, which tears the session down.  Otherwise: the line
    and a line feed are written to the child and no event is emitted. *)
Theorem send_input_cases (sid : string) (line : option string) (st : state) :
  let no_session := Emit (python_output ("[No active session]" ++ nl)%string) sid in
  let closed := Emit (python_output ("[Session closed]" ++ nl)%string) sid in
  let ended := Emit process_ended sid in
  let st' := handle_send_input sid line st in
  (get_session sid st = None →
     log st' = log st ++ [no_session; ended] ∧ same_world st st') ∧
  (∀ a s, get_session sid st = Some (a, s) → closing s = true →
     st' = cleanup_ephemeral_session sid (record ended (record closed st)) ∧
     log st' = log st ++ [closed; ended] ∧ same_world st st') ∧
  (∀ a s, get_session sid st = Some (a, s) → closing s = false →
     (child s = None ∨ ∃ c, child s = Some c ∧ isalive c st = false) →
     st' = cleanup_ephemeral_session sid (record ended (record no_session st)) ∧
     log st' = log st ++ [no_session; ended] ++ teardown s st ∧
     ephemeral_sessions st' !! sid = None ∧
     heap st' !! a = Some cleared) ∧
  (∀ a s c, get_session sid st = Some (a, s) → closing s = false →
     child s = Some c → isalive c st = true →
     log st' = log st ++ [Send c (Py.get line "" ++ nl)%string] ∧ same_world st st').
Proof.
  intros no_session closed ended st'. subst st'.
  unfold handle_send_input.
  split; [|split; [|split]].
  - intros ->. split; [simpl; by rewrite <- app_assoc|].
    eapply same_world_trans; apply same_world_record.
  - intros a s Hg Hc. rewrite Hg, Hc.
    split; [reflexivity|].
    rewrite (cleanup_closing sid _ a s) by done.
    split; [simpl; by rewrite <- app_assoc|].
    eapply same_world_trans; apply same_world_record.
  - intros a s Hg Hc Hdead. rewrite Hg, Hc.
    assert (Hg1 : get_session sid (emit process_ended sid
                    (emit (python_output ("[No active session]" ++ nl)%string) sid st))
                  = Some (a, s)) by exact Hg.
    destruct Hdead as [Hn | (c & Hch & Hd)]; [rewrite Hn | rewrite Hch, Hd];
      (split; [reflexivity|]); (split; [|split]);
      [ rewrite (cleanup_log sid _ a s Hg1 Hc); simpl;
        rewrite <- !app_assoc; reflexivity
      | rewrite (cleanup_table sid _ a s Hg1 Hc); apply lookup_delete_eq
      | rewrite (cleanup_heap sid _ a s Hg1 Hc); apply lookup_insert_eq
      | rewrite (cleanup_log sid _ a s Hg1 Hc); simpl;
        rewrite <- !app_assoc; reflexivity
      | rewrite (cleanup_table sid _ a s Hg1 Hc); apply lookup_delete_eq
      | rewrite (cleanup_heap sid _ a s Hg1 Hc); apply lookup_insert_eq ].
  - intros a s c Hg Hc Hch Hal. rewrite Hg, Hc, Hch, Hal.
    split; [reflexivity | apply same_world_record].
Qed.

Lemma send_input_cases_witness :
  log (handle_send_input "s1" (Some "5") Demo.st0) =
    [Emit (python_output ("[No active session]" ++ nl)%string) "s1";
     Emit process_ended "s1"] ∧
  log (handle_send_input "s1" (Some "5") Demo.half_closed) =
    [Emit (python_output ("[Session closed]" ++ nl)%string) "s1";
     Emit process_ended "s1"] ∧
  ephemeral_sessions (handle_send_input "s1" (Some "5") Demo.exited) !! "s1" = None ∧
  log (handle_send_input "s1" (Some "5") Demo.running) =
    log Demo.running ++ [Send 1 ("5" ++ nl)%string].
Proof.
  split; [|split; [|split]].
  - pose proof (send_input_cases "s1" (Some "5") Demo.st0) as H. cbv zeta in H.
    destruct H as (H & _). apply H. reflexivity.
  - pose proof (send_input_cases "s1" (Some "5") Demo.half_closed) as H. cbv zeta in H.
    destruct H as (_ & H & _).
    apply (H 0 (set_closing true Demo.running_session)); [vm_compute|]; reflexivity.
  - pose proof (send_input_cases "s1" (Some "5") Demo.exited) as H. cbv zeta in H.
    destruct H as (_ & _ & H & _).
    apply (H 0 Demo.running_session); [vm_compute; reflexivity | reflexivity |].
    right. exists 1. split; [reflexivity | vm_compute; reflexivity].
  - pose proof (send_input_cases "s1" (Some "5") Demo.running) as H. cbv zeta in H.
    destruct H as (_ & _ & _ & H).
    apply (H 0 Demo.running_session 1);
      [vm_compute; reflexivity | reflexivity | reflexivity | vm_compute; reflexivity].
Defined.

(** ** Starting a session *)

Section Start.

Variables (sid : string) (data : start_data) (env : start_env) (st : state).

Lemma setup_rejected :
  accepted data = false →
  ∃ msg, start_session_setup sid data env st = inl (emit (session_error msg) sid st).
Proof.
  unfold accepted, start_session_setup, request_code, request_language.
  destruct (Py.truthy _) eqn:Hc; simpl.
  - intros Hl%bool_decide_eq_false.
    destruct (Py.assoc _ LANG_EXTENSIONS) eqn:Hx.
    + exfalso. apply Hl. eauto.
    + eauto.
  - eauto.
Qed.

Lemma setup_accepted :
  accepted data = true →
  let mid := cleanup_ephemeral_session sid st in
  ∃ sp s_new prefix l,
    start_session_setup sid data env st = inr sp ∧
    sp_obj sp = next_id mid ∧
    sp_tmp_dir sp = mkdtemp_path env ∧
    sp_sql sp = String.eqb (request_language data) "sql" ∧
    ephemeral_sessions (sp_state sp) = <[sid := next_id mid]> (ephemeral_sessions mid) ∧
    heap (sp_state sp) = <[next_id mid := s_new]> (heap mid) ∧
    child s_new = None ∧ closing s_new = false ∧
    alive (sp_state sp) = alive mid ∧
    dirs (sp_state sp) = {[mkdtemp_path env]} ∪ dirs mid ∧
    threads (sp_state sp) = threads mid ∧
    next_id (sp_state sp) = S (next_id mid) ∧
    log (sp_state sp) = log mid ++ Mkdtemp prefix (mkdtemp_path env) :: l ∧
    Forall is_file_setup l.
Proof.
  unfold accepted, start_session_setup, request_code, request_language.
  intros [Hc Hl]%andb_true_iff. rewrite Hc. simpl.
  apply bool_decide_eq_true in Hl as [ext Hl]. rewrite Hl.
  set (mid := cleanup_ephemeral_session sid st).
  destruct (String.eqb _ "sql") eqn:Hsql; simpl.
  - destruct (prepop_exists env); simpl;
      eexists _, _, _, _; (split; [reflexivity|]); simpl;
      rewrite ?alter_insert_eq, <- ?app_assoc; simpl;
      repeat (split; [reflexivity|]);
      repeat constructor.
  - match goal with
    | |- context [let '(_, _) := ?e in _] => destruct e as [code_path run_cmd]
    end.
    eexists _, _, _, _; (split; [reflexivity|]); simpl;
      rewrite ?alter_insert_eq, <- ?app_assoc; simpl;
      repeat (split; [reflexivity|]);
      repeat constructor.
Qed.

Lemma setup_inr sp :
  start_session_setup sid data env st = inr sp → accepted data = true.
Proof.
  intros H. destruct (accepted data) eqn:Ha; [done|].
  destruct (setup_rejected Ha) as [msg Hm]. congruence.
Qed.

(** A valid request does all its work on the state left by the cleanup
    it starts with. *)
Lemma start_after_cleanup :
  accepted data = true →
  start_session sid data env st =
  start_session sid data env (cleanup_ephemeral_session sid st).
Proof.
  unfold accepted, start_session, start_session_setup, request_code, request_language.
  intros [Hc Hl]%andb_true_iff. rewrite Hc. simpl.
  apply bool_decide_eq_true in Hl as [ext Hl]. rewrite Hl.
  by rewrite cleanup_idempotent.
Qed.

Lemma spawn_failed sp e :
  spawn_error env = Some e →
  let st' := start_session_spawn sid env sp in
  ephemeral_sessions st' = delete sid (ephemeral_sessions (sp_state sp)) ∧
  heap st' = heap (sp_state sp) ∧
  alive st' = alive (sp_state sp) ∧
  dirs st' = (if sp_sql sp then dirs (sp_state sp)
              else dirs (sp_state sp) ∖ {[sp_tmp_dir sp]}) ∧
  log st' = log (sp_state sp) ++
            [SpawnFailed (sp_shell_cmd sp) e; Emit (session_error e) sid] ++
            (if sp_sql sp then [] else [Rmtree (sp_tmp_dir sp)]).
Proof.
  intros He. unfold start_session_spawn. rewrite He.
  destruct (sp_sql sp); simpl; rewrite <- ?app_assoc; done.
Qed.

Lemma spawn_succeeded sp :
  spawn_error env = None →
  let st' := start_session_spawn sid env sp in
  let c := next_id (sp_state sp) in
  let t := S c in
  ephemeral_sessions st' = ephemeral_sessions (sp_state sp) ∧
  heap st' =
    alter (fun s => set_thread (Some t)
                      (set_temp_file (Some (sp_code_path sp)) (set_child (Some c) s)))
          (sp_obj sp) (heap (sp_state sp)) ∧
  alive st' = {[c]} ∪ alive (sp_state sp) ∧
  dirs st' = dirs (sp_state sp) ∧
  threads st' = <[t := Pump sid (sp_obj sp) c]> (threads (sp_state sp)) ∧
  log st' = log (sp_state sp) ++
            [Spawned (sp_shell_cmd sp) c; ThreadStart t; Emit session_started sid].
Proof.
  intros He. unfold start_session_spawn. rewrite He. simpl.
  rewrite <- !app_assoc. repeat split.
  apply map_eq. intros i. destruct (decide (i = sp_obj sp)) as [->|Hne].
  - rewrite !lookup_alter_eq. by destruct (heap (sp_state sp) !! sp_obj sp).
  - by rewrite !lookup_alter_ne.
Qed.

End Start.

(** The sibling path of the one below: a failed spawn of a language other
    than [sql] removes the workspace it had made. *)
Lemma spawn_failure_removes_workspace sid data env st e :
  accepted data = true →
  String.eqb (request_language data) "sql" = false →
  spawn_error env = Some e →
  isdir (mkdtemp_path env) (start_session sid data env st) = false ∧
  ephemeral_sessions (start_session sid data env st) !! sid = None.
Proof.
  intros Ha Hsql He.
  destruct (setup_accepted sid data env st Ha)
    as (sp & s_new & prefix & l & Hsp & _ & Htmp & Hq & _).
  unfold start_session. rewrite Hsp.
  destruct (spawn_failed sid env sp e He) as (Ht & _ & _ & Hd & _).
  rewrite Hq, Hsql, Htmp in Hd.
  split.
  - unfold isdir. rewrite Hd. apply andb_false_iff. right.
    apply bool_decide_eq_false. set_solver.
  - rewrite Ht. apply lookup_delete_eq.
Qed.

(** A failed spawn in the [sql] branch leaves the workspace in place. *)
Lemma sql_spawn_failure_leaves_workspace sid data env st e :
  accepted data = true →
  String.eqb (request_language data) "sql" = true →
  spawn_error env = Some e →
  Py.truthy (mkdtemp_path env) = true →
  isdir (mkdtemp_path env) (start_session sid data env st) = true ∧
  ephemeral_sessions (start_session sid data env st) !! sid = None.
Proof.
  intros Ha Hsql He Hp.
  destruct (setup_accepted sid data env st Ha)
    as (sp & s_new & prefix & l & Hsp & _ & Htmp & Hq & _ & _ & _ & _ & _ & Hdirs & _).
  unfold start_session. rewrite Hsp.
  destruct (spawn_failed sid env sp e He) as (Ht & _ & _ & Hd & _).
  rewrite Hq, Hsql in Hd.
  split.
  - unfold isdir. rewrite Hd, Hdirs, Hp. simpl.
    apply bool_decide_eq_true. set_solver.
  - rewrite Ht. apply lookup_delete_eq.
Qed.

(** C2: a [sql] start request whose spawn fails.  The error is reported
    and no session stays registered, but the workspace made for the
    request is still on disk and no [rmtree] was called: the log is
    exactly the four calls below. *)
Theorem sql_spawn_failure_at_input :
  let st' := start_session "s1" Demo.sql_one Demo.env_fail Demo.st0 in
  log st' =
    [Mkdtemp "sql_session_" "/tmp/sql_session_cd34";
     WriteFile "/tmp/sql_session_cd34/user_code.sql" "select 1;";
     SpawnFailed
       "cd /tmp/sql_session_cd34 && env TERM=dumb sqlite3 ephemeral.db < user_code.sql"
       "out of pty devices";
     Emit (session_error "out of pty devices") "s1"] ∧
  ephemeral_sessions st' !! "s1" = None ∧
  isdir "/tmp/sql_session_cd34" st' = true.
Proof. vm_compute. repeat split. Qed.

(** C3, as stated, fails: when the handler reaches [pexpect.spawn] the new
    session is already in the table. *)
Lemma unregistered_at_spawn_counterexample :
  ¬ unregistered_at_spawn "s1" Demo.python_hi Demo.env_ok Demo.st0.
Proof.
  intros H. specialize (H Demo.at_spawn).
  vm_compute in H. specialize (H eq_refl). discriminate H.
Qed.

(** C3, amended: the session is put in the table before the spawn, with
    no child; when the spawn fails the entry is removed before the handler
    returns, and when it succeeds the entry stays and the session has a
    live child.  So once the handler has returned, the table holds the new
    session only if the spawn succeeded. *)
Theorem registered_before_spawn_removed_on_failure (sid : string) (data : start_data)
    (env : start_env) (st : state) (sp : spawn_point) :
  start_session_setup sid data env st = inr sp →
  let st' := start_session sid data env st in
  (∃ s, get_session sid (sp_state sp) = Some (sp_obj sp, s) ∧
        child s = None ∧ closing s = false) ∧
  (∀ e, spawn_error env = Some e → ephemeral_sessions st' !! sid = None) ∧
  (spawn_error env = None →
   ∃ s c, get_session sid st' = Some (sp_obj sp, s) ∧
          child s = Some c ∧ closing s = false ∧ isalive c st' = true).
Proof.
  intros Hsp st'. subst st'.
  pose proof (setup_inr sid data env st sp Hsp) as Ha.
  destruct (setup_accepted sid data env st Ha)
    as (sp' & s_new & prefix & l & Hsp' & Hobj & _ & _ & Htab & Hheap & Hch & Hcl & _).
  assert (sp' = sp) as -> by congruence.
  assert (Hg : get_session sid (sp_state sp) = Some (sp_obj sp, s_new)).
  { apply get_session_Some. rewrite Htab, Hheap, Hobj.
    by rewrite !lookup_insert_eq. }
  unfold start_session. rewrite Hsp.
  split; [eauto|]. split.
  - intros e He. destruct (spawn_failed sid env sp e He) as (Ht & _).
    rewrite Ht. apply lookup_delete_eq.
  - intros He.
    destruct (spawn_succeeded sid env sp He) as (Ht & Hh & Hal & _).
    apply get_session_Some in Hg as [Hg1 Hg2].
    eexists _, (next_id (sp_state sp)). split; [|split; [|split]].
    + apply get_session_Some. rewrite Ht, Hh. split; [exact Hg1|].
      rewrite lookup_alter_eq, Hg2. reflexivity.
    + reflexivity.
    + exact Hcl.
    + unfold isalive. rewrite Hal. apply bool_decide_eq_true. set_solver.
Qed.

Lemma registered_before_spawn_removed_on_failure_witness :
  (∃ s, get_session "s1" (sp_state Demo.at_spawn) = Some (0, s) ∧
        child s = None ∧ closing s = false) ∧
  (∃ s c, get_session "s1" (start_session "s1" Demo.python_hi Demo.env_ok Demo.st0)
            = Some (0, s) ∧
          child s = Some c ∧ closing s = false ∧
          isalive c (start_session "s1" Demo.python_hi Demo.env_ok Demo.st0) = true) ∧
  ephemeral_sessions (start_session "s1" Demo.sql_one Demo.env_fail Demo.st0) !! "s1" = None.
Proof.
  pose proof (registered_before_spawn_removed_on_failure
                "s1" Demo.python_hi Demo.env_ok Demo.st0 Demo.at_spawn) as Hok.
  pose proof (registered_before_spawn_removed_on_failure
                "s1" Demo.sql_one Demo.env_fail Demo.st0 Demo.at_spawn_sql) as Hfail.
  cbv zeta in Hok, Hfail.
  destruct Hok as (H1 & _ & H2); [vm_compute; reflexivity|].
  destruct Hfail as (_ & H3 & _); [vm_compute; reflexivity|].
  split; [exact H1|]. split; [apply H2; reflexivity|].
  apply (H3 "out of pty devices"%string). reflexivity.
Defined.

(** C8: a start request for a socket id that has a live session.  A
    request that fails the checks creates nothing.  Any other request first
    runs the cleanup: in the state it leaves, the old child is dead, the
    old workspaces are gone, the old object is cleared and the table has no
    entry for the socket id.  The new session object, the new workspace and
    the new process are all created from that state, and every call of the
    teardown comes before the first call of the creation in the log. *)
Theorem stale_session_torn_down_before_start (sid : string) (data : start_data)
    (env : start_env) (st : state) (a : nat) (s : session) :
  get_session sid st = Some (a, s) →
  closing s = false →
  let mid := cleanup_ephemeral_session sid st in
  let st' := start_session sid data env st in
  (accepted data = false →
     same_world st st' ∧ ∃ msg, log st' = log st ++ [Emit (session_error msg) sid]) ∧
  (accepted data = true →
     (∀ c, child s = Some c →
           isalive c mid = false ∧ (isalive c st = true → Terminate c ∈ teardown s st)) ∧
     (∀ d, temp_dir s = Some d ∨ sql_temp_dir s = Some d →
           isdir d mid = false ∧ (isdir d st = true → Rmtree d ∈ teardown s st)) ∧
     heap mid !! a = Some cleared ∧
     ephemeral_sessions mid !! sid = None ∧
     st' = start_session sid data env mid ∧
     ∃ sp s_new prefix l,
       start_session_setup sid data env st = inr sp ∧
       st' = start_session_spawn sid env sp ∧
       ephemeral_sessions (sp_state sp) = <[sid := sp_obj sp]> (ephemeral_sessions mid) ∧
       heap (sp_state sp) = <[sp_obj sp := s_new]> (heap mid) ∧
       alive (sp_state sp) = alive mid ∧
       dirs (sp_state sp) = {[mkdtemp_path env]} ∪ dirs mid ∧
       log (sp_state sp) =
         log st ++ teardown s st ++ Mkdtemp prefix (mkdtemp_path env) :: l ∧
       Forall is_file_setup l).
Proof.
  intros Hget Hopen mid st'. subst mid st'. split.
  - intros Ha. destruct (setup_rejected sid data env st Ha) as [msg Hm].
    unfold start_session. rewrite Hm. split; [apply same_world_record | eauto].
  - intros Ha.
    destruct (teardown_complete sid st a s Hget Hopen) as (Hk & Hd & Hh & Ht & Hl).
    repeat (split; [assumption|]).
    split; [by apply start_after_cleanup|].
    destruct (setup_accepted sid data env st Ha)
      as (sp & s_new & prefix & l & Hsp & Hobj & _ & _ & Htab & Hheap & _ & _
          & Hal & Hdirs & _ & _ & Hlog & Hfs).
    exists sp, s_new, prefix, l.
    split; [exact Hsp|]. split; [unfold start_session; by rewrite Hsp|].
    rewrite Hobj. repeat (split; [assumption|]).
    split; [|exact Hfs]. rewrite Hlog, Hl, <- app_assoc. reflexivity.
Qed.

Lemma stale_session_torn_down_before_start_witness :
  let mid := cleanup_ephemeral_session "s1" Demo.running in
  (isalive 1 mid = false ∧ Terminate 1 ∈ teardown Demo.running_session Demo.running) ∧
  isdir "/tmp/user_session_ab12" mid = false ∧
  ephemeral_sessions mid !! "s1" = None ∧
  start_session "s1" Demo.python_hi Demo.env_again Demo.running =
    start_session "s1" Demo.python_hi Demo.env_again mid ∧
  same_world Demo.running (start_session "s1" Demo.blank Demo.env_again Demo.running).
Proof.
  pose proof (stale_session_torn_down_before_start
                "s1" Demo.python_hi Demo.env_again Demo.running 0 Demo.running_session)
    as Hok.
  pose proof (stale_session_torn_down_before_start
                "s1" Demo.blank Demo.env_again Demo.running 0 Demo.running_session)
    as Hrej.
  cbv zeta in Hok, Hrej.
  destruct Hok as (_ & Hok); [vm_compute; reflexivity | reflexivity |].
  destruct Hrej as (Hrej & _); [vm_compute; reflexivity | reflexivity |].
  destruct Hok as (Hk & Hd & _ & Ht & Heq & _); [reflexivity|].
  destruct Hrej as (Hw & _); [reflexivity|].
  intros mid. subst mid.
  split.
  { destruct (Hk 1 eq_refl) as [Hk1 Hk2]. split; [exact Hk1|].
    apply Hk2. vm_compute. reflexivity. }
  split; [apply (Hd "/tmp/user_session_ab12"%string); left; reflexivity|].
  split; [exact Ht|]. split; [exact Heq | exact Hw].
Defined.

(** ** Artifacts: resizing *)

Lemma round_aspect_bounds (num den m : Z) (key_le : Z → Z → bool) :
  (0 < num)%Z → (0 < den)%Z → (num <= m * den)%Z →
  let r := PIL.round_aspect num den key_le in
  (1 <= r)%Z ∧ (r <= m)%Z ∧ (Z.abs (r * den - num) < den)%Z.
Proof.
  intros Hnum Hden Hm. unfold PIL.round_aspect.
  pose proof (Z.div_mod num den ltac:(lia)) as Hdm.
  pose proof (Z.mod_pos_bound num den Hden) as Hmod.
  set (f := (num / den)%Z) in *. set (md := (num mod den)%Z) in *.
  assert (0 <= f)%Z by (apply Z.div_pos; lia).
  destruct (Z.eqb_spec md 0) as [E|E]; destruct (key_le _ _); nia.
Qed.

Lemma thumbnail_fits (im : image) :
  (0 < width im)%Z → (0 < height im)%Z →
  (800 < width im ∨ 800 < height im)%Z →
  let r := PIL.thumbnail (800, 800)%Z im in
  Z.max (width r) (height r) = 800%Z ∧
  (0 < width r)%Z ∧ (0 < height r)%Z ∧
  (Z.abs (width r * height im - height r * width im) < Z.max (width im) (height im))%Z.
Proof.
  intros Hw Hh Hbig. unfold PIL.thumbnail.
  destruct (_ && _) eqn:Hfit.
  { apply andb_true_iff in Hfit as [H1 H2]. lia. }
  clear Hfit.
  destruct (Z.geb_spec (800 * height im) (width im * 800)) as [Hc|Hc]; simpl.
  - match goal with |- context [PIL.round_aspect ?n ?d ?k] =>
      pose proof (round_aspect_bounds n d 800 k ltac:(lia) Hh ltac:(lia)) as (H1 & H2 & H3);
      set (r := PIL.round_aspect n d k) in *
    end.
    lia.
  - match goal with |- context [PIL.round_aspect ?n ?d ?k] =>
      pose proof (round_aspect_bounds n d 800 k ltac:(lia) Hw ltac:(lia)) as (H1 & H2 & H3);
      set (r := PIL.round_aspect n d k) in *
    end.
    lia.
Qed.

(** C9: with Pillow available, the image sent for a readable file is the
    PNG of an image [r].  When a side of the file's image is over 800
    pixels, the longest side of [r] is 800 and the aspect ratio is the old
    one up to the rounding of the other side to a whole pixel; when both
    sides are at most 800 (for instance 200 by 150), [r] is the image
    itself. *)
Theorem artifact_image_resized (sid filepath : string) (im : image) (bytes : string)
    (st : state) (a : nat) (s : session) :
  get_session sid st = Some (a, s) →
  PIL_ENABLED st = true →
  (0 < width im)%Z → (0 < height im)%Z →
  ∃ r, log (handle_plot_file sid filepath (Readable im bytes) st) =
         log st ++ [Emit (plot_image (OsPath.basename filepath) (Png r)) sid] ∧
       ((800 < width im ∨ 800 < height im)%Z →
          Z.max (width r) (height r) = 800%Z ∧
          (0 < width r)%Z ∧ (0 < height r)%Z ∧
          (Z.abs (width r * height im - height r * width im)
             < Z.max (width im) (height im))%Z) ∧
       ((width im <= 800)%Z → (height im <= 800)%Z → r = im).
Proof.
  intros Hget Hpil Hw Hh.
  unfold handle_plot_file. rewrite Hget. simpl. rewrite Hpil.
  unfold load_image.
  eexists. split; [reflexivity|]. split.
  - intros Hbig.
    assert ((width im >? 800)%Z || (height im >? 800)%Z = true) as ->.
    { apply orb_true_iff. destruct Hbig; [left | right]; lia. }
    by apply thumbnail_fits.
  - intros H1 H2.
    assert ((width im >? 800)%Z || (height im >? 800)%Z = false) as ->.
    { apply orb_false_iff. split; lia. }
    reflexivity.
Qed.

Lemma artifact_image_resized_witness :
  (∃ r, log (handle_plot_file "s1" "/tmp/user_session_ab12/plot.png"
               (Readable (Image 1000 1200) "") Demo.running) =
          log Demo.running ++
          [Emit (plot_image (OsPath.basename "/tmp/user_session_ab12/plot.png") (Png r))
                "s1"] ∧
        Z.max (width r) (height r) = 800%Z) ∧
  log (handle_plot_file "s1" "/tmp/user_session_ab12/small.png"
         (Readable (Image 200 150) "") Demo.running) =
    log Demo.running ++
    [Emit (plot_image (OsPath.basename "/tmp/user_session_ab12/small.png")
                      (Png (Image 200 150))) "s1"].
Proof.
  split.
  - destruct (artifact_image_resized "s1" "/tmp/user_session_ab12/plot.png"
                (Image 1000 1200) "" Demo.running 0 Demo.running_session)
      as (r & Hlog & Hbig & _);
      [vm_compute; reflexivity | reflexivity | reflexivity | reflexivity |].
    exists r. split; [exact Hlog|]. apply Hbig. right. reflexivity.
  - destruct (artifact_image_resized "s1" "/tmp/user_session_ab12/small.png"
                (Image 200 150) "" Demo.running 0 Demo.running_session)
      as (r & Hlog & _ & Hsmall);
      [vm_compute; reflexivity | reflexivity | reflexivity | reflexivity |].
    rewrite Hlog, Hsmall; [reflexivity | discriminate | discriminate].
Defined.

(** The sizes of the two images named in the specification. *)
Example thumbnail_1000_1200 :
  PIL.thumbnail (800, 800)%Z (Image 1000 1200) = Image 667 800.
Proof. reflexivity. Qed.

Example thumbnail_200_150 :
  load_image true (Image 200 150) "" = Png (Image 200 150).
Proof. reflexivity. Qed.

(** ** Paths *)

Section Paths.

Local Open Scope string_scope.

Lemma split_last_free t : slash_free t = true → OsPath.split_last t = ("", t).
Proof.
  induction t as [|c t IH]; [done|].
  cbn [slash_free OsPath.split_last].
  intros [Hc Ht]%andb_true_iff. rewrite (IH Ht).
  by destruct (Ascii.eqb c "/").
Qed.

Lemma split_last_no_head x :
  fst (OsPath.split_last x) = "" → snd (OsPath.split_last x) = x.
Proof.
  induction x as [|c x IH]; [done|].
  cbn [OsPath.split_last].
  destruct (OsPath.split_last x) as [[|h0 h] t] eqn:E; cbn [fst snd] in *.
  - destruct (Ascii.eqb c "/"); [discriminate | done].
  - discriminate.
Qed.

Lemma split_last_app x t :
  slash_free t = true →
  OsPath.split_last (x ++ t) =
  (fst (OsPath.split_last x), snd (OsPath.split_last x) ++ t).
Proof.
  intros Ht. induction x as [|c x IH].
  - change (OsPath.split_last t = ("", t)). by apply split_last_free.
  - change (String c x ++ t) with (String c (x ++ t)).
    cbn [OsPath.split_last]. rewrite IH.
    pose proof (split_last_no_head x) as Hx.
    destruct (OsPath.split_last x) as [[|h0 h] tl]; cbn [fst snd] in *.
    + clear. by destruct (Ascii.eqb c "/").
    + done.
Qed.

Lemma split_last_slash x :
  OsPath.ends_with_slash x = true → snd (OsPath.split_last x) = "".
Proof.
  induction x as [|c x IH]; [done|].
  cbn [OsPath.ends_with_slash OsPath.split_last].
  destruct x as [|c' x'].
  - intros ->. done.
  - intros H. specialize (IH H).
    destruct (OsPath.split_last (String c' x')) as [[|h0 h] tl] eqn:E;
      cbn [fst snd] in *; [|done].
    pose proof (split_last_no_head (String c' x')) as Hx.
    rewrite E in Hx. cbn [fst snd] in Hx. specialize (Hx eq_refl). congruence.
Qed.

Lemma ends_with_slash_app x :
  OsPath.ends_with_slash (x ++ "/") = true.
Proof.
  induction x as [|c x IH]; [done|].
  change (String c x ++ "/") with (String c (x ++ "/")).
  cbn [OsPath.ends_with_slash].
  destruct (x ++ "/") eqn:E; [by destruct x | exact IH].
Qed.

Lemma append_assoc x y z : (x ++ y) ++ z = x ++ y ++ z.
Proof.
  induction x as [|c x IH]; [done|].
  change (String c ((x ++ y) ++ z) = String c (x ++ y ++ z)). by rewrite IH.
Qed.

Lemma join_prefix_tail a : snd (OsPath.split_last (join_prefix a)) = "".
Proof.
  unfold join_prefix. destruct a as [|c a]; [done|]. cbn [Py.truthy negb orb].
  destruct (OsPath.ends_with_slash (String c a)) eqn:E.
  - by apply split_last_slash.
  - apply split_last_slash, ends_with_slash_app.
Qed.

Lemma join_free a p :
  slash_free p = true → OsPath.join a p = join_prefix a ++ p.
Proof.
  intros Hp. unfold OsPath.join, join_prefix.
  assert (Hgen : (if negb (Py.truthy a) || OsPath.ends_with_slash a
                  then a ++ p else a ++ "/" ++ p) =
                 (if negb (Py.truthy a) || OsPath.ends_with_slash a
                  then a else a ++ "/") ++ p).
  { destruct (negb (Py.truthy a) || OsPath.ends_with_slash a); [done|].
    by rewrite append_assoc. }
  destruct p as [|c p]; [exact Hgen|].
  cbn [slash_free] in Hp. apply andb_true_iff in Hp as [Hc _].
  destruct c as [[] [] [] [] [] [] [] []]; try exact Hgen. discriminate Hc.
Qed.

Lemma basename_join a p : slash_free p = true → OsPath.basename (OsPath.join a p) = p.
Proof.
  intros Hp. unfold OsPath.basename.
  rewrite (join_free a p Hp), (split_last_app _ p Hp), join_prefix_tail. done.
Qed.

Lemma dirname_join a p :
  slash_free p = true → OsPath.dirname (OsPath.join a p) = scan_dir a.
Proof.
  intros Hp. unfold scan_dir, OsPath.dirname.
  rewrite (join_free a p Hp), (join_free a "*.png" eq_refl).
  by rewrite !split_last_app.
Qed.

Lemma append_inj_r x n1 n2 : x ++ n1 = x ++ n2 → n1 = n2.
Proof. induction x as [|c x IH]; [done|]. intros [= H]. by apply IH. Qed.

Lemma join_inj a n1 n2 :
  slash_free n1 = true → slash_free n2 = true →
  OsPath.join a n1 = OsPath.join a n2 → n1 = n2.
Proof.
  intros H1 H2. rewrite (join_free a n1 H1), (join_free a n2 H2).
  apply append_inj_r.
Qed.

End Paths.

(** ** Artifacts: each file at most once *)

Lemma plot_count_snoc sid name l e :
  plot_count sid name (l ++ [e]) =
  plot_count sid name l + (if is_plot sid name e then 1 else 0).
Proof.
  unfold plot_count. rewrite List.filter_app, length_app. simpl.
  by destruct (is_plot sid name e).
Qed.

Section Scan.

Variables (sid : string) (a : nat) (d : string) (sent0 : gset string)
          (log0 : list effect).

Local Abbreviation inv := (scan_inv sid a d sent0 log0).

Lemma scan_inv_record e st :
  (∀ name, is_plot sid name e = false) → inv st → inv (record e st).
Proof.
  intros He (s & new & Ht & Hh & Hd & Hsub & Hlog & Hcount).
  exists s, (new ++ [e]). repeat (split; [done|]). split.
  - simpl. by rewrite Hlog, app_assoc.
  - intros name. rewrite plot_count_snoc, He, Nat.add_0_r. apply Hcount.
Qed.

Lemma scan_inv_handle m obs st :
  slash_free m = true →
  is_sent a (OsPath.join (scan_dir d) m) st = false →
  inv st → inv (handle_plot_file sid (OsPath.join (scan_dir d) m) obs st).
Proof.
  intros Hm Hns Hinv.
  pose proof Hinv as (s & new & Ht & Hh & Hd & Hsub & Hlog & Hcount).
  unfold handle_plot_file.
  rewrite (proj2 (get_session_Some sid st a s) (conj Ht Hh)).
  destruct obs as [|e|im bytes].
  - by apply scan_inv_record.
  - by apply scan_inv_record.
  - unfold is_sent in Hns. rewrite Hh in Hns. apply bool_decide_eq_false in Hns.
    eexists _, (new ++ [_]). split; [exact Ht|]. split.
    { simpl. rewrite lookup_alter_eq, Hh. reflexivity. }
    split; [exact Hd|]. split; [simpl; set_solver|]. split.
    { simpl. by rewrite Hlog, app_assoc. }
    intros name. rewrite plot_count_snoc. simpl.
    rewrite (basename_join _ m Hm), String.eqb_refl, andb_true_r.
    destruct (String.eqb_spec m name) as [<-|Hne].
    + right. destruct (Hcount m) as [H0 | (_ & Hin & _)]; [|done].
      rewrite H0. split; [done|]. split; set_solver.
    + rewrite Nat.add_0_r.
      destruct (Hcount name) as [H0 | (H1 & Hin & Hnin)]; [by left|].
      right. split; [done|]. split; [set_solver | done].
Qed.

Lemma scan_inv_paths probe ms st :
  Forall (λ m, slash_free m = true) ms →
  inv st → inv (scan_paths sid a probe (map (OsPath.join (scan_dir d)) ms) st).
Proof.
  intros Hms. revert st. unfold scan_paths.
  induction Hms as [|m ms Hm _ IH]; intros st Hinv; [done|].
  simpl. apply IH.
  destruct (is_sent a _ st) eqn:E; [done|]. by apply scan_inv_handle.
Qed.

Lemma scan_inv_glob probe pat entries st :
  slash_free pat = true →
  Forall (λ m, slash_free m = true) entries →
  inv st →
  inv (scan_paths sid a probe (Glob.glob (OsPath.join d pat) entries)
         (record (Glob (OsPath.join d pat)) st)).
Proof.
  intros Hpat Hentries Hinv. unfold Glob.glob.
  rewrite (dirname_join d pat Hpat).
  apply scan_inv_paths.
  - apply List.Forall_forall. intros m Hin.
    apply list_elem_of_In, list_elem_of_filter in Hin as [_ Hin].
    by apply (proj1 (Forall_forall _ _) Hentries).
  - by apply scan_inv_record.
Qed.

Lemma scan_inv_scan listing probe st :
  (∀ pat, Forall (λ m, slash_free m = true) (listing pat)) →
  inv st → inv (scan_for_new_images sid listing probe st).
Proof.
  intros Hl Hinv.
  pose proof Hinv as (s & new & Ht & Hh & Hd & _).
  unfold scan_for_new_images.
  rewrite (proj2 (get_session_Some sid st a s) (conj Ht Hh)), Hd.
  destruct (_ || _); [done|].
  unfold patterns. cbn [fold_left].
  repeat (apply scan_inv_glob; [reflexivity | apply Hl |]). done.
Qed.

Lemma scan_inv_many runs st :
  Forall (λ r, ∀ pat, Forall (λ m, slash_free m = true) (fst r pat)) runs →
  inv st → inv (scan_many sid runs st).
Proof.
  intros Hruns. revert st. unfold scan_many.
  induction Hruns as [|r runs Hr _ IH]; intros st Hinv; [done|].
  simpl. apply IH. by apply scan_inv_scan.
Qed.

End Scan.

Lemma scan_inv_init sid a s d st :
  get_session sid st = Some (a, s) → temp_dir s = Some d →
  scan_inv sid a d (sent_images s) (log st) st.
Proof.
  intros [Ht Hh]%get_session_Some Hd.
  exists s, []. repeat (split; [done|]). split; [by rewrite app_nil_r|].
  intros name. by left.
Qed.

Lemma scan_paths_all_sent sid a probe paths st s :
  heap st !! a = Some s →
  Forall (λ p, p ∈ sent_images s) paths →
  scan_paths sid a probe paths st = st.
Proof.
  intros Hh Hall. unfold scan_paths.
  induction Hall as [|p paths Hp _ IH]; [done|].
  simpl. unfold is_sent at 2. rewrite Hh, bool_decide_eq_true_2 by done. exact IH.
Qed.

(** C7: scans of a session's workspace, any number of them, each seeing
    whatever the directory then holds, send a [plot_image] event for a given
    file name at most once, and never for a path that was already in the
    sent set (such paths are skipped without any call).  One call of
    [handle_plot_file] marks the path sent exactly when it has emitted the
    [plot_image] event, which comes first; for a file that does not exist it
    emits the not-found error and changes nothing else. *)
Theorem artifact_sent_at_most_once (sid : string) (st : state) (a : nat) (s : session)
    (d : string) (runs : list ((string → list string) * (string → file_obs)))
    (name path : string) (probe : string → file_obs) (paths : list string) :
  get_session sid st = Some (a, s) →
  temp_dir s = Some d →
  Forall (λ r, ∀ pat, Forall (λ m, slash_free m = true) (fst r pat)) runs →
  (∃ new, log (scan_many sid runs st) = log st ++ new ∧
          (plot_count sid name new <= 1)%nat ∧
          (OsPath.join (scan_dir d) name ∈ sent_images s → plot_count sid name new = 0)) ∧
  (Forall (λ p, p ∈ sent_images s) paths → scan_paths sid a probe paths st = st) ∧
  (∀ im bytes,
     let st2 := handle_plot_file sid path (Readable im bytes) st in
     log st2 = log st ++ [Emit (plot_image (OsPath.basename path)
                                           (load_image (PIL_ENABLED st) im bytes)) sid] ∧
     heap st2 !! a = Some (set_sent_images ({[path]} ∪ sent_images s) s)) ∧
  (let st2 := handle_plot_file sid path Missing st in
   log st2 = log st ++ [Emit (session_error ("Plot file not found: " ++ path)%string) sid] ∧
   same_world st st2) ∧
  (∀ e,
     let st2 := handle_plot_file sid path (Unreadable e) st in
     log st2 = log st ++ [Emit (session_error ("Could not handle plot file " ++ path
                                               ++ ": " ++ e)%string) sid] ∧
     same_world st st2).
Proof.
  intros Hget Hd Hruns.
  pose proof (proj1 (get_session_Some sid st a s) Hget) as [Ht Hh].
  split; [|split; [|split; [|split]]].
  - destruct (scan_inv_many sid a d (sent_images s) (log st) runs st Hruns
                (scan_inv_init sid a s d st Hget Hd))
      as (s' & new & _ & _ & _ & _ & Hlog & Hcount).
    exists new. split; [exact Hlog|].
    destruct (Hcount name) as [H0 | (H1 & _ & Hnin)].
    + rewrite H0. split; [lia | done].
    + rewrite H1. split; [lia | done].
  - by apply scan_paths_all_sent.
  - intros im bytes. unfold handle_plot_file. rewrite Hget. simpl.
    split; [reflexivity|]. by rewrite lookup_alter_eq, Hh.
  - unfold handle_plot_file. rewrite Hget.
    split; [reflexivity | apply same_world_record].
  - intros e. unfold handle_plot_file. rewrite Hget.
    split; [reflexivity | apply same_world_record].
Qed.

Lemma artifact_sent_at_most_once_witness :
  let st' := scan_many "s1" [(Demo.listing, Demo.probe); (Demo.listing, Demo.probe)]
                       Demo.running in
  (∃ new, log st' = log Demo.running ++ new ∧ (plot_count "s1" "plot.png" new <= 1)%nat) ∧
  plot_count "s1" "plot.png" (log st') = 1.
Proof.
  intros st'. split; [|vm_compute; reflexivity].
  destruct (artifact_sent_at_most_once "s1" Demo.running 0 Demo.running_session
              "/tmp/user_session_ab12"
              [(Demo.listing, Demo.probe); (Demo.listing, Demo.probe)]
              "plot.png" "/tmp/user_session_ab12/plot.png" Demo.probe [])
    as ((new & Hlog & Hle & _) & _).
  - vm_compute. reflexivity.
  - reflexivity.
  - repeat constructor.
  - exists new. split; [exact Hlog | exact Hle].
Defined.

(** ** The output thread *)

Lemma ended_count_app sid l1 l2 :
  ended_count sid (l1 ++ l2) = ended_count sid l1 + ended_count sid l2.
Proof. apply count_occ_app. Qed.

Lemma ended_count_no_ended sid l : no_ended l → ended_count sid l = 0.
Proof.
  unfold no_ended, ended_count. induction 1 as [|e l He _ IH]; [done|].
  rewrite count_occ_cons_neq; [exact IH | apply He].
Qed.

Lemma ended_count_one sid : ended_count sid [Emit process_ended sid] = 1.
Proof. unfold ended_count. by rewrite count_occ_cons_eq. Qed.

Lemma no_ended_app l1 l2 : no_ended l1 → no_ended l2 → no_ended (l1 ++ l2).
Proof. apply Forall_app_2. Qed.

Lemma no_ended_teardown s st : no_ended (teardown s st).
Proof.
  unfold teardown, kills, removals.
  repeat apply no_ended_app; repeat case_match; repeat constructor; discriminate.
Qed.

Lemma no_ended_drained p leftover : no_ended (drained p leftover).
Proof.
  unfold drained. repeat case_match; repeat constructor; discriminate.
Qed.

Ltac solve_no_ended :=
  repeat first
    [ assumption
    | apply List.Forall_nil
    | apply no_ended_teardown
    | apply no_ended_drained
    | apply no_ended_app
    | apply Forall_app_2
    | apply List.Forall_cons; [by intros ? ?|] ].

Section Steady.

Variables (sid : string) (a : nat) (cl : bool) (log0 : list effect).

Lemma steady_record e st :
  (∀ room, e ≠ Emit process_ended room) →
  steady sid a cl log0 st → steady sid a cl log0 (record e st).
Proof.
  intros He (s & l & Ht & Hh & Hc & Hl & Hn).
  exists s, (l ++ [e]). repeat (split; [done|]). split.
  - simpl. by rewrite Hl, app_assoc.
  - apply no_ended_app; [done | by constructor].
Qed.

Lemma steady_handle path obs st :
  steady sid a cl log0 st → steady sid a cl log0 (handle_plot_file sid path obs st).
Proof.
  intros Hst. pose proof Hst as (s & l & Ht & Hh & Hc & Hl & Hn).
  unfold handle_plot_file.
  rewrite (proj2 (get_session_Some sid st a s) (conj Ht Hh)).
  destruct obs as [|e|im bytes]; [by apply steady_record..|].
  eexists _, (l ++ [_]). split; [exact Ht|]. split.
  { simpl. rewrite lookup_alter_eq, Hh. reflexivity. }
  split; [exact Hc|]. split.
  - simpl. by rewrite Hl, app_assoc.
  - apply no_ended_app; [done | by constructor].
Qed.

Lemma steady_paths probe paths st :
  steady sid a cl log0 st → steady sid a cl log0 (scan_paths sid a probe paths st).
Proof.
  revert st. unfold scan_paths.
  induction paths as [|path paths IH]; intros st Hst; [done|].
  simpl. apply IH. destruct (is_sent a path st); [done|]. by apply steady_handle.
Qed.

Lemma steady_scan listing probe st :
  steady sid a cl log0 st →
  steady sid a cl log0 (scan_for_new_images sid listing probe st).
Proof.
  intros Hst. pose proof Hst as (s & l & Ht & Hh & _).
  unfold scan_for_new_images.
  rewrite (proj2 (get_session_Some sid st a s) (conj Ht Hh)).
  destruct (temp_dir s) as [tmp_dir|]; [|done].
  destruct (_ || _); [done|].
  unfold patterns. cbn [fold_left].
  repeat (apply steady_paths; apply steady_record; [done|]). done.
Qed.

End Steady.

Lemma steady_init sid a s st :
  get_session sid st = Some (a, s) → steady sid a (closing s) (log st) st.
Proof.
  intros [Ht Hh]%get_session_Some. exists s, [].
  repeat (split; [done|]). split; [by rewrite app_nil_r | constructor].
Qed.

Section Pump.

Variable p : pump.

(** The loop touches neither the table nor the session objects nor the
    directories, and logs no [process_ended]. *)
Lemma pump_loop_frame polls st :
  let st1 := loop_state (pump_loop p polls st) in
  ephemeral_sessions st1 = ephemeral_sessions st ∧ heap st1 = heap st ∧
  dirs st1 = dirs st ∧
  ∃ l, log st1 = log st ++ l ∧ no_ended l.
Proof.
  assert (Hsame : ∀ st,
            ephemeral_sessions st = ephemeral_sessions st ∧ heap st = heap st ∧
            dirs st = dirs st ∧ ∃ l, log st = log st ++ l ∧ no_ended l).
  { intros st'. repeat (split; [reflexivity|]). exists [].
    split; [by rewrite app_nil_r | constructor]. }
  revert st. induction polls as [|o polls IH]; intros st; cbn [pump_loop].
  - destruct (obj_closing p st); [apply Hsame|].
    destruct (negb (isalive (p_child p) st)); apply Hsame.
  - destruct (obj_closing p st); [apply Hsame|].
    destruct (negb (isalive (p_child p) st)); [apply Hsame|].
    destruct o as [|t| | |e]; cbn [loop_state].
    + repeat (split; [done|]). exists []. split; [by rewrite app_nil_r | constructor].
    + specialize (IH (if Py.truthy t
                      then emit (python_output t) (p_sid p)
                             (record (ReadNonblocking (p_child p)) st)
                      else record (ReadNonblocking (p_child p)) st)).
      destruct IH as (H1 & H2 & H3 & l & Hl & Hn).
      destruct (Py.truthy t); simpl in *;
        (split; [done|]); (split; [done|]); (split; [done|]);
        eexists; (split; [rewrite Hl, <- ?app_assoc; reflexivity|]);
        solve_no_ended.
    + specialize (IH (record (ReadNonblocking (p_child p)) st)).
      destruct IH as (H1 & H2 & H3 & l & Hl & Hn). simpl in *.
      repeat (split; [done|]).
      eexists; (split; [rewrite Hl, <- ?app_assoc; reflexivity|]).
      solve_no_ended.
    + simpl. repeat (split; [done|]). eexists. split; [reflexivity|].
      solve_no_ended.
    + apply Hsame.
Qed.

Lemma pump_loop_closing polls st :
  obj_closing p st = true → pump_loop p polls st = LoopExit st.
Proof. intros H. destruct polls; cbn [pump_loop]; by rewrite H. Qed.

Lemma pump_loop_dead polls st :
  isalive (p_child p) st = false → pump_loop p polls st = LoopExit st.
Proof.
  intros H. destruct polls; cbn [pump_loop]; rewrite H;
    by destruct (obj_closing p st).
Qed.

Lemma obj_closing_heap st st' :
  heap st' = heap st → obj_closing p st' = obj_closing p st.
Proof. intros H. unfold obj_closing. by rewrite H. Qed.

(** Polls given in two parts. *)
Lemma pump_loop_app pre post st :
  pump_loop p (pre ++ post) st =
  match pump_loop p pre st with
  | Looping st0 => pump_loop p post st0
  | r => r
  end.
Proof.
  revert st. induction pre as [|o pre IH]; intros st.
  - change ([] ++ post) with post.
    destruct (obj_closing p st) eqn:Hc.
    { rewrite (pump_loop_closing post st Hc). cbn [pump_loop]. by rewrite Hc. }
    destruct (isalive (p_child p) st) eqn:Ha.
    + cbn [pump_loop]. by rewrite Hc, Ha.
    + rewrite (pump_loop_dead post st Ha). cbn [pump_loop]. by rewrite Hc, Ha.
  - change ((o :: pre) ++ post) with (o :: (pre ++ post)). cbn [pump_loop].
    destruct (obj_closing p st); [done|].
    destruct (negb (isalive (p_child p) st)); [done|].
    destruct o; try done; apply IH.
Qed.

Lemma pump_drain_open leftover st :
  obj_closing p st = false →
  log (pump_drain p leftover st) = log st ++ drained p leftover ∧
  same_world st (pump_drain p leftover st).
Proof.
  intros Hc. unfold pump_drain, drained. rewrite Hc.
  destruct leftover as [t|]; [destruct (Py.truthy t)|]; simpl;
    rewrite <- ?app_assoc; (split; [reflexivity|]);
    repeat (eapply same_world_trans; [|apply same_world_record]);
    apply same_world_refl.
Qed.

Lemma pump_drain_closing leftover st :
  obj_closing p st = true → pump_drain p leftover st = st.
Proof. intros Hc. unfold pump_drain. by rewrite Hc. Qed.

Lemma steady_frame cl log0 st st1 l :
  steady (p_sid p) (p_obj p) cl log0 st →
  ephemeral_sessions st1 = ephemeral_sessions st → heap st1 = heap st →
  log st1 = log st ++ l → no_ended l →
  steady (p_sid p) (p_obj p) cl log0 st1.
Proof.
  intros (s & l0 & Ht & Hh & Hc & Hl & Hn) Ht1 Hh1 Hl1 Hn1.
  exists s, (l0 ++ l). rewrite Ht1, Hh1, Hl1, Hl, app_assoc.
  repeat (split; [done|]). by apply no_ended_app.
Qed.

Lemma steady_obj_closing cl log0 st :
  steady (p_sid p) (p_obj p) cl log0 st → obj_closing p st = cl.
Proof. intros (s & l & _ & Hh & Hc & _). unfold obj_closing. by rewrite Hh. Qed.

(** The end of the thread on a session that is registered and open: one
    scan, one [process_ended], then a teardown that does its work. *)
Lemma pump_finish_steady log0 listing probe st :
  steady (p_sid p) (p_obj p) false log0 st →
  let st' := pump_finish p listing probe st in
  ephemeral_sessions st' !! p_sid p = None ∧
  heap st' !! p_obj p = Some cleared ∧
  ∃ l, log st' = log0 ++ l ∧ ended_count (p_sid p) l = 1.
Proof.
  intros Hst. unfold pump_finish.
  rewrite (steady_obj_closing false log0 st Hst).
  pose proof (steady_scan (p_sid p) (p_obj p) false log0 listing probe st Hst)
    as (s3 & l3 & Ht & Hh & Hc & Hl & Hn).
  set (st3 := scan_for_new_images (p_sid p) listing probe st) in *.
  assert (Hg : get_session (p_sid p) (emit process_ended (p_sid p) st3)
               = Some (p_obj p, s3)).
  { apply get_session_Some. by split. }
  split; [|split].
  - rewrite (cleanup_table _ _ _ _ Hg Hc). apply lookup_delete_eq.
  - rewrite (cleanup_heap _ _ _ _ Hg Hc). apply lookup_insert_eq.
  - rewrite (cleanup_log _ _ _ _ Hg Hc). simpl. rewrite Hl.
    exists (l3 ++ [Emit process_ended (p_sid p)]
               ++ teardown s3 (emit process_ended (p_sid p) st3)).
    split; [by rewrite <- !app_assoc|].
    rewrite !ended_count_app, (ended_count_no_ended _ l3 Hn),
      (ended_count_no_ended _ _
         (no_ended_teardown s3 (emit process_ended (p_sid p) st3))).
    by rewrite ended_count_one.
Qed.

(** Where the thread stands before its last step, the session it was
    started for is as it was, and no [process_ended] has been logged. *)
Lemma pump_advance_steady pc polls leftover st st0 s :
  get_session (p_sid p) st = Some (p_obj p, s) →
  pump_advance pc p polls leftover st = Some st0 →
  steady (p_sid p) (p_obj p) (closing s) (log st) st0 ∧
  get_session (p_sid p) st0 = Some (p_obj p, s) ∧ dirs st0 = dirs st.
Proof.
  intros Hget Hadv.
  pose proof (steady_init _ _ _ _ Hget) as Hst.
  pose proof (pump_loop_frame polls st) as (Ht & Hh & Hd & l & Hl & Hn).
  pose proof (proj1 (get_session_Some _ _ _ _) Hget) as [Hgt Hgh].
  unfold pump_advance in Hadv.
  destruct (pump_loop p polls st) as [st1|st1|e st1]; cbn [loop_state] in *;
    destruct pc; try discriminate; injection Hadv as <-.
  - split; [by eapply steady_frame|]. split; [|done].
    apply get_session_Some. by rewrite Ht, Hh.
  - split; [by eapply steady_frame|]. split; [|done].
    apply get_session_Some. by rewrite Ht, Hh.
  - assert (Hst1 : steady (p_sid p) (p_obj p) (closing s) (log st) st1)
      by (by eapply steady_frame).
    destruct (obj_closing p st1) eqn:Hc.
    + rewrite (pump_drain_closing leftover st1 Hc).
      split; [done|]. split; [|done]. apply get_session_Some. by rewrite Ht, Hh.
    + destruct (pump_drain_open leftover st1 Hc) as (Hl2 & Ht2 & Hh2 & _ & Hd2 & _).
      split; [|split].
      * eapply (steady_frame _ _ st1); [done..|]. apply no_ended_drained.
      * apply get_session_Some. by rewrite Ht2, Hh2, Ht, Hh.
      * congruence.
  - split; [|split; [|done]].
    + apply steady_record; [done|]. by eapply steady_frame.
    + apply get_session_Some. simpl. by rewrite Ht, Hh.
Qed.

End Pump.

(** A run of the thread to its end, on the session it was started for. *)
Lemma pump_natural p st s polls leftover listing probe st' :
  get_session (p_sid p) st = Some (p_obj p, s) →
  closing s = false →
  read_output p polls leftover listing probe st = Some st' →
  ephemeral_sessions st' !! p_sid p = None ∧
  heap st' !! p_obj p = Some cleared ∧
  ended_count (p_sid p) (log st') = ended_count (p_sid p) (log st) + 1.
Proof.
  intros Hget Hopen Hrun. unfold read_output, pump_resume in Hrun.
  assert (Hfin : ∃ st2, pump_advance AtFinish p polls leftover st = Some st2 ∧
                        st' = pump_finish p listing probe st2).
  { unfold pump_advance.
    destruct (pump_loop p polls st); [done| |]; injection Hrun as <-; eauto. }
  destruct Hfin as (st2 & Hadv & ->).
  destruct (pump_advance_steady p AtFinish polls leftover st st2 s Hget Hadv)
    as (Hst & _).
  rewrite Hopen in Hst.
  destruct (pump_finish_steady p (log st) listing probe st2 Hst)
    as (Ht & Hh & l & Hl & Hn).
  repeat (split; [done|]).
  by rewrite Hl, ended_count_app, Hn.
Qed.

Lemma pump_loop_ends p polls st :
  existsb ends_loop polls = true → ∀ st0, pump_loop p polls st ≠ Looping st0.
Proof.
  revert st. induction polls as [|o polls IH]; intros st Hex st0; [done|].
  cbn [pump_loop].
  destruct (obj_closing p st); [done|].
  destruct (negb (isalive (p_child p) st)); [done|].
  destruct o; try done; simpl in Hex; by apply IH.
Qed.

(** The thread run in two parts, with a stop at [pc], does what the
    thread run in one go does. *)
Lemma pump_split pc p polls polls' leftover listing probe st st0 :
  pump_advance pc p polls leftover st = Some st0 →
  pump_resume pc p polls' leftover listing probe st0 =
  read_output p (match pc with AtLoop => polls ++ polls' | _ => polls end)
              leftover listing probe st.
Proof.
  unfold pump_advance, read_output. intros Hadv.
  destruct pc; cbn [pump_resume].
  - rewrite pump_loop_app. by destruct (pump_loop p polls st); simplify_eq.
  - by destruct (pump_loop p polls st); simplify_eq.
  - by destruct (pump_loop p polls st); simplify_eq.
Qed.

(** Once the session object is closing and the table has no entry for the
    socket id, the thread does nothing more, wherever it stands. *)
Lemma pump_silent p pc polls leftover listing probe st :
  obj_closing p st = true →
  get_session (p_sid p) st = None →
  pump_resume pc p polls leftover listing probe st = Some st.
Proof.
  intros Hc Hnone.
  assert (Hfin : pump_finish p listing probe st = st).
  { unfold pump_finish. rewrite Hc. by apply cleanup_absent. }
  destruct pc; cbn [pump_resume].
  - rewrite (pump_loop_closing p polls st Hc).
    by rewrite (pump_drain_closing p leftover st Hc), Hfin.
  - by rewrite (pump_drain_closing p leftover st Hc), Hfin.
  - by rewrite Hfin.
Qed.

(** A disconnect request on a session that is registered and open. *)
Lemma disconnect_live sid st a s :
  get_session sid st = Some (a, s) →
  closing s = false →
  let st1 := handle_disconnect_session sid st in
  log st1 = log st ++ [killed_notice sid] ++ teardown s st ++ [Emit process_ended sid] ∧
  ephemeral_sessions st1 !! sid = None ∧
  heap st1 !! a = Some cleared.
Proof.
  intros Hget Hopen. unfold handle_disconnect_session. rewrite Hget, Hopen.
  assert (Hg : get_session sid (emit (python_output ("[Session killed by user]" ++ nl)%string)
                                     sid st) = Some (a, s)) by exact Hget.
  split; [|split].
  - simpl. rewrite (cleanup_log _ _ _ _ Hg Hopen). simpl.
    by rewrite <- !app_assoc.
  - simpl. rewrite (cleanup_table _ _ _ _ Hg Hopen). apply lookup_delete_eq.
  - simpl. rewrite (cleanup_heap _ _ _ _ Hg Hopen). apply lookup_insert_eq.
Qed.

(** Take the thread of a session that is registered and open, and let
    nothing come between the statements of its last block.  If it runs to
    its end undisturbed, the log gains exactly one [process_ended] for the
    client.  If a disconnect request arrives while the thread stands at
    any point before its last block, the handler logs the kill notice, the
    teardown and one [process_ended]; the count is again exactly one more
    than at the start, and from then on the thread returns the state it
    is given: no drain read, no scan, no event. *)
Theorem process_ended_exactly_once (p : pump) (st : state) (s : session) :
  get_session (p_sid p) st = Some (p_obj p, s) →
  closing s = false →
  (∀ polls leftover listing probe st',
     read_output p polls leftover listing probe st = Some st' →
     ended_count (p_sid p) (log st') = ended_count (p_sid p) (log st) + 1) ∧
  (∀ pc polls leftover st0,
     pump_advance pc p polls leftover st = Some st0 →
     let st1 := handle_disconnect_session (p_sid p) st0 in
     log st1 = log st0 ++ [killed_notice (p_sid p)] ++ teardown s st0
                       ++ [Emit process_ended (p_sid p)] ∧
     ended_count (p_sid p) (log st1) = ended_count (p_sid p) (log st) + 1 ∧
     ∀ pc' polls' leftover' listing probe,
       pump_resume pc' p polls' leftover' listing probe st1 = Some st1).
Proof.
  intros Hget Hopen. split.
  - intros polls leftover listing probe st' Hrun.
    by destruct (pump_natural p st s polls leftover listing probe st' Hget Hopen Hrun)
      as (_ & _ & H).
  - intros pc polls leftover st0 Hadv st1. subst st1.
    destruct (pump_advance_steady p pc polls leftover st st0 s Hget Hadv)
      as ((s0 & l0 & _ & _ & _ & Hl0 & Hn0) & Hget0 & _).
    destruct (disconnect_live (p_sid p) st0 (p_obj p) s Hget0 Hopen)
      as (Hlog & Htab & Hheap).
    split; [exact Hlog|]. split.
    + rewrite Hlog, Hl0, !ended_count_app.
      rewrite (ended_count_no_ended _ l0 Hn0),
        (ended_count_no_ended _ _ (no_ended_teardown s st0)), ended_count_one.
      unfold killed_notice, ended_count. rewrite count_occ_cons_neq by done.
      simpl. lia.
    + intros pc' polls' leftover' listing probe. apply pump_silent.
      * unfold obj_closing. by rewrite Hheap.
      * unfold get_session. by rewrite Htab.
Qed.

Lemma process_ended_exactly_once_witness :
  (∃ st', read_output Demo.running_pump [Chunk "1"; Exited] None
            Demo.listing Demo.probe Demo.running = Some st' ∧
          ended_count "s1" (log st') = ended_count "s1" (log Demo.running) + 1) ∧
  (∃ st0, pump_advance AtLoop Demo.running_pump [Chunk "1"] None Demo.running = Some st0 ∧
          let st1 := handle_disconnect_session "s1" st0 in
          ended_count "s1" (log st1) = ended_count "s1" (log Demo.running) + 1 ∧
          read_output Demo.running_pump [Chunk "2"; Exited] (Some "x"%string)
            Demo.listing Demo.probe st1 = Some st1).
Proof.
  destruct (process_ended_exactly_once Demo.running_pump Demo.running Demo.running_session)
    as [Hnat Hkill]; [vm_compute; reflexivity | reflexivity |].
  split.
  - eexists. split; [vm_compute; reflexivity|].
    eapply (Hnat [Chunk "1"%string; Exited] None Demo.listing Demo.probe).
    vm_compute. reflexivity.
  - eexists. split; [vm_compute; reflexivity|].
    edestruct (Hkill AtLoop [Chunk "1"%string] None) as (_ & Hc & Hs);
      [vm_compute; reflexivity|].
    split; [exact Hc | apply Hs].
Defined.

(** C5: the four ways through [read_output].  When the loop is left by
    its test or by [break] and the session is not closing: one drain read,
    forwarded if not empty, then one scan, one [process_ended], then the
    cleanup.  When the loop is left by an exception: the error event, and,
    the session not closing, one scan, one [process_ended], then the
    cleanup.  When the session is closing: the cleanup only.  So a run that
    ends always ends with the cleanup, and a run ends as soon as the polls
    hold an exit of the child, an end of file or a failure.  On the session
    the thread was started for, the cleanup at the end does the teardown. *)
Theorem read_output_paths (p : pump) (polls : list poll) (leftover : option string)
    (listing : string → list string) (probe : string → file_obs) (st : state) :
  let sid := p_sid p in
  let run := read_output p polls leftover listing probe st in
  (∀ st1, pump_loop p polls st = LoopExit st1 → obj_closing p st1 = false →
     ∃ st2, same_world st1 st2 ∧ log st2 = log st1 ++ drained p leftover ∧
            run = Some (cleanup_ephemeral_session sid
                          (emit process_ended sid
                             (scan_for_new_images sid listing probe st2)))) ∧
  (∀ e st1, pump_loop p polls st = Raised e st1 → obj_closing p st1 = false →
     run = Some (cleanup_ephemeral_session sid
                   (emit process_ended sid
                      (scan_for_new_images sid listing probe
                         (emit (session_error e) sid st1))))) ∧
  (∀ st1, pump_loop p polls st = LoopExit st1 → obj_closing p st1 = true →
     run = Some (cleanup_ephemeral_session sid st1)) ∧
  (∀ e st1, pump_loop p polls st = Raised e st1 → obj_closing p st1 = true →
     run = Some (cleanup_ephemeral_session sid (emit (session_error e) sid st1))) ∧
  (∀ st', run = Some st' → ∃ pre, st' = cleanup_ephemeral_session sid pre) ∧
  (existsb ends_loop polls = true → is_Some run) ∧
  (∀ s st', get_session sid st = Some (p_obj p, s) → closing s = false →
     run = Some st' →
     ephemeral_sessions st' !! sid = None ∧ heap st' !! p_obj p = Some cleared).
Proof.
  intros sid run. subst sid run. unfold read_output. cbn [pump_resume].
  split; [|split; [|split; [|split; [|split; [|split]]]]].
  - intros st1 -> Hc. exists (pump_drain p leftover st1).
    destruct (pump_drain_open p leftover st1 Hc) as (Hl & Hw).
    split; [exact Hw|]. split; [exact Hl|].
    unfold pump_finish.
    by rewrite (obj_closing_heap p st1 (pump_drain p leftover st1)
                  (proj1 (proj2 Hw))), Hc.
  - intros e st1 -> Hc. unfold pump_finish.
    by rewrite (obj_closing_heap p st1 (emit (session_error e) (p_sid p) st1) eq_refl), Hc.
  - intros st1 -> Hc. rewrite (pump_drain_closing p leftover st1 Hc).
    unfold pump_finish. by rewrite Hc.
  - intros e st1 -> Hc. unfold pump_finish.
    by rewrite (obj_closing_heap p st1 (emit (session_error e) (p_sid p) st1) eq_refl), Hc.
  - intros st' Hrun. unfold pump_finish in Hrun.
    destruct (pump_loop p polls st); [done| |]; injection Hrun as <-; eauto.
  - intros Hex. pose proof (pump_loop_ends p polls st Hex) as Hne.
    destruct (pump_loop p polls st) as [st0| |]; [by destruct (Hne st0) | eauto..].
  - intros s st' Hget Hopen Hrun.
    destruct (pump_natural p st s polls leftover listing probe st' Hget Hopen Hrun)
      as (Ht & Hh & _).
    by split.
Qed.

Lemma read_output_paths_witness :
  ∃ st', read_output Demo.running_pump [Chunk "1"; Timeout; Exited] (Some "2"%string)
           Demo.listing Demo.probe Demo.running = Some st' ∧
         ephemeral_sessions st' !! "s1" = None ∧
         heap st' !! 0 = Some cleared ∧
         log st' =
           log Demo.running ++
           [ReadNonblocking 1; Emit (python_output "1") "s1"; ReadNonblocking 1;
            Read 1; Emit (python_output "2") "s1";
            Glob "/tmp/user_session_ab12/*.png";
            Emit (plot_image "plot.png" (Png (Image 667 800))) "s1";
            Glob "/tmp/user_session_ab12/*.jpg";
            Glob "/tmp/user_session_ab12/*.jpeg";
            Emit process_ended "s1";
            Rmtree "/tmp/user_session_ab12"].
Proof.
  pose proof (read_output_paths Demo.running_pump [Chunk "1"%string; Timeout; Exited]
                (Some "2"%string) Demo.listing Demo.probe Demo.running) as H.
  cbv zeta in H. destruct H as (_ & _ & _ & _ & _ & Hends & Hfinal).
  destruct (Hends eq_refl) as [st' Hrun].
  exists st'. split; [exact Hrun|].
  destruct (Hfinal Demo.running_session st') as [Ht Hh];
    [vm_compute; reflexivity | reflexivity | exact Hrun |].
  split; [exact Ht|]. split; [exact Hh|].
  vm_compute in Hrun. injection Hrun as <-. vm_compute. reflexivity.
Defined.

(** The cleanup at the end of the thread goes by socket id.  When a new
    session has been started for the client in the meantime, the thread of
    the old session finds its own object closing, emits nothing, and its
    cleanup takes down the session now in the table. *)
Example stale_thread_cleanup_hits_new_session :
  get_session "s1" Demo.restarted
    = Some (3, Session (Some 4) (Some "/tmp/user_session_ef56") None
                       (Some "/tmp/user_session_ef56/user_code.py") (Some 5) false ∅) ∧
  ∃ st', read_output Demo.running_pump [] None Demo.listing Demo.probe Demo.restarted
           = Some st' ∧
         log st' = log Demo.restarted ++ [Terminate 4; Rmtree "/tmp/user_session_ef56"] ∧
         ephemeral_sessions st' !! "s1" = None.
Proof.
  split; [vm_compute; reflexivity|].
  eexists. split; [vm_compute; reflexivity|].
  split; vm_compute; reflexivity.
Qed.

(** * Exam rooms: properties *)

Module ExamFacts.

Import Exam ExamSpec.

(** ** Trailing white space *)

Lemma rstrip_empty_iff s : Py.rstrip s = EmptyString ↔ all_space s = true.
Proof.
  induction s as [|c s IH]; [done|]. cbn [Py.rstrip all_space].
  destruct (Py.rstrip s) eqn:E.
  - destruct (Py.is_space c); simpl; [|split; discriminate].
    split; [intros _; by apply IH | done].
  - split; [discriminate|]. intros [_ H]%andb_true_iff.
    apply IH in H. discriminate.
Qed.

Lemma rstrip_split s :
  ∃ w, s = (Py.rstrip s ++ w)%string ∧ all_space w = true.
Proof.
  induction s as [|c s (w & Hs & Hw)]; [by exists EmptyString|].
  cbn [Py.rstrip]. destruct (Py.rstrip s) eqn:E.
  - destruct (Py.is_space c) eqn:Hc.
    + exists (String c s). split; [done|]. cbn [all_space]. rewrite Hc.
      by apply rstrip_empty_iff.
    + exists s. split; [done|]. by apply rstrip_empty_iff.
  - exists w. split; [|done].
    change (String c s = String c (String a s0 ++ w)%string). by rewrite <- Hs.
Qed.

Lemma rstrip_ends_clean s : ends_clean (Py.rstrip s) = true.
Proof.
  induction s as [|c s IH]; [done|]. cbn [Py.rstrip].
  destruct (Py.rstrip s) eqn:E.
  - destruct (Py.is_space c) eqn:Hc; [done|]. cbn. by rewrite Hc.
  - exact IH.
Qed.

(** ** Unknown rooms *)

Lemma find_room_None roomCode st :
  (∀ code, roomCode = Some code → rooms_data st !! code = None) →
  find_room roomCode st = None.
Proof.
  intros H. unfold find_room. destruct roomCode as [code|]; [|done].
  simpl. by rewrite (H code eq_refl).
Qed.

Lemma find_room_Some code r st :
  rooms_data st !! code = Some r → find_room (Some code) st = Some (code, r).
Proof. intros H. unfold find_room. simpl. by rewrite H. Qed.

(** X1: a request that names no room, or a room that does not exist: the
    three handlers that answer send the requester one [session_error]
    naming the code, the other two do nothing; no room is touched. *)
Theorem unknown_room (sid : string) (roomCode : option string) (st : state) :
  (∀ code, roomCode = Some code → rooms_data st !! code = None) →
  let err := Emit (session_error ("Room " ++ py_str roomCode ++ " not found")%string) sid in
  (∀ text limit,
     handle_send_task sid (TaskData roomCode text limit) st = record err st) ∧
  (∀ name student,
     handle_join_room sid (JoinData roomCode name student) st = record err st) ∧
  (∀ name code language task,
     handle_submit_solution sid (SubmitData roomCode name code language task) st
     = record err st) ∧
  handle_end_exam roomCode st = st ∧
  handle_close_room roomCode st = st.
Proof.
  intros Hnone err. pose proof (find_room_None roomCode st Hnone) as Hf.
  unfold handle_send_task, handle_join_room, handle_submit_solution,
    handle_end_exam, handle_close_room. simpl. rewrite Hf. done.
Qed.

Lemma unknown_room_witness :
  handle_join_room "s1" (JoinData (Some "NOROOM") (Some "Ann") None) one_room =
    record (Emit (session_error "Room NOROOM not found") "s1") one_room ∧
  handle_send_task "s1" (TaskData None None None) one_room =
    record (Emit (session_error "Room None not found") "s1") one_room ∧
  handle_close_room (Some "NOROOM") one_room = one_room.
Proof.
  destruct (unknown_room "s1" (Some "NOROOM"%string) one_room) as (_ & Hj & _ & _ & Hc).
  { intros code [= <-]. vm_compute. reflexivity. }
  destruct (unknown_room "s1" None one_room) as (Ht & _).
  { intros code [=]. }
  split; [apply Hj|]. split; [apply Ht | exact Hc].
Defined.

(** ** Submissions *)

(** X2: a submission to an open room by a socket that has not submitted for
    the present task: one [solution_submitted] event goes to the room, the
    socket is noted as having submitted, nothing else changes.  The code
    sent is the code received without its trailing white space: it ends in
    no white space and what was cut off is white space only.  A missing
    name is sent as Unknown. *)
Theorem submission_accepted (sid code : string) (r : room)
    (name text language task : option string) (st : state) :
  rooms_data st !! code = Some r →
  examEnded r = false →
  sid ∉ submittedUsers r →
  let st' := handle_submit_solution sid (SubmitData (Some code) name text language task) st in
  let sent := Py.rstrip (default "" text) in
  log st' = log st ++ [Emit (solution_submitted (default "Unknown" name) sent
                                                (default "" language) task) code] ∧
  rooms_data st' =
    <[code := Room (teacherSocketId r) (participants r) (taskText r) (timeLimit r)
                   false ({[sid]} ∪ submittedUsers r) (studentSockets r)]> (rooms_data st) ∧
  ends_clean sent = true ∧
  ∃ w, default "" text = (sent ++ w)%string ∧ all_space w = true.
Proof.
  intros Hr Hopen Hnew st' sent. subst st' sent.
  unfold handle_submit_solution. cbn [s_roomCode s_name s_code s_language s_taskId].
  rewrite (find_room_Some code r st Hr), Hopen, bool_decide_eq_false_2 by done.
  split; [reflexivity|]. split; [|split; [apply rstrip_ends_clean | apply rstrip_split]].
  simpl. apply map_eq. intros i. rewrite lookup_alter.
  case_decide as Hi.
  - subst i. rewrite lookup_insert_eq, Hr. simpl. by rewrite Hopen.
  - by rewrite lookup_insert_ne.
Qed.

Lemma submission_accepted_witness :
  log (handle_submit_solution "s1"
         (SubmitData (Some "ABCDEF") None (Some ("x = 1  " ++ nl)%string) (Some "python") None)
         one_room) =
    log one_room ++ [Emit (solution_submitted "Unknown" "x = 1" "python" None) "ABCDEF"].
Proof.
  destruct (submission_accepted "s1" "ABCDEF" (Room "teacher" ∅ "" 0 false ∅ ∅)
              None (Some ("x = 1  " ++ nl)%string) (Some "python"%string) None one_room)
    as (Hlog & _).
  - vm_compute. reflexivity.
  - reflexivity.
  - set_solver.
  - exact Hlog.
Defined.

Lemma extends_refl r : extends r r.
Proof. by repeat split. Qed.

Lemma extends_trans r1 r2 r3 : extends r1 r2 → extends r2 r3 → extends r1 r3.
Proof.
  intros (?&?&?&?&?&?) (?&?&?&?&?&?).
  repeat split; try congruence; try set_solver.
Qed.

(** One request that keeps the room. *)
Lemma handle_keeps code rq r st :
  rooms_data st !! code = Some r → keeps code rq →
  ∃ r', rooms_data (handle rq st) !! code = Some r' ∧ extends r r'.
Proof.
  intros Hr Hk.
  assert (Hsame : ∃ r', rooms_data st !! code = Some r' ∧ extends r r')
    by (exists r; split; [done | apply extends_refl]).
  assert (Halter : ∀ f code' (st0 : state),
            rooms_data st0 = rooms_data st → (∀ x, extends x (f x)) →
            ∃ r', alter f code' (rooms_data st0) !! code = Some r' ∧ extends r r').
  { intros f code' st0 Hst0 Hf. rewrite Hst0, lookup_alter. case_decide as Hc.
    - subst code'. rewrite Hr. simpl. eauto.
    - eauto. }
  destruct rq as [sid draws|sid data|roomCode|roomCode|sid data|sid data];
    cbn [handle keeps] in *.
  - unfold handle_create_room. simpl. rewrite lookup_insert_ne by done. exact Hsame.
  - unfold handle_send_task.
    destruct (find_room (t_roomCode data) st) as [[code' r']|] eqn:Hf; [|exact Hsame].
    simpl. rewrite lookup_alter_ne; [exact Hsame|].
    intros ->. unfold find_room in Hf.
    destruct (t_roomCode data) as [c|]; [|done]. simpl in Hf.
    destruct (rooms_data st !! c); [|done]. simpl in Hf. congruence.
  - unfold handle_end_exam.
    destruct (find_room roomCode st) as [[code' r']|]; [|exact Hsame].
    destruct (negb (Py.truthy code')); [exact Hsame|].
    simpl. apply (Halter _ code' st eq_refl). intros x. by repeat split.
  - unfold handle_close_room.
    destruct (find_room roomCode st) as [[code' r']|] eqn:Hf; [|exact Hsame].
    destruct (negb (Py.truthy code')); [exact Hsame|].
    simpl. rewrite lookup_delete_ne; [exact Hsame|].
    intros ->. unfold find_room in Hf.
    destruct roomCode as [c|]; [|done]. simpl in Hf.
    destruct (rooms_data st !! c); [|done]. simpl in Hf. congruence.
  - unfold handle_join_room.
    destruct (find_room (j_roomCode data) st) as [[code' r']|]; [|exact Hsame].
    assert (Hp : ∃ r1, alter (λ r0, Room (teacherSocketId r0) ({[sid]} ∪ participants r0)
                                       (taskText r0) (timeLimit r0) (examEnded r0)
                                       (submittedUsers r0) (studentSockets r0))
                             code' (rooms_data st) !! code = Some r1 ∧ extends r r1).
    { apply (Halter _ code' st eq_refl). intros x. repeat split; simpl; set_solver. }
    destruct Hp as (r1 & Hr1 & He1).
    destruct (j_studentId data) as [studentId|]; [destruct (Py.truthy studentId)|];
      simpl; eauto.
    rewrite lookup_alter. case_decide as Hc; [|eauto].
    subst code'. rewrite Hr1. simpl. eexists. split; [reflexivity|].
    eapply extends_trans; [exact He1|]. by repeat split.
  - unfold handle_submit_solution.
    destruct (find_room (s_roomCode data) st) as [[code' r']|]; [|exact Hsame].
    destruct (examEnded r'); [exact Hsame|].
    destruct (bool_decide _); [exact Hsame|].
    simpl. apply (Halter _ code' st eq_refl). intros x. repeat split; simpl; set_solver.
Qed.

Lemma handle_all_keeps code rqs r st :
  rooms_data st !! code = Some r → Forall (keeps code) rqs →
  ∃ r', rooms_data (handle_all rqs st) !! code = Some r' ∧ extends r r'.
Proof.
  intros Hr Hk. revert r st Hr. unfold handle_all.
  induction Hk as [|rq rqs Hrq _ IH]; intros r st Hr.
  - exists r. split; [done | apply extends_refl].
  - simpl. destruct (handle_keeps code rq r st Hr Hrq) as (r1 & Hr1 & He1).
    destruct (IH r1 _ Hr1) as (r2 & Hr2 & He2).
    exists r2. split; [done|]. by eapply extends_trans.
Qed.

(** X3: once a socket has submitted to a room, a further submission by it
    sends no solution and changes no room, whatever requests came in
    between, as long as none of them gave the room a new task, closed it
    or made it anew: the submission is dropped without a word, or, if the
    exam was ended meanwhile, answered with the error. *)
Theorem second_submission_ignored (sid code : string) (r : room) (rqs : list request)
    (name text language task : option string) (st : state) :
  rooms_data st !! code = Some r →
  sid ∈ submittedUsers r →
  Forall (keeps code) rqs →
  let st1 := handle_all rqs st in
  let st2 := handle_submit_solution sid (SubmitData (Some code) name text language task) st1 in
  rooms_data st2 = rooms_data st1 ∧
  (st2 = st1 ∨
   st2 = record (Emit (session_error "Exam ended. No more submissions.") sid) st1).
Proof.
  intros Hr Hin Hk st1 st2. subst st1 st2.
  destruct (handle_all_keeps code rqs r st Hr Hk) as (r' & Hr' & (_&_&_&_&Hsub&_)).
  unfold handle_submit_solution. cbn [s_roomCode].
  rewrite (find_room_Some code r' _ Hr').
  destruct (examEnded r'); [split; [done | by right]|].
  rewrite bool_decide_eq_true_2 by set_solver. split; [done | by left].
Qed.

Lemma second_submission_ignored_witness :
  let st := handle_submit_solution "s1"
              (SubmitData (Some "ABCDEF") (Some "Ann") (Some "x = 1") None None) one_room in
  let st1 := handle_all [JoinRoomReq "s2" (JoinData (Some "ABCDEF") (Some "Bob") None);
                         SubmitSolution "s2"
                           (SubmitData (Some "ABCDEF") (Some "Bob") (Some "y") None None)]
                        st in
  handle_submit_solution "s1"
    (SubmitData (Some "ABCDEF") (Some "Ann") (Some "x = 2") None None) st1 = st1.
Proof.
  intros st st1.
  destruct (second_submission_ignored "s1" "ABCDEF"
              (Room "teacher" ∅ "" 0 false {["s1"]} ∅)
              [JoinRoomReq "s2" (JoinData (Some "ABCDEF"%string) (Some "Bob"%string) None);
               SubmitSolution "s2"
                 (SubmitData (Some "ABCDEF"%string) (Some "Bob"%string) (Some "y"%string)
                             None None)]
              (Some "Ann"%string) (Some "x = 2"%string) None None st)
    as (_ & [H | H]).
  - vm_compute. reflexivity.
  - set_solver.
  - repeat constructor.
  - exact H.
  - exfalso. apply (f_equal (λ x, length (log x))) in H. vm_compute in H. discriminate H.
Defined.

(** ** The end of an exam *)

Lemma submit_ended sid code r name text language task st :
  rooms_data st !! code = Some r → examEnded r = true →
  handle_submit_solution sid (SubmitData (Some code) name text language task) st =
  record (Emit (session_error "Exam ended. No more submissions.") sid) st.
Proof.
  intros Hr He. unfold handle_submit_solution. cbn [s_roomCode].
  by rewrite (find_room_Some code r st Hr), He.
Qed.

Lemma end_exam_room code r st :
  rooms_data st !! code = Some r → Py.truthy code = true →
  handle_end_exam (Some code) st =
  State (<[code := Room (teacherSocketId r) (participants r) (taskText r) (timeLimit r)
                        true (submittedUsers r) (studentSockets r)]> (rooms_data st))
        (log st ++ [Emit exam_ended code]).
Proof.
  intros Hr Ht. unfold handle_end_exam.
  rewrite (find_room_Some code r st Hr), Ht. simpl.
  unfold emit, record, with_rooms. simpl. f_equal.
  apply map_eq. intros i. rewrite lookup_alter. case_decide as Hi.
  - subst i. by rewrite lookup_insert_eq, Hr.
  - by rewrite lookup_insert_ne.
Qed.

(** X4: ending the exam of a room tells the room so and closes it to
    submissions: from then on, and until a new task is sent to the room
    (or the room is closed or made anew), every submission to it, by any
    socket, is answered with the error and changes nothing. *)
Theorem ended_exam_takes_no_submission (code : string) (r : room) (rqs : list request)
    (sid : string) (name text language task : option string) (st : state) :
  rooms_data st !! code = Some r →
  Py.truthy code = true →
  Forall (keeps code) rqs →
  let st0 := handle_end_exam (Some code) st in
  let st1 := handle_all rqs st0 in
  log st0 = log st ++ [Emit exam_ended code] ∧
  handle_submit_solution sid (SubmitData (Some code) name text language task) st1 =
    record (Emit (session_error "Exam ended. No more submissions.") sid) st1.
Proof.
  intros Hr Ht Hk st0 st1. subst st0 st1.
  rewrite (end_exam_room code r st Hr Ht). split; [done|].
  set (st0 := State _ _).
  assert (Hr0 : rooms_data st0 !! code =
                Some (Room (teacherSocketId r) (participants r) (taskText r) (timeLimit r)
                           true (submittedUsers r) (studentSockets r)))
    by (simpl; apply lookup_insert_eq).
  destruct (handle_all_keeps code rqs _ st0 Hr0 Hk) as (r' & Hr' & (_&_&_&_&_&He)).
  apply (submit_ended sid code r'); [done | by apply He].
Qed.

Lemma ended_exam_takes_no_submission_witness :
  let st1 := handle_all [JoinRoomReq "s2" (JoinData (Some "ABCDEF") None None)]
                        (handle_end_exam (Some "ABCDEF") one_room) in
  handle_submit_solution "s2" (SubmitData (Some "ABCDEF") None (Some "x") None None) st1 =
    record (Emit (session_error "Exam ended. No more submissions.") "s2") st1.
Proof.
  intros st1.
  apply (ended_exam_takes_no_submission "ABCDEF" (Room "teacher" ∅ "" 0 false ∅ ∅)
           [JoinRoomReq "s2" (JoinData (Some "ABCDEF"%string) None None)]
           "s2" None (Some "x"%string) None None one_room).
  - vm_compute. reflexivity.
  - reflexivity.
  - repeat constructor.
Defined.

(** X5: a new task sent to a room reaches the room, replaces the task text
    and the time limit (an absent text is the empty text, an absent limit
    is 0), reopens the exam and forgets who has submitted; teacher,
    participants and student sockets stay.  So every socket, also one that
    had submitted or had been refused after the end, can submit again. *)
Theorem new_task_reopens (sid code : string) (r : room) (text : option string)
    (limit : option Z) (st : state) :
  rooms_data st !! code = Some r →
  let st1 := handle_send_task sid (TaskData (Some code) text limit) st in
  log st1 = log st ++ [Emit (new_task (default "" text) (default 0%Z limit)) code] ∧
  rooms_data st1 =
    <[code := Room (teacherSocketId r) (participants r) (default "" text)
                   (default 0%Z limit) false ∅ (studentSockets r)]> (rooms_data st) ∧
  ∀ sid' name text' language task,
    log (handle_submit_solution sid' (SubmitData (Some code) name text' language task) st1) =
    log st1 ++ [Emit (solution_submitted (default "Unknown" name)
                                          (Py.rstrip (default "" text'))
                                          (default "" language) task) code].
Proof.
  intros Hr st1. subst st1. unfold handle_send_task. cbn [t_roomCode t_taskText t_timeLimit].
  rewrite (find_room_Some code r st Hr).
  assert (Hrooms : alter (λ r0, Room (teacherSocketId r0) (participants r0) (default "" text)
                                     (default 0%Z limit) false ∅ (studentSockets r0))
                         code (rooms_data st) =
                   <[code := Room (teacherSocketId r) (participants r) (default "" text)
                                  (default 0%Z limit) false ∅ (studentSockets r)]>
                     (rooms_data st)).
  { apply map_eq. intros i. rewrite lookup_alter. case_decide as Hi.
    - subst i. by rewrite lookup_insert_eq, Hr.
    - by rewrite lookup_insert_ne. }
  split; [reflexivity|]. split; [exact Hrooms|].
  intros sid' name text' language task.
  unfold handle_submit_solution. cbn [s_roomCode s_name s_code s_language s_taskId].
  erewrite find_room_Some; [|simpl; rewrite Hrooms; apply lookup_insert_eq].
  cbn [examEnded submittedUsers].
  rewrite bool_decide_eq_false_2 by set_solver. reflexivity.
Qed.

Lemma new_task_reopens_witness :
  let st := handle_end_exam (Some "ABCDEF")
              (handle_submit_solution "s1"
                 (SubmitData (Some "ABCDEF") None (Some "x") None None) one_room) in
  let st1 := handle_send_task "teacher" (TaskData (Some "ABCDEF") (Some "Task 2") None) st in
  log (handle_submit_solution "s1" (SubmitData (Some "ABCDEF") None (Some "y") None None)
         st1) =
  log st1 ++ [Emit (solution_submitted "Unknown" "y" "" None) "ABCDEF"].
Proof.
  intros st st1.
  destruct (new_task_reopens "teacher" "ABCDEF" (Room "teacher" ∅ "" 0 true {["s1"]} ∅)
              (Some "Task 2"%string) None st) as (_ & _ & H).
  - vm_compute. reflexivity.
  - apply (H "s1"%string None (Some "y"%string) None None).
Defined.

(** ** Closing and creating rooms *)

(** X6: closing a room tells the room so and removes it, and only it, from
    the table; a later request for that code is a request for a room that
    does not exist. *)
Theorem closed_room_is_gone (code : string) (r : room) (sid : string)
    (name student : option string) (st : state) :
  rooms_data st !! code = Some r →
  Py.truthy code = true →
  let st1 := handle_close_room (Some code) st in
  log st1 = log st ++ [Emit room_closed code] ∧
  rooms_data st1 = delete code (rooms_data st) ∧
  handle_join_room sid (JoinData (Some code) name student) st1 =
    record (Emit (session_error ("Room " ++ code ++ " not found")%string) sid) st1 ∧
  handle_end_exam (Some code) st1 = st1 ∧
  handle_close_room (Some code) st1 = st1.
Proof.
  intros Hr Ht st1. subst st1.
  assert (Hc : handle_close_room (Some code) st =
               State (delete code (rooms_data st)) (log st ++ [Emit room_closed code])).
  { unfold handle_close_room. by rewrite (find_room_Some code r st Hr), Ht. }
  rewrite Hc. split; [done|]. split; [done|].
  assert (Hf : find_room (Some code)
                 (State (delete code (rooms_data st)) (log st ++ [Emit room_closed code]))
               = None).
  { apply find_room_None. intros ? [= <-]. apply lookup_delete_eq. }
  unfold handle_join_room, handle_end_exam, handle_close_room. cbn [j_roomCode].
  rewrite Hf. done.
Qed.

Lemma closed_room_is_gone_witness :
  let st1 := handle_close_room (Some "ABCDEF") one_room in
  rooms_data st1 = delete "ABCDEF" (rooms_data one_room) ∧
  handle_join_room "s1" (JoinData (Some "ABCDEF") None None) st1 =
    record (Emit (session_error "Room ABCDEF not found") "s1") st1.
Proof.
  destruct (closed_room_is_gone "ABCDEF" (Room "teacher" ∅ "" 0 false ∅ ∅) "s1" None None
              one_room) as (_ & Hd & Hj & _).
  - vm_compute. reflexivity.
  - reflexivity.
  - split; [exact Hd | exact Hj].
Defined.

Lemma choice_in n : choice alphabet n ∈ alphabet.
Proof.
  unfold choice. apply list_elem_of_In, nth_In.
  apply Nat.mod_upper_bound. vm_compute. discriminate.
Qed.

(** X7: a room code has six characters, each a capital letter or a digit,
    whatever the generator draws; so it is never empty.  Creating a room
    stores under the code a room with the creator as teacher, nobody in
    it, no task and the exam open, replacing a room that had the same code;
    it puts the creator in the room and tells the creator the code. *)
Theorem created_room (sid : string) (draws : nat → nat) (st : state) :
  let code := generate_room_code draws in
  let st1 := handle_create_room sid draws st in
  String.length code = 6 ∧
  Forall (λ c, c ∈ alphabet) (list_ascii_of_string code) ∧
  Py.truthy code = true ∧
  rooms_data st1 = <[code := Room sid ∅ "" 0 false ∅ ∅]> (rooms_data st) ∧
  log st1 = log st ++ [JoinRoom sid code; Emit (room_created code) sid].
Proof.
  intros code st1. subst code st1. unfold generate_room_code.
  split; [reflexivity|]. split.
  - rewrite list_ascii_of_string_of_list_ascii.
    apply Forall_map, Forall_forall. intros k _. apply choice_in.
  - split; [reflexivity|]. split; [reflexivity|].
    unfold handle_create_room. simpl. by rewrite <- app_assoc.
Qed.

(** ** Joining *)

(** One request that neither makes nor closes the room: who is in the
    room stays in it. *)
Lemma handle_stays code rq r st :
  rooms_data st !! code = Some r → stays code rq →
  ∃ r', rooms_data (handle rq st) !! code = Some r' ∧ participants r ⊆ participants r'.
Proof.
  intros Hr Hs.
  assert (Hkeeps : keeps code rq →
            ∃ r', rooms_data (handle rq st) !! code = Some r' ∧
                  participants r ⊆ participants r').
  { intros Hk. destruct (handle_keeps code rq r st Hr Hk) as (r' & Hr' & (_&_&_&Hp&_)).
    by exists r'. }
  destruct rq as [sid draws|sid data|roomCode|roomCode|sid data|sid data];
    try (apply Hkeeps; exact Hs); try (apply Hkeeps; exact I).
  destruct (decide (t_roomCode data = Some code)) as [Hc | Hc]; [|by apply Hkeeps].
  cbn [handle]. unfold handle_send_task. rewrite Hc, (find_room_Some code r st Hr).
  simpl. rewrite lookup_alter_eq, Hr. simpl. eexists. split; [reflexivity | done].
Qed.

Lemma handle_all_stays code rqs r st :
  rooms_data st !! code = Some r → Forall (stays code) rqs →
  ∃ r', rooms_data (handle_all rqs st) !! code = Some r' ∧
        participants r ⊆ participants r'.
Proof.
  intros Hr Hs. revert r st Hr. unfold handle_all.
  induction Hs as [|rq rqs Hrq _ IH]; intros r st Hr.
  - by exists r.
  - simpl. destruct (handle_stays code rq r st Hr Hrq) as (r1 & Hr1 & Hp1).
    destruct (IH r1 _ Hr1) as (r2 & Hr2 & Hp2).
    exists r2. split; [done | set_solver].
Qed.

(** X8: joining a room puts the socket in the room and among its
    participants, notes the socket under the student id if one is given
    (a later join with the same id replaces the socket), and tells the
    room the name, Unknown if none is given.  A participant stays one
    through all later requests that do not close the room or make it
    anew, a new task for the room among them. *)
Theorem joined_room (sid code : string) (r : room) (name student : option string)
    (rqs : list request) (st : state) :
  rooms_data st !! code = Some r →
  Forall (stays code) rqs →
  let st1 := handle_join_room sid (JoinData (Some code) name student) st in
  log st1 = log st ++ [JoinRoom sid code; Emit (student_joined (default "Unknown" name)) code] ∧
  rooms_data st1 !! code =
    Some (Room (teacherSocketId r) ({[sid]} ∪ participants r) (taskText r) (timeLimit r)
               (examEnded r) (submittedUsers r)
               (match student with
                | Some id => if Py.truthy id then <[id := sid]> (studentSockets r)
                             else studentSockets r
                | None => studentSockets r
                end)) ∧
  (∀ code', code' ≠ code → rooms_data st1 !! code' = rooms_data st !! code') ∧
  ∃ r', rooms_data (handle_all rqs st1) !! code = Some r' ∧ sid ∈ participants r'.
Proof.
  intros Hr Hk st1. subst st1.
  assert (Hroom : rooms_data (handle_join_room sid (JoinData (Some code) name student) st)
                    !! code =
                  Some (Room (teacherSocketId r) ({[sid]} ∪ participants r) (taskText r)
                             (timeLimit r) (examEnded r) (submittedUsers r)
                             (match student with
                              | Some id => if Py.truthy id then <[id := sid]> (studentSockets r)
                                           else studentSockets r
                              | None => studentSockets r
                              end))).
  { unfold handle_join_room. cbn [j_roomCode j_name j_studentId].
    rewrite (find_room_Some code r st Hr).
    destruct student as [id|]; [destruct (Py.truthy id)|]; simpl;
      rewrite ?lookup_alter_eq, Hr; reflexivity. }
  split; [|split; [exact Hroom|split]].
  - unfold handle_join_room. cbn [j_roomCode j_name j_studentId].
    rewrite (find_room_Some code r st Hr).
    destruct student as [id|]; [destruct (Py.truthy id)|]; simpl;
      by rewrite <- app_assoc.
  - intros code' Hne. unfold handle_join_room. cbn [j_roomCode j_name j_studentId].
    rewrite (find_room_Some code r st Hr).
    destruct student as [id|]; [destruct (Py.truthy id)|]; simpl;
      by rewrite ?lookup_alter_ne.
  - destruct (handle_all_stays code rqs _ _ Hroom Hk) as (r' & Hr' & Hp).
    exists r'. split; [done|]. simpl in Hp. set_solver.
Qed.

Lemma joined_room_witness :
  let st1 := handle_join_room "s1" (JoinData (Some "ABCDEF") (Some "Ann") (Some "id7"))
                              one_room in
  rooms_data st1 !! "ABCDEF" =
    Some (Room "teacher" {["s1"]} "" 0 false ∅ {["id7" := "s1"]}) ∧
  ∃ r', rooms_data (handle_all [SendTask "teacher" (TaskData (Some "ABCDEF") (Some "sum") None);
                                EndExam (Some "ABCDEF")] st1) !! "ABCDEF" = Some r' ∧
        "s1" ∈ participants r'.
Proof.
  destruct (joined_room "s1" "ABCDEF" (Room "teacher" ∅ "" 0 false ∅ ∅)
              (Some "Ann"%string) (Some "id7"%string)
              [SendTask "teacher" (TaskData (Some "ABCDEF"%string) (Some "sum"%string) None);
               EndExam (Some "ABCDEF"%string)]
              one_room) as (_ & Hroom & _ & Hstay).
  - vm_compute. reflexivity.
  - repeat constructor.
  - intros st1. split; [|exact Hstay].
    subst st1. rewrite Hroom. vm_compute. reflexivity.
Defined.

End ExamFacts.

(** * The state machine: properties *)

(** ** Quiet steps *)

Lemma quiet_refl st : quiet st st.
Proof. by repeat split. Qed.

Lemma quiet_trans st1 st2 st3 : quiet st1 st2 → quiet st2 st3 → quiet st1 st3.
Proof.
  intros (?&Hc1&?&?&?&?&?) (?&Hc2&?&?&?&?&?).
  repeat split; try congruence. all: intros a; by rewrite Hc2, Hc1.
Qed.

Lemma quiet_record e st : quiet st (record e st).
Proof. by repeat split. Qed.

Lemma quiet_same_world st st' : same_world st st' → quiet st st'.
Proof. intros (?&Hh&?&?&?&?&?). repeat split; try done. intros a. by rewrite Hh. Qed.

Lemma quiet_handle_plot_file sid path obs st :
  quiet st (handle_plot_file sid path obs st).
Proof.
  unfold handle_plot_file.
  destruct (get_session sid st) as [[a s]|]; [|apply quiet_refl].
  destruct obs as [|e|im bytes]; [apply quiet_record..|].
  repeat split; try done. intros a'. simpl. rewrite lookup_alter.
  case_decide as Ha; [|done]. subst a'. by destruct (heap st !! a).
Qed.

Lemma quiet_scan_paths sid a probe paths st :
  quiet st (scan_paths sid a probe paths st).
Proof.
  revert st. unfold scan_paths. induction paths as [|path paths IH]; intros st.
  - apply quiet_refl.
  - simpl. eapply quiet_trans; [|apply IH].
    destruct (is_sent a path st); [apply quiet_refl | apply quiet_handle_plot_file].
Qed.

Lemma quiet_scan sid listing probe st :
  quiet st (scan_for_new_images sid listing probe st).
Proof.
  unfold scan_for_new_images.
  destruct (get_session sid st) as [[a s]|]; [|apply quiet_refl].
  destruct (temp_dir s) as [tmp_dir|]; [|apply quiet_refl].
  destruct (_ || _); [apply quiet_refl|].
  unfold patterns. cbn [fold_left].
  repeat (eapply quiet_trans; [|apply quiet_scan_paths]).
  repeat (eapply quiet_trans; [|apply quiet_record]).
  apply quiet_refl.
Qed.

(** ** The invariant *)

Lemma core_fields s s' :
  core s' = core s →
  closing s' = closing s ∧ child s' = child s ∧ thread s' = thread s ∧
  temp_file s' = temp_file s ∧ temp_dir s' = temp_dir s ∧
  sql_temp_dir s' = sql_temp_dir s.
Proof.
  destruct s, s'. unfold core, set_sent_images. simpl. intros [=]. by subst.
Qed.

Lemma live_mono st st' s s' :
  core s' = core s → (next_id st <= next_id st')%nat → live st s → live st' s'.
Proof.
  intros (Hc & Hch & Ht & Hf & Hd & Hq)%core_fields Hn (H1 & (c & H2 & H3) & H4 & H5 & H6).
  unfold live. rewrite Hc, Hch, Ht, Hf, Hd, Hq.
  split; [done|]. split; [exists c; split; [done | lia]|]. done.
Qed.

Lemma core_lookup (h h' : gmap nat session) a s' :
  core <$> h' !! a = core <$> h !! a → h' !! a = Some s' →
  ∃ s, h !! a = Some s ∧ core s' = core s.
Proof.
  intros Hc Hs'. rewrite Hs' in Hc. destruct (h !! a) as [s|]; [|done].
  exists s. split; [done|]. simpl in Hc. congruence.
Qed.

Lemma wf_frame st st' :
  ephemeral_sessions st' = ephemeral_sessions st →
  (∀ a, core <$> heap st' !! a = core <$> heap st !! a) →
  alive st' ⊆ alive st →
  (next_id st <= next_id st')%nat →
  wf st → wf st'.
Proof.
  intros Ht Hh Hal Hn (W1 & W2 & W3 & W4).
  assert (Hget : ∀ sid a s', get_session sid st' = Some (a, s') →
                 ∃ s, get_session sid st = Some (a, s) ∧ core s' = core s).
  { intros sid a s' [Hta Hs']%get_session_Some. rewrite Ht in Hta.
    destruct (core_lookup _ _ a s' (Hh a) Hs') as (s & Hs & Hc).
    exists s. split; [by apply get_session_Some | done]. }
  split; [|split; [|split]].
  - intros sid a Hta. rewrite Ht in Hta.
    destruct (W1 sid a Hta) as (Ha & s & Hs & Hl).
    split; [lia|].
    pose proof (Hh a) as Hca. rewrite Hs in Hca.
    destruct (heap st' !! a) as [s'|] eqn:Hs'; [|done].
    exists s'. split; [done|].
    apply (live_mono st st' s s'); [simpl in Hca; congruence | done..].
  - intros sid1 sid2 a. rewrite Ht. apply W2.
  - intros sid1 sid2 a1 a2 s1 s2 c H1 H2 Hc1 Hc2.
    destruct (Hget _ _ _ H1) as (t1 & G1 & (_ & E1 & _)%core_fields).
    destruct (Hget _ _ _ H2) as (t2 & G2 & (_ & E2 & _)%core_fields).
    apply (W3 sid1 sid2 a1 a2 t1 t2 c G1 G2); congruence.
  - intros c Hc. specialize (W4 c (Hal c Hc)). lia.
Qed.

Lemma wf_quiet st st' : quiet st st' → wf st → wf st'.
Proof.
  intros (Ht & Hh & Hal & _ & _ & Hn & _). apply wf_frame; try done.
  - by rewrite Hal.
  - by rewrite Hn.
Qed.

(** The cleanup of one client leaves the sessions of the others as they
    are. *)
Lemma get_session_cleanup_other sid sid' st :
  wf st → sid' ≠ sid →
  get_session sid' (cleanup_ephemeral_session sid st) = get_session sid' st.
Proof.
  intros (_ & W2 & _) Hne.
  destruct (get_session sid st) as [[a s]|] eqn:Hget;
    [|by rewrite (cleanup_absent sid st Hget)].
  destruct (closing s) eqn:Hc; [by rewrite (cleanup_closing sid st a s Hget Hc)|].
  unfold get_session at 1.
  rewrite (cleanup_table sid st a s Hget Hc), (cleanup_heap sid st a s Hget Hc).
  rewrite lookup_delete_ne by done. unfold get_session.
  destruct (ephemeral_sessions st !! sid') as [a'|] eqn:Ha'; [|done]. simpl.
  rewrite lookup_insert_ne; [done|].
  intros <-. apply Hne. apply get_session_Some in Hget as [Hta _].
  by apply (W2 sid' sid a).
Qed.

Lemma wf_cleanup sid st : wf st → wf (cleanup_ephemeral_session sid st).
Proof.
  intros Hwf.
  destruct (get_session sid st) as [[a s]|] eqn:Hget;
    [|by rewrite (cleanup_absent sid st Hget)].
  destruct (closing s) eqn:Hc; [by rewrite (cleanup_closing sid st a s Hget Hc)|].
  pose proof (get_session_cleanup_other sid) as Hother.
  pose proof Hwf as (W1 & W2 & W3 & W4).
  pose proof (cleanup_table sid st a s Hget Hc) as Ht.
  pose proof (cleanup_heap sid st a s Hget Hc) as Hh.
  pose proof (cleanup_alive sid st a s Hget Hc) as Hal.
  pose proof (cleanup_rest sid st a s Hget Hc) as (_ & Hn & _).
  set (st' := cleanup_ephemeral_session sid st) in *.
  assert (Hreg : ∀ sid' a', ephemeral_sessions st' !! sid' = Some a' →
                 sid' ≠ sid ∧ ephemeral_sessions st !! sid' = Some a').
  { intros sid' a'. rewrite Ht. intros [? ?]%lookup_delete_Some. done. }
  split; [|split; [|split]].
  - intros sid' a' Hta'. destruct (Hreg _ _ Hta') as [Hne Hta].
    destruct (W1 sid' a' Hta) as (Ha' & s' & Hs' & Hl).
    rewrite Hn. split; [done|]. exists s'. split.
    + rewrite Hh, lookup_insert_ne; [done|].
      intros <-. apply Hne. apply get_session_Some in Hget as [Hta0 _].
      by apply (W2 sid' sid a).
    + apply (live_mono st st' s' s'); [done | lia | done].
  - intros sid1 sid2 a0 H1 H2.
    destruct (Hreg _ _ H1) as [_ G1]. destruct (Hreg _ _ H2) as [_ G2].
    by apply (W2 sid1 sid2 a0).
  - intros sid1 sid2 a1 a2 s1 s2 c H1 H2 Hc1 Hc2.
    assert (sid1 ≠ sid).
    { apply get_session_Some in H1 as [H1 _]. by destruct (Hreg _ _ H1). }
    assert (sid2 ≠ sid).
    { apply get_session_Some in H2 as [H2 _]. by destruct (Hreg _ _ H2). }
    unfold st' in H1, H2. rewrite (Hother sid1 st Hwf) in H1 by done.
    rewrite (Hother sid2 st Hwf) in H2 by done.
    by apply (W3 sid1 sid2 a1 a2 s1 s2 c).
  - intros c. rewrite Hal, Hn. intros Hin. apply W4. set_solver.
Qed.

(** ** [start_session] in closed form *)

Section StartShape.

Variables (sid : string) (data : start_data) (env : start_env) (st : state).

Let mid := cleanup_ephemeral_session sid st.
Let n := next_id mid.
Let sql := String.eqb (request_language data) "sql".
Let fs := fresh_session sql (mkdtemp_path env).

Lemma setup_full :
  accepted data = true →
  ∃ sp, start_session_setup sid data env st = inr sp ∧
        sp_obj sp = n ∧ sp_tmp_dir sp = mkdtemp_path env ∧ sp_sql sp = sql ∧
        ephemeral_sessions (sp_state sp) = <[sid := n]> (ephemeral_sessions mid) ∧
        heap (sp_state sp) = <[n := fs]> (heap mid) ∧
        alive (sp_state sp) = alive mid ∧
        dirs (sp_state sp) = {[mkdtemp_path env]} ∪ dirs mid ∧
        threads (sp_state sp) = threads mid ∧
        next_id (sp_state sp) = S n ∧
        PIL_ENABLED (sp_state sp) = PIL_ENABLED mid.
Proof.
  subst fs sql n mid.
  unfold accepted, start_session_setup, request_code, request_language, fresh_session.
  intros [Hc Hl]%andb_true_iff. rewrite Hc. simpl.
  apply bool_decide_eq_true in Hl as [ext Hl]. rewrite Hl.
  set (mid := cleanup_ephemeral_session sid st).
  destruct (String.eqb _ "sql") eqn:Hsql; simpl.
  - destruct (prepop_exists env); simpl;
      eexists; (split; [reflexivity|]); simpl;
      rewrite ?alter_insert_eq; simpl; repeat (split; [reflexivity|]); reflexivity.
  - match goal with
    | |- context [let '(_, _) := ?e in _] => destruct e as [code_path run_cmd]
    end.
    eexists; (split; [reflexivity|]); simpl;
      rewrite ?alter_insert_eq; simpl; repeat (split; [reflexivity|]); reflexivity.
Qed.

Lemma start_rejected :
  accepted data = false → same_world st (start_session sid data env st).
Proof.
  intros Ha. destruct (setup_rejected sid data env st Ha) as [msg Hm].
  unfold start_session. rewrite Hm. apply same_world_record.
Qed.

Lemma start_failed e :
  accepted data = true → spawn_error env = Some e →
  let st' := start_session sid data env st in
  ephemeral_sessions st' = delete sid (ephemeral_sessions mid) ∧
  heap st' = <[n := fs]> (heap mid) ∧
  alive st' = alive mid ∧
  dirs st' = (if sql then {[mkdtemp_path env]} ∪ dirs mid
              else dirs mid ∖ {[mkdtemp_path env]}) ∧
  threads st' = threads mid ∧
  next_id st' = S n.
Proof.
  intros Ha He.
  destruct (setup_full Ha)
    as (sp & Hsp & Hobj & Htmp & Hsql & Ht & Hh & Hal & Hd & Hth & Hn & _).
  unfold start_session. rewrite Hsp. unfold start_session_spawn. rewrite He, Hsql, Htmp.
  destruct sql; simpl; rewrite Ht, Hh, Hal, Hd, Hth, Hn;
    (split; [apply delete_insert_eq|]); repeat (split; [reflexivity|]);
    try reflexivity.
  split; [set_solver | done].
Qed.

Lemma start_succeeded :
  accepted data = true → spawn_error env = None →
  let st' := start_session sid data env st in
  ∃ code_path,
    ephemeral_sessions st' = <[sid := n]> (ephemeral_sessions mid) ∧
    heap st' = <[n := Session (Some (S n)) (temp_dir fs) (sql_temp_dir fs) (Some code_path)
                              (Some (S (S n))) false ∅]> (heap mid) ∧
    alive st' = {[S n]} ∪ alive mid ∧
    dirs st' = {[mkdtemp_path env]} ∪ dirs mid ∧
    threads st' = <[S (S n) := Pump sid n (S n)]> (threads mid) ∧
    next_id st' = S (S (S n)).
Proof.
  intros Ha He.
  destruct (setup_full Ha)
    as (sp & Hsp & Hobj & Htmp & Hsql & Ht & Hh & Hal & Hd & Hth & Hn & _).
  unfold start_session. rewrite Hsp. unfold start_session_spawn. rewrite He.
  exists (sp_code_path sp). simpl. rewrite Ht, Hh, Hal, Hd, Hth, Hn, Hobj.
  rewrite !alter_insert_eq.
  split; [reflexivity|]. split; [|by repeat split].
  subst fs. unfold fresh_session. by destruct sql.
Qed.

End StartShape.

Lemma wf_start sid data env st : wf st → wf (start_session sid data env st).
Proof.
  intros Hwf.
  destruct (accepted data) eqn:Ha;
    [|apply (wf_quiet st); [by apply quiet_same_world, start_rejected | done]].
  pose proof (wf_cleanup sid st Hwf) as (W1 & W2 & W3 & W4).
  set (mid := cleanup_ephemeral_session sid st) in *.
  assert (Hold : ∀ a', a' < next_id mid → a' ≠ next_id mid) by (intros; lia).
  destruct (spawn_error env) as [e|] eqn:He.
  - destruct (start_failed sid data env st e Ha He) as (Ht & Hh & Hal & _ & _ & Hn).
    fold mid in Ht, Hh, Hal, Hn.
    set (st' := start_session sid data env st) in *.
    assert (Hreg : ∀ sid' a', ephemeral_sessions st' !! sid' = Some a' →
                   ephemeral_sessions mid !! sid' = Some a').
    { intros sid' a'. rewrite Ht. by intros [? ?]%lookup_delete_Some. }
    assert (Hget : ∀ sid' a' s', get_session sid' st' = Some (a', s') →
                   get_session sid' mid = Some (a', s')).
    { intros sid' a' s' [G1 G2]%get_session_Some. pose proof (Hreg _ _ G1) as G.
      apply get_session_Some. split; [done|].
      destruct (W1 _ _ G) as (Hlt & _).
      by rewrite Hh, lookup_insert_ne in G2 by (symmetry; by apply Hold). }
    split; [|split; [|split]].
    + intros sid' a' G%Hreg. destruct (W1 _ _ G) as (Hlt & s' & Hs' & Hl).
      split; [lia|]. exists s'. split.
      * rewrite Hh, lookup_insert_ne; [done | symmetry; by apply Hold].
      * apply (live_mono mid st' s' s'); [done | lia | done].
    + intros sid1 sid2 a0 G1%Hreg G2%Hreg. by apply (W2 sid1 sid2 a0).
    + intros sid1 sid2 a1 a2 s1 s2 c G1%Hget G2%Hget.
      by apply (W3 sid1 sid2 a1 a2 s1 s2 c).
    + intros c. rewrite Hal, Hn. intros Hc%W4. lia.
  - destruct (start_succeeded sid data env st Ha He)
      as (code_path & Ht & Hh & Hal & _ & _ & Hn).
    fold mid in Ht, Hh, Hal, Hn.
    set (st' := start_session sid data env st) in *.
    set (new := Session _ _ _ _ _ _ _) in Hh.
    assert (Hlive : live st' new).
    { unfold live, new. simpl. split; [done|]. split; [exists (S (next_id mid)); split; [done|lia]|].
      split; [by eexists|]. split; [by eexists|].
      unfold fresh_session. destruct (String.eqb _ _); simpl; [right | left]; by split. }
    assert (Hget : ∀ sid' a' s', get_session sid' st' = Some (a', s') →
                   (sid' = sid ∧ a' = next_id mid ∧ s' = new) ∨
                   (sid' ≠ sid ∧ get_session sid' mid = Some (a', s'))).
    { intros sid' a' s' [G1 G2]%get_session_Some. rewrite Ht in G1. rewrite Hh in G2.
      destruct (decide (sid' = sid)) as [->|Hne].
      - rewrite lookup_insert_eq in G1. injection G1 as <-.
        rewrite lookup_insert_eq in G2. injection G2 as <-. by left.
      - rewrite lookup_insert_ne in G1 by done. right. split; [done|].
        apply get_session_Some. split; [done|].
        destruct (W1 _ _ G1) as (Hlt & _).
        by rewrite lookup_insert_ne in G2 by (symmetry; by apply Hold). }
    split; [|split; [|split]].
    + intros sid' a'. rewrite Ht. destruct (decide (sid' = sid)) as [->|Hne].
      * rewrite lookup_insert_eq. intros [= <-]. split; [lia|].
        exists new. split; [by rewrite Hh, lookup_insert_eq | done].
      * rewrite lookup_insert_ne by done. intros G.
        destruct (W1 _ _ G) as (Hlt & s' & Hs' & Hl).
        split; [lia|]. exists s'. split.
        -- rewrite Hh, lookup_insert_ne; [done | symmetry; by apply Hold].
        -- apply (live_mono mid st' s' s'); [done | lia | done].
    + intros sid1 sid2 a0. rewrite Ht.
      destruct (decide (sid1 = sid)) as [->|H1]; destruct (decide (sid2 = sid)) as [->|H2];
        rewrite ?lookup_insert_eq, ?lookup_insert_ne by done; try done.
      * intros [= <-] G. destruct (W1 _ _ G) as (Hlt & _). lia.
      * intros G [= <-]. destruct (W1 _ _ G) as (Hlt & _). lia.
      * apply W2.
    + intros sid1 sid2 a1 a2 s1 s2 c G1 G2 Hc1 Hc2.
      assert (Hchild : ∀ sid' a' s', get_session sid' mid = Some (a', s') →
                       child s' = Some c → c < next_id mid).
      { intros sid' a' s' [K1 K2]%get_session_Some Hc.
        destruct (W1 _ _ K1) as (_ & s0 & Hs0 & (_ & (c0 & Hc0 & Hlt) & _)).
        rewrite K2 in Hs0. injection Hs0 as <-. congruence. }
      destruct (Hget _ _ _ G1) as [(-> & -> & ->) | (N1 & K1)];
        destruct (Hget _ _ _ G2) as [(-> & -> & ->) | (N2 & K2)]; try done.
      * pose proof (Hchild _ _ _ K2 Hc2). unfold new in Hc1. simpl in Hc1.
        injection Hc1 as <-. lia.
      * pose proof (Hchild _ _ _ K1 Hc1). unfold new in Hc2. simpl in Hc2.
        injection Hc2 as <-. lia.
      * by apply (W3 sid1 sid2 a1 a2 s1 s2 c).
    + intros c. rewrite Hal, Hn. intros [->%elem_of_singleton | Hc%W4]%elem_of_union; lia.
Qed.

Lemma pump_loop_rest p polls st :
  let st1 := loop_state (pump_loop p polls st) in
  alive st1 ⊆ alive st ∧ threads st1 = threads st ∧ next_id st1 = next_id st ∧
  PIL_ENABLED st1 = PIL_ENABLED st.
Proof.
  revert st. induction polls as [|o polls IH]; intros st; cbn [pump_loop].
  - destruct (obj_closing p st); [done|].
    by destruct (negb (isalive (p_child p) st)).
  - destruct (obj_closing p st); [done|].
    destruct (negb (isalive (p_child p) st)); [done|].
    destruct o as [|t| | |e]; cbn [loop_state]; try done.
    + simpl. repeat split. set_solver.
    + destruct (Py.truthy t).
      * apply (IH (emit (python_output t) (p_sid p)
                     (record (ReadNonblocking (p_child p)) st))).
      * apply (IH (record (ReadNonblocking (p_child p)) st)).
    + apply (IH (record (ReadNonblocking (p_child p)) st)).
Qed.

Lemma wf_loop p polls st : wf st → wf (loop_state (pump_loop p polls st)).
Proof.
  destruct (pump_loop_frame p polls st) as (Ht & Hh & _).
  destruct (pump_loop_rest p polls st) as (Hal & _ & Hn & _).
  apply wf_frame; try done.
  - intros a. by rewrite Hh.
  - by rewrite Hn.
Qed.

Lemma quiet_drain p leftover st : quiet st (pump_drain p leftover st).
Proof.
  destruct (obj_closing p st) eqn:Hc.
  - rewrite (pump_drain_closing p leftover st Hc). apply quiet_refl.
  - apply quiet_same_world, (pump_drain_open p leftover st Hc).
Qed.

Lemma wf_finish p listing probe st : wf st → wf (pump_finish p listing probe st).
Proof.
  intros Hwf. unfold pump_finish. apply wf_cleanup.
  destruct (obj_closing p st); [done|].
  apply (wf_quiet st); [|done].
  eapply quiet_trans; [apply quiet_scan | apply quiet_record].
Qed.

Lemma wf_send_input sid line st : wf st → wf (handle_send_input sid line st).
Proof.
  intros Hwf.
  assert (Hq : ∀ e1 e2, wf (record e2 (record e1 st))).
  { intros e1 e2. apply (wf_quiet st); [|done].
    eapply quiet_trans; apply quiet_record. }
  unfold handle_send_input.
  destruct (get_session sid st) as [[a s]|]; [|apply Hq].
  destruct (closing s); [apply wf_cleanup, Hq|].
  destruct (child s) as [c|]; [|apply wf_cleanup, Hq].
  destruct (isalive c st); [|apply wf_cleanup, Hq].
  apply (wf_quiet st); [apply quiet_record | done].
Qed.

Lemma wf_disconnect sid st : wf st → wf (handle_disconnect_session sid st).
Proof.
  intros Hwf. unfold handle_disconnect_session.
  eapply wf_quiet; [apply quiet_record|].
  apply wf_cleanup.
  destruct (get_session sid st) as [[a s]|]; [|done].
  destruct (closing s); [done|].
  apply (wf_quiet st); [apply quiet_record | done].
Qed.

Lemma wf_run ev st : wf st → wf (run ev st).
Proof.
  intros Hwf. destruct ev; cbn [run].
  - by apply wf_start.
  - by apply wf_send_input.
  - by apply wf_disconnect.
  - destruct (threads st !! t) as [p|]; [|done].
    pose proof (wf_loop p polls st Hwf) as Hl.
    destruct (pump_loop p polls st) as [st1|st1|e st1]; cbn [loop_state] in Hl;
      [done..|].
    apply (wf_quiet st1); [apply quiet_record | done].
  - destruct (threads st !! t) as [p|]; [|done].
    apply (wf_quiet st); [apply quiet_drain | done].
  - destruct (threads st !! t); [by apply wf_finish | done].
Qed.

Lemma wf_initial pil : wf (initial pil).
Proof.
  unfold wf, initial, get_session. simpl.
  split; [|split; [|split]]; intros *; rewrite ?lookup_empty; try done.
  all: set_solver.
Qed.

Lemma wf_run_all evs st : wf st → wf (run_all evs st).
Proof.
  unfold run_all. revert st.
  induction evs as [|ev evs IH]; intros st Hwf; [done|].
  simpl. apply IH. by apply wf_run.
Qed.

(** ** One client's requests and the other clients *)

Lemma no_emit_teardown s st : no_emit (teardown s st).
Proof.
  unfold no_emit, teardown, kills, removals.
  repeat apply Forall_app_2; repeat case_match;
    repeat (apply List.Forall_cons; [by intros ? ?|]); apply List.Forall_nil.
Qed.

Lemma apart_refl sid' st : apart sid' st st.
Proof.
  split; [done|]. split; [done|]. exists []. split; [by rewrite app_nil_r | constructor].
Qed.

Lemma apart_trans sid' st1 st2 st3 :
  apart sid' st1 st2 → apart sid' st2 st3 → apart sid' st1 st3.
Proof.
  intros (G1 & A1 & l1 & L1 & N1) (G2 & A2 & l2 & L2 & N2).
  split; [congruence|]. split.
  - intros a' s' c' Hg Hc. rewrite (A2 a' s' c'); [by apply (A1 a' s' c') | congruence | done].
  - exists (l1 ++ l2). split; [by rewrite L2, L1, app_assoc | by apply Forall_app_2].
Qed.

Lemma apart_record sid' e st :
  (∀ p, e ≠ Emit p sid') → apart sid' st (record e st).
Proof.
  intros He. split; [done|]. split; [done|].
  exists [e]. split; [done | by constructor].
Qed.

Lemma not_to_no_emit sid' l : no_emit l → not_to sid' l.
Proof. intros H. eapply Forall_impl; [exact H|]. intros e He p. apply He. Qed.

Lemma apart_cleanup sid sid' st :
  wf st → sid' ≠ sid → apart sid' st (cleanup_ephemeral_session sid st).
Proof.
  intros Hwf Hne.
  split; [by apply get_session_cleanup_other|].
  destruct (get_session sid st) as [[a s]|] eqn:Hget;
    [|rewrite (cleanup_absent sid st Hget); apply apart_refl].
  destruct (closing s) eqn:Hc;
    [rewrite (cleanup_closing sid st a s Hget Hc); apply apart_refl|].
  split.
  - intros a' s' c' Hg' Hc'. unfold isalive.
    rewrite (cleanup_alive sid st a s Hget Hc).
    apply bool_decide_ext. unfold child_set.
    destruct (child s) as [c|] eqn:Hch; [|set_solver].
    assert (c' ≠ c); [|set_solver].
    intros ->. apply Hne. destruct Hwf as (_ & _ & W3 & _).
    by apply (W3 sid' sid a' a s' s c).
  - exists (teardown s st). split; [by apply (cleanup_log sid st a s)|].
    apply not_to_no_emit, no_emit_teardown.
Qed.

Lemma apart_send_input sid sid' line st :
  wf st → sid' ≠ sid → apart sid' st (handle_send_input sid line st).
Proof.
  intros Hwf Hne.
  assert (Hrec : ∀ e, (∀ p, e ≠ Emit p sid') → ∀ st0, apart sid' st st0 →
                 apart sid' st (record e st0)).
  { intros e He st0 H0. eapply apart_trans; [exact H0 | by apply apart_record]. }
  assert (Hto : ∀ p p', Emit p sid ≠ Emit p' sid') by (intros p p' [=]; congruence).
  assert (Hcl : ∀ e1 e2, (∀ p, e1 ≠ Emit p sid') → (∀ p, e2 ≠ Emit p sid') →
                apart sid' st (cleanup_ephemeral_session sid (record e2 (record e1 st)))).
  { intros e1 e2 H1 H2.
    eapply apart_trans; [apply Hrec; [exact H2|]; apply Hrec; [exact H1|]; apply apart_refl|].
    apply apart_cleanup; [|done].
    apply (wf_quiet st); [|done]. eapply quiet_trans; apply quiet_record. }
  unfold handle_send_input.
  destruct (get_session sid st) as [[a s]|].
  - destruct (closing s); [apply Hcl; intros p; apply Hto|].
    destruct (child s) as [c|]; [|apply Hcl; intros p; apply Hto].
    destruct (isalive c st); [|apply Hcl; intros p; apply Hto].
    by apply apart_record.
  - apply Hrec; [intros p; apply Hto|]. apply Hrec; [intros p; apply Hto|].
    apply apart_refl.
Qed.

Lemma apart_disconnect sid sid' st :
  wf st → sid' ≠ sid → apart sid' st (handle_disconnect_session sid st).
Proof.
  intros Hwf Hne.
  assert (Hto : ∀ p p', Emit p sid ≠ Emit p' sid') by (intros p p' [=]; congruence).
  unfold handle_disconnect_session.
  eapply apart_trans; [|apply apart_record; intros p; apply Hto].
  destruct (get_session sid st) as [[a s]|]; [destruct (closing s)|];
    try by apply apart_cleanup.
  eapply apart_trans; [apply apart_record; intros p; apply Hto|].
  apply apart_cleanup; [|done]. apply (wf_quiet st); [apply quiet_record | done].
Qed.

Lemma scan_step_refl sid a st : scan_step sid a st st.
Proof.
  repeat split; try done. exists []. split; [by rewrite app_nil_r | constructor].
Qed.

Lemma scan_step_trans sid a st1 st2 st3 :
  scan_step sid a st1 st2 → scan_step sid a st2 st3 → scan_step sid a st1 st3.
Proof.
  intros (T1 & A1 & H1 & l1 & L1 & F1) (T2 & A2 & H2 & l2 & L2 & F2).
  split; [congruence|]. split; [congruence|]. split.
  - intros a' Ha'. by rewrite H2, H1.
  - exists (l1 ++ l2). split; [by rewrite L2, L1, app_assoc | by apply Forall_app_2].
Qed.

Lemma scan_step_record sid a e st :
  scan_effect sid e → scan_step sid a st (record e st).
Proof. intros He. repeat split; try done. exists [e]. split; [done | by constructor]. Qed.

Lemma scan_step_handle sid a s path obs st :
  get_session sid st = Some (a, s) →
  scan_step sid a st (handle_plot_file sid path obs st).
Proof.
  intros Hget. unfold handle_plot_file. rewrite Hget.
  destruct obs as [|e|im bytes]; [by apply scan_step_record..|].
  split; [done|]. split; [done|]. split.
  - intros a' Ha'. simpl. by rewrite lookup_alter_ne.
  - eexists [_]. split; [reflexivity|]. by constructor.
Qed.

Lemma scan_step_get sid a s st st' :
  get_session sid st = Some (a, s) → scan_step sid a st st' → quiet st st' →
  ∃ s', get_session sid st' = Some (a, s').
Proof.
  intros [Ht Hs]%get_session_Some (T & _) (_ & Hc & _).
  specialize (Hc a). rewrite Hs in Hc.
  destruct (heap st' !! a) as [s'|] eqn:Hs'; [|done].
  exists s'. apply get_session_Some. by rewrite T.
Qed.

Lemma scan_step_paths sid a s probe paths st :
  get_session sid st = Some (a, s) →
  scan_step sid a st (scan_paths sid a probe paths st).
Proof.
  revert s st. unfold scan_paths.
  induction paths as [|path paths IH]; intros s st Hget; [apply scan_step_refl|].
  simpl. destruct (is_sent a path st).
  - by apply (IH s).
  - pose proof (scan_step_handle sid a s path (probe path) st Hget) as Hstep.
    destruct (scan_step_get sid a s st _ Hget Hstep (quiet_handle_plot_file _ _ _ _))
      as [s' Hget'].
    eapply scan_step_trans; [exact Hstep | by apply (IH s')].
Qed.

Lemma scan_step_scan sid a s listing probe st :
  get_session sid st = Some (a, s) →
  scan_step sid a st (scan_for_new_images sid listing probe st).
Proof.
  intros Hget. unfold scan_for_new_images. rewrite Hget.
  destruct (temp_dir s) as [tmp_dir|]; [|apply scan_step_refl].
  destruct (_ || _); [apply scan_step_refl|].
  unfold patterns. cbn [fold_left].
  set (g1 := Glob (OsPath.join tmp_dir "*.png")).
  set (g2 := Glob (OsPath.join tmp_dir "*.jpg")).
  set (g3 := Glob (OsPath.join tmp_dir "*.jpeg")).
  assert (Hround : ∀ g paths s0 st0, scan_effect sid g → get_session sid st0 = Some (a, s0) →
            scan_step sid a st0 (scan_paths sid a probe paths (record g st0)) ∧
            ∃ s1, get_session sid (scan_paths sid a probe paths (record g st0)) = Some (a, s1)).
  { intros g paths s0 st0 Hg Hg0.
    assert (Hg1 : get_session sid (record g st0) = Some (a, s0)) by exact Hg0.
    pose proof (scan_step_paths sid a s0 probe paths _ Hg1) as Hp.
    split.
    - eapply scan_step_trans; [by apply scan_step_record | exact Hp].
    - apply (scan_step_get sid a s0 (record g st0)); [done | done | apply quiet_scan_paths]. }
  destruct (Hround g1 (Glob.glob (OsPath.join tmp_dir "*.png") (listing "*.png"%string))
              s st I Hget) as (S1 & s1 & G1).
  destruct (Hround g2 (Glob.glob (OsPath.join tmp_dir "*.jpg") (listing "*.jpg"%string))
              s1 _ I G1) as (S2 & s2 & G2).
  destruct (Hround g3 (Glob.glob (OsPath.join tmp_dir "*.jpeg") (listing "*.jpeg"%string))
              s2 _ I G2) as (S3 & _).
  eapply scan_step_trans; [exact S1|]. eapply scan_step_trans; [exact S2 | exact S3].
Qed.

Lemma scan_effect_not_to sid sid' l :
  sid' ≠ sid → Forall (scan_effect sid) l → not_to sid' l.
Proof.
  intros Hne H. eapply Forall_impl; [exact H|].
  intros e He p ->. destruct p; simpl in He; first [done | congruence].
Qed.

Lemma apart_scan sid sid' listing probe st :
  wf st → sid' ≠ sid → apart sid' st (scan_for_new_images sid listing probe st).
Proof.
  intros (_ & W2 & _) Hne.
  destruct (get_session sid st) as [[a s]|] eqn:Hget.
  - destruct (scan_step_scan sid a s listing probe st Hget) as (T & A & H & l & L & F).
    apply get_session_Some in Hget as [Hta _].
    split; [|split].
    + unfold get_session. rewrite T.
      destruct (ephemeral_sessions st !! sid') as [a'|] eqn:Ha'; [|done]. simpl.
      rewrite H; [done|]. intros ->. apply Hne. by apply (W2 sid' sid a).
    + intros a' s' c' _ _. unfold isalive. by rewrite A.
    + exists l. split; [done | by apply (scan_effect_not_to sid)].
  - unfold scan_for_new_images. rewrite Hget. apply apart_refl.
Qed.

Lemma apart_finish p sid' listing probe st :
  wf st → sid' ≠ p_sid p → apart sid' st (pump_finish p listing probe st).
Proof.
  intros Hwf Hne. unfold pump_finish.
  destruct (obj_closing p st); [by apply apart_cleanup|].
  eapply apart_trans; [apply apart_scan; [done | exact Hne]|].
  eapply apart_trans;
    [apply (apart_record sid' (Emit process_ended (p_sid p)));
     intros q Hq; injection Hq as _ Hq; by apply Hne|].
  apply apart_cleanup; [|done].
  eapply wf_quiet; [|exact Hwf].
  eapply quiet_trans; [apply quiet_scan | apply quiet_record].
Qed.

Lemma is_file_setup_not_to sid' l : Forall is_file_setup l → not_to sid' l.
Proof.
  intros H. eapply Forall_impl; [exact H|]. intros e He p ->. exact He.
Qed.

Lemma apart_start sid sid' data env st :
  wf st → sid' ≠ sid → apart sid' st (start_session sid data env st).
Proof.
  intros Hwf Hne.
  assert (Hto : ∀ p p', Emit p sid ≠ Emit p' sid') by (intros p p' [=]; congruence).
  destruct (accepted data) eqn:Ha.
  2:{ destruct (setup_rejected sid data env st Ha) as [msg Hm].
      unfold start_session. rewrite Hm. apply apart_record. intros p. apply Hto. }
  eapply apart_trans; [by apply (apart_cleanup sid)|].
  pose proof (wf_cleanup sid st Hwf) as (W1 & _).
  set (mid := cleanup_ephemeral_session sid st) in *.
  destruct (setup_accepted sid data env st Ha)
    as (sp & s_new & prefix & l0 & Hsp & _ & _ & _ & _ & _ & _ & _ & _ & _ & _ & _ & Hlog & Hfs).
  fold mid in Hlog.
  assert (Hold : ∀ a' s' c', get_session sid' mid = Some (a', s') →
                 a' ≠ next_id mid ∧ (child s' = Some c' → c' ≠ S (next_id mid))).
  { intros a' s' c' [Hta Hs]%get_session_Some.
    destruct (W1 sid' a' Hta) as (Hlt & s0 & Hs0 & (_ & (c & Hc & Hclt) & _)).
    split; [lia|]. rewrite Hs in Hs0. injection Hs0 as <-. intros Hc'. 
    rewrite Hc in Hc'. injection Hc' as <-. lia. }
  assert (Hgs : ∀ st',
            ephemeral_sessions st' !! sid' = ephemeral_sessions mid !! sid' →
            (∀ a', a' ≠ next_id mid → heap st' !! a' = heap mid !! a') →
            get_session sid' st' = get_session sid' mid).
  { intros st' Ht Hh. unfold get_session. rewrite Ht.
    destruct (ephemeral_sessions mid !! sid') as [a'|] eqn:Hta; [|done]. simpl.
    destruct (W1 sid' a' Hta) as (Hlt & _). rewrite Hh; [done | lia]. }
  destruct (spawn_error env) as [e|] eqn:He.
  - destruct (start_failed sid data env st e Ha He) as (Ht & Hh & Hal & _).
    fold mid in Ht, Hh, Hal.
    destruct (spawn_failed sid env sp e He) as (_ & _ & _ & _ & Hl).
    split; [|split].
    + apply Hgs.
      * by rewrite Ht, lookup_delete_ne.
      * intros a' Ha'. by rewrite Hh, lookup_insert_ne.
    + intros a' s' c' _ _. unfold isalive. by rewrite Hal.
    + unfold start_session. rewrite Hsp, Hl, Hlog. eexists.
      split; [rewrite <- !app_assoc; reflexivity|].
      apply Forall_app_2; [|apply Forall_app_2].
      * apply List.Forall_cons; [by intros ?|]. by apply is_file_setup_not_to.
      * apply List.Forall_cons; [by intros ?|].
        apply List.Forall_cons; [intros p; apply Hto|]. constructor.
      * destruct (sp_sql sp); repeat constructor. by intros ?.
  - destruct (start_succeeded sid data env st Ha He) as (code_path & Ht & Hh & Hal & _).
    fold mid in Ht, Hh, Hal.
    destruct (spawn_succeeded sid env sp He) as (_ & _ & _ & _ & _ & Hl).
    split; [|split].
    + apply Hgs.
      * by rewrite Ht, lookup_insert_ne.
      * intros a' Ha'. by rewrite Hh, lookup_insert_ne.
    + intros a' s' c' Hg Hc. unfold isalive. rewrite Hal.
      destruct (Hold a' s' c' Hg) as [_ Hc']. specialize (Hc' Hc).
      apply bool_decide_ext. set_solver.
    + unfold start_session. rewrite Hsp, Hl, Hlog. eexists.
      split; [rewrite <- !app_assoc; reflexivity|].
      apply Forall_app_2.
      * apply List.Forall_cons; [by intros ?|]. by apply is_file_setup_not_to.
      * apply List.Forall_cons; [by intros ?|].
        apply List.Forall_cons; [by intros ?|].
        apply List.Forall_cons; [intros p; apply Hto|]. constructor.
Qed.

(** X11: the requests of one client, and the last step of its thread, leave
    every other client alone, in every state the server can reach: the
    other client's session is what it was, its child runs or not as
    before, and no event is sent to it. *)
Theorem other_clients_untouched (evs : list event) (pil : bool) (sid sid' : string) :
  sid' ≠ sid →
  let st := run_all evs (initial pil) in
  (∀ data env, apart sid' st (start_session sid data env st)) ∧
  (∀ line, apart sid' st (handle_send_input sid line st)) ∧
  apart sid' st (handle_disconnect_session sid st) ∧
  apart sid' st (cleanup_ephemeral_session sid st) ∧
  (∀ p listing probe, p_sid p = sid → apart sid' st (pump_finish p listing probe st)).
Proof.
  intros Hne st.
  pose proof (wf_run_all evs (initial pil) (wf_initial pil)) as Hwf. fold st in Hwf.
  split; [intros; by apply apart_start|].
  split; [intros; by apply apart_send_input|].
  split; [by apply apart_disconnect|].
  split; [by apply apart_cleanup|].
  intros p listing probe <-. by apply apart_finish.
Qed.

(** ** A session from start to end *)

Lemma pump_loop_alive p polls st :
  alive (loop_state (pump_loop p polls st)) = alive st ∨
  alive (loop_state (pump_loop p polls st)) = alive st ∖ {[p_child p]}.
Proof.
  revert st. induction polls as [|o polls IH]; intros st; cbn [pump_loop].
  - destruct (obj_closing p st); [by left|].
    destruct (negb (isalive (p_child p) st)); by left.
  - destruct (obj_closing p st); [by left|].
    destruct (negb (isalive (p_child p) st)); [by left|].
    destruct o as [|t| | |e]; cbn [loop_state].
    + by right.
    + destruct (Py.truthy t).
      * apply (IH (emit (python_output t) (p_sid p)
                     (record (ReadNonblocking (p_child p)) st))).
      * apply (IH (record (ReadNonblocking (p_child p)) st)).
    + apply (IH (record (ReadNonblocking (p_child p)) st)).
    + by left.
    + by left.
Qed.

(** The state from which the thread takes its last step. *)
Lemma pump_before_finish p polls leftover st st0 :
  pump_advance AtFinish p polls leftover st = Some st0 →
  ephemeral_sessions st0 = ephemeral_sessions st ∧ heap st0 = heap st ∧
  dirs st0 = dirs st ∧
  (alive st0 = alive st ∨ alive st0 = alive st ∖ {[p_child p]}).
Proof.
  unfold pump_advance.
  pose proof (pump_loop_frame p polls st) as (Ht & Hh & Hd & _).
  pose proof (pump_loop_alive p polls st) as Hal.
  destruct (pump_loop p polls st) as [st1|st1|e st1]; cbn [loop_state] in *; [done| |].
  - intros [= <-].
    assert (Hq : same_world st1 (pump_drain p leftover st1)).
    { destruct (obj_closing p st1) eqn:Hc.
      - rewrite (pump_drain_closing p leftover st1 Hc). apply same_world_refl.
      - apply (pump_drain_open p leftover st1 Hc). }
    destruct Hq as (T & H & A & D & _). rewrite T, H, A, D. done.
  - intros [= <-]. done.
Qed.

(** The last step of the thread on its own open session. *)
Lemma pump_finish_release p s listing probe st :
  get_session (p_sid p) st = Some (p_obj p, s) →
  closing s = false →
  let st' := pump_finish p listing probe st in
  ephemeral_sessions st' = delete (p_sid p) (ephemeral_sessions st) ∧
  alive st' = alive st ∖ child_set s ∧
  dirs st' = dirs st ∖ workspace s.
Proof.
  intros Hget Hopen. unfold pump_finish.
  pose proof (proj1 (get_session_Some _ _ _ _) Hget) as [Hta Hs].
  assert (Hc : obj_closing p st = false) by (unfold obj_closing; by rewrite Hs).
  rewrite Hc.
  pose proof (quiet_scan (p_sid p) listing probe st) as (T & C & A & D & _).
  set (st3 := scan_for_new_images (p_sid p) listing probe st) in *.
  destruct (core_lookup (heap st3) (heap st) (p_obj p) s) as (s3 & Hs3 & Hcore).
  { by rewrite C. }
  { done. }
  assert (Hcore' : core s3 = core s).
  { pose proof (C (p_obj p)) as E. rewrite Hs, Hs3 in E. simpl in E. congruence. }
  clear Hcore.
  destruct (core_fields _ _ Hcore') as (Hcl & Hch & _ & _ & Htd & Hsd).
  assert (Hg3 : get_session (p_sid p) (emit process_ended (p_sid p) st3)
                = Some (p_obj p, s3)).
  { apply get_session_Some. simpl. by rewrite T. }
  assert (Ho3 : closing s3 = false) by congruence.
  rewrite (cleanup_table _ _ _ _ Hg3 Ho3), (cleanup_alive _ _ _ _ Hg3 Ho3),
    (cleanup_dirs _ _ _ _ Hg3 Ho3).
  simpl. rewrite T, A, D. unfold child_set, workspace. by rewrite Hch, Htd, Hsd.
Qed.

(** X12: a session of a client that had none, from its start to its end,
    leaves the server as it found it: whether the client disconnects or the
    thread runs to its end, the table, the running processes and the
    directories are afterwards what they were before the start.  The
    thread that [start_session] starts is the one that reads the new
    child. *)
Theorem session_leaves_nothing (evs : list event) (pil : bool) (sid : string)
    (data : start_data) (env : start_env) :
  let st := run_all evs (initial pil) in
  ephemeral_sessions st !! sid = None →
  accepted data = true →
  spawn_error env = None →
  Py.truthy (mkdtemp_path env) = true →
  mkdtemp_path env ∉ dirs st →
  let st1 := start_session sid data env st in
  let p := Pump sid (next_id st) (S (next_id st)) in
  threads st1 !! S (S (next_id st)) = Some p ∧
  isalive (p_child p) st1 = true ∧
  (let st2 := handle_disconnect_session sid st1 in
   ephemeral_sessions st2 = ephemeral_sessions st ∧ alive st2 = alive st ∧
   dirs st2 = dirs st) ∧
  (∀ polls leftover listing probe st2,
     read_output p polls leftover listing probe st1 = Some st2 →
     ephemeral_sessions st2 = ephemeral_sessions st ∧ alive st2 = alive st ∧
     dirs st2 = dirs st).
Proof.
  intros st Hnone Ha He Htruthy Hfresh st1 p.
  pose proof (wf_run_all evs (initial pil) (wf_initial pil)) as Hwf. fold st in Hwf.
  assert (Hmid : cleanup_ephemeral_session sid st = st).
  { apply cleanup_absent. unfold get_session. by rewrite Hnone. }
  destruct (start_succeeded sid data env st Ha He)
    as (code_path & Ht & Hh & Hal & Hd & Hth & _).
  rewrite Hmid in Ht, Hh, Hal, Hd, Hth. fold st1 in Ht, Hh, Hal, Hd, Hth.
  set (n := next_id st) in *.
  set (new := Session _ _ _ _ _ _ _) in Hh.
  assert (Hget : get_session sid st1 = Some (n, new)).
  { apply get_session_Some. by rewrite Ht, Hh, !lookup_insert_eq. }
  assert (Hchild : child_set new = {[S n]}) by done.
  assert (Hws : workspace new = {[mkdtemp_path env]}).
  { unfold workspace, new, fresh_session, dir_set.
    destruct (String.eqb _ _); simpl; rewrite Htruthy; set_solver. }
  assert (Hnew : S n ∉ alive st).
  { destruct Hwf as (_ & _ & _ & W4). intros Hin%W4. subst n. lia. }
  assert (Htab : delete sid (ephemeral_sessions st1) = ephemeral_sessions st).
  { by rewrite Ht, delete_insert_eq, delete_id. }
  split; [by rewrite Hth, lookup_insert_eq|].
  split; [unfold isalive; simpl; rewrite Hal; apply bool_decide_eq_true; set_solver|].
  split.
  - unfold handle_disconnect_session. rewrite Hget. cbn [closing new].
    set (st1' := emit _ sid st1).
    assert (Hg : get_session sid st1' = Some (n, new)) by exact Hget.
    simpl.
    rewrite (cleanup_table _ _ _ _ Hg eq_refl), (cleanup_alive _ _ _ _ Hg eq_refl),
      (cleanup_dirs _ _ _ _ Hg eq_refl).
    simpl. rewrite Hchild, Hws, Hal, Hd. split; [exact Htab|]. split; set_solver.
  - intros polls leftover listing probe st2 Hrun.
    unfold read_output, pump_resume in Hrun.
    assert (Hfin : ∃ st0, pump_advance AtFinish p polls leftover st1 = Some st0 ∧
                          st2 = pump_finish p listing probe st0).
    { unfold pump_advance.
      destruct (pump_loop p polls st1); [done| |]; injection Hrun as <-; eauto. }
    destruct Hfin as (st0 & Hadv & ->).
    destruct (pump_before_finish p polls leftover st1 st0 Hadv) as (T0 & H0 & D0 & A0).
    assert (Hg0 : get_session (p_sid p) st0 = Some (p_obj p, new)).
    { apply get_session_Some. rewrite T0, H0. by apply get_session_Some. }
    destruct (pump_finish_release p new listing probe st0 Hg0 eq_refl) as (T & A & D).
    rewrite T, A, D, T0, D0, Hchild, Hws, Hd. split; [exact Htab|].
    split; [|set_solver].
    destruct A0 as [-> | ->]; rewrite Hal; simpl; set_solver.
Qed.

(** ** What the client reads *)

Lemma append_empty_r (x : string) : (x ++ "")%string = x.
Proof.
  induction x as [|c x IH]; [done|].
  change (String c (x ++ "")%string = String c x). by rewrite IH.
Qed.

Lemma append_empty_l (x : string) : ("" ++ x)%string = x.
Proof. reflexivity. Qed.

Ltac text_norm :=
  cbn [output_text default];
  repeat first [rewrite append_assoc | rewrite append_empty_r | rewrite append_empty_l].

Lemma output_text_app sid l1 l2 :
  output_text sid (l1 ++ l2) = (output_text sid l1 ++ output_text sid l2)%string.
Proof.
  induction l1 as [|e l1 IH]; [done|].
  destruct e as [pl room| | | | | | | | | | | |]; cbn [app output_text]; try exact IH.
  destruct pl; try exact IH. by rewrite IH, append_assoc.
Qed.

Lemma output_text_emit sid t :
  output_text sid [Emit (python_output t) sid] = t.
Proof. cbn [output_text]. by rewrite String.eqb_refl, append_empty_r. Qed.

Lemma output_text_scan sid sid' l :
  Forall (scan_effect sid') l → output_text sid l = "".
Proof.
  induction 1 as [|e l He _ IH]; [done|].
  destruct e as [pl room| | | | | | | | | | | |]; cbn [output_text]; try exact IH.
  destruct pl; first [exact IH | done].
Qed.

Lemma output_text_no_emit sid l : no_emit l → output_text sid l = "".
Proof.
  induction 1 as [|e l He _ IH]; [done|].
  destruct e as [pl room| | | | | | | | | | | |]; cbn [output_text]; try exact IH.
  by destruct (He pl room).
Qed.

Lemma scan_log sid listing probe st :
  ∃ l, log (scan_for_new_images sid listing probe st) = log st ++ l ∧
       Forall (scan_effect sid) l.
Proof.
  destruct (get_session sid st) as [[a s]|] eqn:Hget.
  - by destruct (scan_step_scan sid a s listing probe st Hget) as (_ & _ & _ & H).
  - unfold scan_for_new_images. rewrite Hget. exists [].
    split; [by rewrite app_nil_r | constructor].
Qed.

Lemma cleanup_log_no_emit sid st :
  ∃ l, log (cleanup_ephemeral_session sid st) = log st ++ l ∧ no_emit l.
Proof.
  destruct (get_session sid st) as [[a s]|] eqn:Hget.
  - destruct (closing s) eqn:Hcl.
    + rewrite (cleanup_closing sid st a s Hget Hcl). exists [].
      split; [by rewrite app_nil_r | constructor].
    + exists (teardown s st). split; [by apply (cleanup_log sid st a s) |].
      apply no_emit_teardown.
  - rewrite (cleanup_absent sid st Hget). exists [].
    split; [by rewrite app_nil_r | constructor].
Qed.

(** The loop on an open object with a live child: what it has forwarded
    when it is left, and how it is left. *)
Lemma pump_loop_text p polls st :
  obj_closing p st = false → isalive (p_child p) st = true →
  existsb ends_loop polls = true →
  ∃ st1, obj_closing p st1 = false ∧
    output_text (p_sid p) (log st1) =
      (output_text (p_sid p) (log st) ++ polled_text polls)%string ∧
    ((fails polls = false ∧ pump_loop p polls st = LoopExit st1) ∨
     (fails polls = true ∧ ∃ e, pump_loop p polls st = Raised e st1)).
Proof.
  revert st. induction polls as [|o polls IH]; intros st Hc Hal Hend; [done|].
  cbn [pump_loop]. rewrite Hc, Hal. cbn [negb].
  destruct o as [|t| | |e]; cbn [polled_text fails].
  - exists (child_exit (p_child p) st). split; [exact Hc|].
    split; [by rewrite append_empty_r | by left].
  - set (st0 := record (ReadNonblocking (p_child p)) st).
    assert (Hstep : ∀ st2, obj_closing p st2 = false → isalive (p_child p) st2 = true →
              output_text (p_sid p) (log st2) =
                (output_text (p_sid p) (log st) ++ t)%string →
              ∃ st1, obj_closing p st1 = false ∧
                output_text (p_sid p) (log st1) =
                  (output_text (p_sid p) (log st) ++ t ++ polled_text polls)%string ∧
                ((fails polls = false ∧ pump_loop p polls st2 = LoopExit st1) ∨
                 (fails polls = true ∧ ∃ e, pump_loop p polls st2 = Raised e st1))).
    { intros st2 Hc2 Hal2 Ht2.
      destruct (IH st2 Hc2 Hal2 Hend) as (st1 & Hc1 & Ht1 & Hres).
      exists st1. split; [exact Hc1|]. split; [|exact Hres].
      by rewrite Ht1, Ht2, append_assoc. }
    destruct (Py.truthy t) eqn:Ht.
    + apply Hstep; [exact Hc | exact Hal|].
      change (log (emit (python_output t) (p_sid p) st0))
        with ((log st ++ [ReadNonblocking (p_child p)]) ++ [Emit (python_output t) (p_sid p)]).
      rewrite !output_text_app, output_text_emit. cbn [output_text].
      by rewrite append_empty_r.
    + apply Hstep; [exact Hc | exact Hal|].
      change (log st0) with (log st ++ [ReadNonblocking (p_child p)]).
      rewrite output_text_app. f_equal. by destruct t.
  - destruct (IH (record (ReadNonblocking (p_child p)) st) Hc Hal Hend)
      as (st1 & Hc1 & Ht1 & Hres).
    exists st1. split; [exact Hc1|]. split; [|exact Hres].
    rewrite Ht1. change (log (record (ReadNonblocking (p_child p)) st))
      with (log st ++ [ReadNonblocking (p_child p)]).
    by rewrite output_text_app, append_empty_r.
  - exists (record (ReadNonblocking (p_child p)) st). split; [exact Hc|].
    split; [|by left].
    change (log (record (ReadNonblocking (p_child p)) st))
      with (log st ++ [ReadNonblocking (p_child p)]).
    by rewrite output_text_app.
  - exists st. split; [exact Hc|]. split; [by rewrite append_empty_r | right; eauto].
Qed.

Lemma pump_finish_text p listing probe st :
  output_text (p_sid p) (log (pump_finish p listing probe st)) =
  output_text (p_sid p) (log st).
Proof.
  unfold pump_finish.
  set (st1 := if obj_closing p st then st else _).
  assert (H1 : output_text (p_sid p) (log st1) = output_text (p_sid p) (log st)).
  { subst st1. destruct (obj_closing p st); [done|].
    destruct (scan_log (p_sid p) listing probe st) as (l & Hl & Hscan).
    change (log (emit process_ended (p_sid p) (scan_for_new_images (p_sid p) listing probe st)))
      with (log (scan_for_new_images (p_sid p) listing probe st)
            ++ [Emit process_ended (p_sid p)]).
    rewrite Hl, !output_text_app, (output_text_scan _ _ _ Hscan). cbn [output_text].
    by rewrite !append_empty_r. }
  destruct (cleanup_log_no_emit (p_sid p) st1) as (l & Hl & Hno).
  by rewrite Hl, output_text_app, (output_text_no_emit _ _ Hno), append_empty_r.
Qed.

(** X13: the thread of an open session with a live child sends the client the
    program's output as it was read: the chunks in the order of the reads
    up to the one that ends the loop, then, unless the loop ended by an
    exception, what the last read returned; nothing is sent twice, nothing
    is left out, and no other [python_output] event goes to the client. *)
Theorem output_forwarded_in_order (p : pump) (polls : list poll)
    (leftover : option string) (listing : string → list string)
    (probe : string → file_obs) (st : state) :
  obj_closing p st = false →
  isalive (p_child p) st = true →
  existsb ends_loop polls = true →
  ∃ st', read_output p polls leftover listing probe st = Some st' ∧
    output_text (p_sid p) (log st') =
      (output_text (p_sid p) (log st) ++ polled_text polls ++
       (if fails polls then "" else default "" leftover))%string.
Proof.
  intros Hc Hal Hend.
  destruct (pump_loop_text p polls st Hc Hal Hend) as (st1 & Hc1 & Ht1 & Hres).
  unfold read_output, pump_resume.
  destruct Hres as [[Hf ->] | [Hf [e ->]]]; rewrite Hf; eexists; (split; [reflexivity|]);
    rewrite pump_finish_text.
  - unfold pump_drain. rewrite Hc1.
    destruct leftover as [t|]; [destruct (Py.truthy t) eqn:Ht|];
      unfold emit, record; cbn [log]; rewrite !output_text_app, Ht1.
    + rewrite output_text_emit. by text_norm.
    + destruct t; [|done]. by text_norm.
    + by text_norm.
  - unfold emit, record; cbn [log]. rewrite output_text_app, Ht1. by text_norm.
Qed.

(** ** What a scan sends *)

Lemma scanned_refl sid a s probe st :
  get_session sid st = Some (a, s) → scanned sid a probe [] (sent_images s) st st.
Proof.
  intros Hget. exists s, []. split; [done|]. split; [done|].
  split; [by rewrite app_nil_r|]. split.
  - intros path. split; [by left|]. intros [H | [H _]]; [done|]. by apply elem_of_nil in H.
  - intros path im bytes H. by apply elem_of_nil in H.
Qed.

Lemma scanned_trans sid a probe p1 p2 sent0 st st1 st2 :
  scanned sid a probe p1 sent0 st st1 →
  (∀ s1, get_session sid st1 = Some (a, s1) →
         scanned sid a probe p2 (sent_images s1) st1 st2) →
  scanned sid a probe (p1 ++ p2) sent0 st st2.
Proof.
  intros (s1 & l1 & G1 & P1 & L1 & I1 & E1) H2.
  destruct (H2 s1 G1) as (s2 & l2 & G2 & P2 & L2 & I2 & E2).
  exists s2, (l1 ++ l2). split; [done|]. split; [congruence|].
  split; [by rewrite L2, L1, app_assoc|]. split.
  - intros path. rewrite I2, I1, elem_of_app. tauto.
  - intros path im bytes Hin Hr Hnew. apply elem_of_app.
    destruct (decide (path ∈ p1)) as [Hp1 | Hp1].
    + left. by apply (E1 path im bytes).
    + right. rewrite <- P1. apply (E2 path im bytes); [|done|].
      * apply elem_of_app in Hin as [? | ?]; done.
      * rewrite I1. tauto.
Qed.

Lemma scanned_record sid a s probe e st :
  get_session sid st = Some (a, s) →
  scanned sid a probe [] (sent_images s) st (record e st).
Proof.
  intros Hget. exists s, [e]. split; [exact Hget|]. split; [done|]. split; [done|].
  split.
  - intros path. split; [by left|]. intros [H | [H _]]; [done|]. by apply elem_of_nil in H.
  - intros path im bytes H. by apply elem_of_nil in H.
Qed.

(** One turn of the inner loop. *)
Lemma scanned_one sid a s probe path st :
  get_session sid st = Some (a, s) →
  scanned sid a probe [path] (sent_images s) st
    (if is_sent a path st then st else handle_plot_file sid path (probe path) st).
Proof.
  intros Hget. pose proof (proj1 (get_session_Some _ _ _ _) Hget) as [Hta Hs].
  unfold is_sent. rewrite Hs. case_bool_decide as Hsent.
  - exists s, []. split; [done|]. split; [done|]. split; [by rewrite app_nil_r|]. split.
    + intros p. split; [by left|]. intros [H | [->%list_elem_of_singleton _]]; done.
    + by intros p im bytes ->%list_elem_of_singleton.
  - unfold handle_plot_file. rewrite Hget.
    destruct (probe path) as [|e|im bytes] eqn:Hp.
    + eexists s, [_]. split; [exact Hget|]. split; [done|]. split; [reflexivity|]. split.
      * intros p. split; [by left|].
        intros [H | [->%list_elem_of_singleton (? & ? & ?)]]; [done | congruence].
      * intros p ? ? ->%list_elem_of_singleton. congruence.
    + eexists s, [_]. split; [exact Hget|]. split; [done|]. split; [reflexivity|]. split.
      * intros p. split; [by left|].
        intros [H | [->%list_elem_of_singleton (? & ? & ?)]]; [done | congruence].
      * intros p ? ? ->%list_elem_of_singleton. congruence.
    + eexists (set_sent_images ({[path]} ∪ sent_images s) s), [_].
      split; [|split; [done|split; [reflexivity|split]]].
      * apply get_session_Some. split; [exact Hta|]. simpl.
        by rewrite lookup_alter_eq, Hs.
      * intros p. simpl. rewrite elem_of_union, elem_of_singleton, list_elem_of_singleton.
        split; [intros [-> | ?]; [right; split; [done | by eexists _, _] | by left]|].
        intros [? | [-> _]]; tauto.
      * intros p im' bytes' ->%list_elem_of_singleton Hr _.
        rewrite Hp in Hr. injection Hr as <- <-. apply list_elem_of_singleton. done.
Qed.

Lemma scanned_paths sid a s probe paths st :
  get_session sid st = Some (a, s) →
  scanned sid a probe paths (sent_images s) st (scan_paths sid a probe paths st).
Proof.
  revert s st. induction paths as [|path paths IH]; intros s st Hget.
  - by apply scanned_refl.
  - change (path :: paths) with ([path] ++ paths) at 1.
    apply (scanned_trans sid a probe [path] paths (sent_images s) st
             (if is_sent a path st then st else handle_plot_file sid path (probe path) st)).
    + by apply scanned_one.
    + intros s1 G1. apply (IH s1 _ G1).
Qed.

(** X14: a scan of a session whose workspace is there gets every image of the
    workspace to the client: afterwards the session has sent exactly what
    it had sent before and the files found that could be read, each new
    one with a [plot_image] event of its name.  A file that is missing
    or cannot be read does not stop the scan, and it is not marked as
    sent, so that the next scan tries it again. *)
Theorem scan_sends_every_readable_image (sid : string) (a : nat) (s : session)
    (d : string) (listing : string → list string) (probe : string → file_obs)
    (st : state) :
  get_session sid st = Some (a, s) →
  temp_dir s = Some d → Py.truthy d = true → isdir d st = true →
  ∃ s' l,
    get_session sid (scan_for_new_images sid listing probe st) = Some (a, s') ∧
    log (scan_for_new_images sid listing probe st) = log st ++ l ∧
    (∀ path, path ∈ sent_images s' ↔
             path ∈ sent_images s ∨ (path ∈ found d listing ∧ readable probe path)) ∧
    (∀ path im bytes,
       path ∈ found d listing → probe path = Readable im bytes →
       path ∉ sent_images s →
       Emit (plot_image (OsPath.basename path)
                        (load_image (PIL_ENABLED st) im bytes)) sid ∈ l).
Proof.
  intros Hget Hd Ht Hdir.
  assert (H : scanned sid a probe (found d listing) (sent_images s) st
                (scan_for_new_images sid listing probe st)).
  { unfold scan_for_new_images. rewrite Hget, Hd, Ht, Hdir. cbn [negb orb].
    unfold found, patterns. cbn [flat_map fold_left]. rewrite app_nil_r.
    assert (Hround : ∀ pat paths s0 st0, get_session sid st0 = Some (a, s0) →
              scanned sid a probe paths (sent_images s0) st0
                (scan_paths sid a probe paths (record (Glob (OsPath.join d pat)) st0))).
    { intros pat paths s0 st0 G0.
      change paths with ([] ++ paths) at 1.
      apply (scanned_trans sid a probe [] paths (sent_images s0) st0
               (record (Glob (OsPath.join d pat)) st0)).
      - by apply scanned_record.
      - intros s1 G1. by apply scanned_paths. }
    eapply scanned_trans; [by apply (Hround "*.png"%string)|].
    intros s1 G1. eapply scanned_trans; [by apply (Hround "*.jpg"%string)|].
    intros s2 G2. by apply (Hround "*.jpeg"%string). }
  destruct H as (s' & l & G & _ & L & I & E). by exists s', l.
Qed.

(** ** Java sources *)

Lemma take_word_all_word s : all_word (Re.take_word s) = true.
Proof.
  induction s as [|c s IH]; [done|]. cbn [Re.take_word].
  destruct (Re.is_word c) eqn:Hc; [|done]. cbn [all_word]. by rewrite Hc, IH.
Qed.

Lemma match_public_class_identifier s cname :
  Re.match_public_class s = Some cname → identifier cname = true.
Proof.
  unfold Re.match_public_class.
  destruct (Py.strip_prefix "public" s) as [s1|]; [|done]. cbn [mbind option_bind].
  destruct (Re.spaces1 s1) as [s2|]; [|done]. cbn [mbind option_bind].
  destruct (Py.strip_prefix "class" s2) as [s3|]; [|done]. cbn [mbind option_bind].
  destruct (Re.spaces1 s3) as [[|c r]|]; [done| |done]. cbn [mbind option_bind].
  destruct (Re.is_alpha_ c) eqn:Hc; [|done]. intros [= <-].
  cbn [identifier]. by rewrite Hc, take_word_all_word.
Qed.

Lemma find_public_class_name_identifier code cname :
  find_public_class_name code = Some cname → identifier cname = true.
Proof.
  induction code as [|c code IH]; [done|].
  change (find_public_class_name (String c code))
    with (match Re.match_public_class (String c code) with
          | Some cname => Some cname
          | None => find_public_class_name code
          end).
  destruct (Re.match_public_class (String c code)) eqn:H; [|exact IH].
  intros [= <-]. by apply (match_public_class_identifier (String c code)).
Qed.

Lemma all_word_all_safe w : all_word w = true → Shlex.all_safe w = true.
Proof.
  induction w as [|c w IH]; [done|]. cbn [all_word Shlex.all_safe].
  intros [Hc Hw]%andb_true_iff. unfold Shlex.is_safe. by rewrite Hc, IH.
Qed.

Lemma all_safe_app x y :
  Shlex.all_safe x = true → Shlex.all_safe y = true → Shlex.all_safe (x ++ y)%string = true.
Proof.
  intros Hx Hy. induction x as [|c x IH]; [exact Hy|].
  cbn [Shlex.all_safe] in Hx. apply andb_true_iff in Hx as [Hc Hx].
  change (Shlex.all_safe (String c (x ++ y)%string) = true).
  cbn [Shlex.all_safe]. by rewrite Hc, IH.
Qed.

Lemma identifier_all_safe w : identifier w = true → Py.truthy w = true ∧ Shlex.all_safe w = true.
Proof.
  destruct w as [|c w]; [done|]. cbn [identifier].
  intros [Hc Hw]%andb_true_iff. split; [done|].
  cbn [Shlex.all_safe]. rewrite (all_word_all_safe w Hw), andb_true_r.
  unfold Shlex.is_safe, Re.is_word. by rewrite Hc.
Qed.

Lemma quote_safe w : Py.truthy w = true → Shlex.all_safe w = true → Shlex.quote w = w.
Proof. intros Ht Hs. unfold Shlex.quote. by rewrite Ht, Hs. Qed.

(** X15: a Java program with a public class [cname] is written to the file
    [cname.java] of the workspace, and compiled and run under that name.
    The name is an identifier, which the shell quoting leaves as it is, so
    that the command line has the name itself and nothing else of the
    program's text.  (Strings are in the ASCII range, as everywhere in
    the model.) *)
Theorem java_public_class_names_the_file (sid : string) (data : start_data)
    (env : start_env) (st : state) (cname : string) :
  request_language data = "java" →
  find_public_class_name (request_code data) = Some cname →
  identifier cname = true ∧
  ∃ sp, start_session_setup sid data env st = inr sp ∧
    sp_code_path sp = OsPath.join (mkdtemp_path env) (cname ++ ".java")%string ∧
    sp_shell_cmd sp =
      ("cd " ++ Shlex.quote (mkdtemp_path env) ++ " && env TERM=dumb javac " ++
       cname ++ ".java && java " ++ cname)%string ∧
    ∃ l, log (sp_state sp) = l ++ [WriteFile (sp_code_path sp) (request_code data)].
Proof.
  intros Hl Hc.
  pose proof (find_public_class_name_identifier _ _ Hc) as Hid.
  destruct (identifier_all_safe cname Hid) as [Ht Hs].
  split; [exact Hid|].
  assert (Hcode : Py.truthy (request_code data) = true).
  { destruct (request_code data); [|done].
    cbn [find_public_class_name] in Hc. by vm_compute in Hc. }
  unfold start_session_setup.
  fold (request_code data). fold (request_language data).
  rewrite Hcode, Hl, Hc. cbn [negb].
  change (Py.assoc "java" LANG_EXTENSIONS) with (Some "java"%string).
  change (String.eqb "java" "sql") with false.
  change (String.eqb "java" "java") with true.
  cbn [negb]. eexists. split; [reflexivity|]. cbn [sp_code_path sp_shell_cmd sp_state].
  split; [reflexivity|]. split.
  - rewrite (quote_safe cname Ht Hs).
    rewrite (quote_safe (cname ++ ".java")%string).
    + by rewrite !append_assoc.
    + by destruct cname.
    + by apply all_safe_app.
  - eexists. reflexivity.
Qed.

(** ** The properties at work *)

Lemma other_clients_untouched_witness :
  apart "s2" Demo.running (handle_disconnect_session "s1" Demo.running) ∧
  apart "s2" Demo.running (start_session "s1" Demo.python_hi Demo.env_again Demo.running).
Proof.
  pose proof (other_clients_untouched [EvStart "s1" Demo.python_hi Demo.env_ok] true
                "s1" "s2") as H.
  cbv zeta in H.
  destruct H as (Hs & _ & Hd & _); [by intros [=]|].
  split; [exact Hd | exact (Hs Demo.python_hi Demo.env_again)].
Defined.

Lemma session_leaves_nothing_witness :
  ephemeral_sessions (handle_disconnect_session "s1" Demo.running) = ∅ ∧
  alive (handle_disconnect_session "s1" Demo.running) = ∅ ∧
  dirs (handle_disconnect_session "s1" Demo.running) = ∅.
Proof.
  pose proof (session_leaves_nothing [] true "s1" Demo.python_hi Demo.env_ok) as H.
  cbv zeta in H.
  destruct H as (_ & _ & Hd & _).
  - reflexivity.
  - vm_compute. reflexivity.
  - reflexivity.
  - reflexivity.
  - apply not_elem_of_empty.
  - exact Hd.
Defined.

Lemma output_forwarded_in_order_witness :
  ∃ st', read_output Demo.running_pump [Chunk "1"; Timeout; Chunk ""; Chunk "2"; Eof]
           (Some "3") Demo.listing Demo.probe Demo.running = Some st' ∧
         output_text "s1" (log st') = (output_text "s1" (log Demo.running) ++ "123")%string.
Proof.
  apply (output_forwarded_in_order Demo.running_pump
           [Chunk "1"; Timeout; Chunk ""; Chunk "2"; Eof] (Some "3"%string)
           Demo.listing Demo.probe Demo.running).
  - vm_compute. reflexivity.
  - vm_compute. reflexivity.
  - reflexivity.
Defined.

Lemma scan_sends_every_readable_image_witness :
  ∃ s' l,
    get_session "s1" (scan_for_new_images "s1" Demo.listing Demo.probe Demo.running)
      = Some (0, s') ∧
    log (scan_for_new_images "s1" Demo.listing Demo.probe Demo.running)
      = log Demo.running ++ l ∧
    (∀ path, path ∈ sent_images s' ↔
             path ∈ sent_images Demo.running_session ∨
             (path ∈ found "/tmp/user_session_ab12" Demo.listing ∧
              readable Demo.probe path)) ∧
    (∀ path im bytes,
       path ∈ found "/tmp/user_session_ab12" Demo.listing →
       Demo.probe path = Readable im bytes →
       path ∉ sent_images Demo.running_session →
       Emit (plot_image (OsPath.basename path)
                        (load_image (PIL_ENABLED Demo.running) im bytes)) "s1" ∈ l).
Proof.
  apply (scan_sends_every_readable_image "s1" 0 Demo.running_session
           "/tmp/user_session_ab12" Demo.listing Demo.probe Demo.running).
  - vm_compute. reflexivity.
  - reflexivity.
  - reflexivity.
  - vm_compute. reflexivity.
Defined.

Lemma java_public_class_names_the_file_witness :
  identifier "Main" = true ∧
  ∃ sp, start_session_setup "s1"
          (StartData (Some "public class Main { }") (Some " Java ")) Demo.env_ok Demo.st0
        = inr sp ∧
    sp_code_path sp = OsPath.join "/tmp/user_session_ab12" "Main.java" ∧
    sp_shell_cmd sp =
      ("cd " ++ Shlex.quote "/tmp/user_session_ab12" ++
       " && env TERM=dumb javac Main.java && java Main")%string ∧
    ∃ l, log (sp_state sp) = l ++ [WriteFile (sp_code_path sp) "public class Main { }"].
Proof.
  apply (java_public_class_names_the_file "s1"
           (StartData (Some "public class Main { }"%string) (Some " Java "%string))
           Demo.env_ok Demo.st0 "Main").
  - vm_compute. reflexivity.
  - vm_compute. reflexivity.
Defined.

(** ** A thread that has outlived its session *)

(** X16: an output thread whose own session object is closing, as it is
    once the client has started a new session, reads nothing more and
    sends nothing; but its last call, the cleanup, goes by the socket id,
    and takes down the session that the client has now: the child of that
    session is killed, its workspace is removed and its table entry is
    deleted, with no event to the client. *)
Theorem stale_thread_ends_new_session (p : pump) (a : nat) (s : session)
    (polls : list poll) (leftover : option string)
    (listing : string → list string) (probe : string → file_obs) (st : state) :
  get_session (p_sid p) st = Some (a, s) →
  closing s = false →
  obj_closing p st = true →
  a ≠ p_obj p ∧
  ∃ st', read_output p polls leftover listing probe st = Some st' ∧
    log st' = log st ++ teardown s st ∧
    ephemeral_sessions st' = delete (p_sid p) (ephemeral_sessions st) ∧
    alive st' = alive st ∖ child_set s ∧
    dirs st' = dirs st ∖ workspace s.
Proof.
  intros Hget Hopen Hc. split.
  - intros ->. apply get_session_Some in Hget as [_ Hs].
    unfold obj_closing in Hc. rewrite Hs in Hc. congruence.
  - unfold read_output, pump_resume.
    rewrite (pump_loop_closing p polls st Hc), (pump_drain_closing p leftover st Hc).
    unfold pump_finish. rewrite Hc. eexists. split; [reflexivity|].
    split; [apply (cleanup_log _ _ a s Hget Hopen)|].
    split; [apply (cleanup_table _ _ a s Hget Hopen)|].
    split; [apply (cleanup_alive _ _ a s Hget Hopen) | apply (cleanup_dirs _ _ a s Hget Hopen)].
Qed.

Lemma stale_thread_ends_new_session_witness :
  ∃ st', read_output Demo.running_pump [Chunk "1"; Exited] (Some "2") Demo.listing
           Demo.probe Demo.restarted = Some st' ∧
    log st' = log Demo.restarted ++ [Terminate 4; Rmtree "/tmp/user_session_ef56"] ∧
    ephemeral_sessions st' = delete "s1" (ephemeral_sessions Demo.restarted) ∧
    alive st' = alive Demo.restarted ∖ {[4]} ∧
    dirs st' = dirs Demo.restarted ∖ ({["/tmp/user_session_ef56"]} ∪ ∅).
Proof.
  destruct (stale_thread_ends_new_session Demo.running_pump 3
              (Session (Some 4) (Some "/tmp/user_session_ef56") None
                       (Some "/tmp/user_session_ef56/user_code.py") (Some 5) false ∅)
              [Chunk "1"; Exited] (Some "2"%string) Demo.listing Demo.probe Demo.restarted)
    as (_ & st' & Hrun & Hlog & Ht & Ha & Hd).
  - vm_compute. reflexivity.
  - reflexivity.
  - vm_compute. reflexivity.
  - exists st'. split; [exact Hrun|]. split; [|split; [exact Ht|split; [exact Ha | exact Hd]]].
    rewrite Hlog. f_equal.
Defined.

(** ** What a scan looks for *)

Lemma fnmatch_literal_cons c pat y :
  c ≠ "*"%char → c ≠ "?"%char →
  Glob.fnmatch (String c pat) y =
  match y with
  | String d r => Ascii.eqb c d && Glob.fnmatch pat r
  | EmptyString => false
  end.
Proof.
  intros H1 H2. destruct c as [[] [] [] [] [] [] [] []]; try reflexivity; congruence.
Qed.

Lemma fnmatch_literal pat y :
  (∀ c, c ∈ list_ascii_of_string pat → c ≠ "*"%char ∧ c ≠ "?"%char) →
  Glob.fnmatch pat y = String.eqb pat y.
Proof.
  revert y. induction pat as [|c pat IH]; intros y Hlit.
  - by destruct y.
  - destruct (Hlit c) as [H1 H2]; [cbn [list_ascii_of_string]; left|].
    rewrite (fnmatch_literal_cons c pat y H1 H2).
    destruct y as [|d r]; [done|].
    rewrite IH; [done|]. intros c' Hc'. apply Hlit. cbn [list_ascii_of_string]. by right.
Qed.

Lemma fnmatch_star_unfold pat name :
  Glob.fnmatch (String "*" pat) name =
  Glob.fnmatch pat name ||
  match name with
  | String _ r => Glob.fnmatch (String "*" pat) r
  | EmptyString => false
  end.
Proof. by destruct name. Qed.

Lemma fnmatch_star pat name :
  Glob.fnmatch (String "*" pat) name = true ↔
  ∃ x y, name = (x ++ y)%string ∧ Glob.fnmatch pat y = true.
Proof.
  induction name as [|c name IH]; rewrite fnmatch_star_unfold, orb_true_iff.
  - split.
    + intros [H | H]; [|done]. by exists ""%string, ""%string.
    + intros (x & y & Hxy & H). left. destruct x; [|done]. by rewrite Hxy.
  - rewrite IH. split.
    + intros [H | (x & y & -> & H)].
      * by exists ""%string, (String c name).
      * by exists (String c x), y.
    + intros (x & y & Hxy & H). destruct x as [|c' x].
      * left. by rewrite Hxy.
      * right. injection Hxy as -> ->. by exists x, y.
Qed.

Lemma fnmatch_ending ending name :
  ending ∈ image_endings →
  Glob.fnmatch ("*" ++ ending)%string name = true ↔ ∃ stem, name = (stem ++ ending)%string.
Proof.
  intros Hin.
  assert (Hlit : ∀ y, Glob.fnmatch ending y = true ↔ y = ending).
  { intros y. rewrite fnmatch_literal.
    - rewrite String.eqb_eq. split; congruence.
    - intros c Hc. unfold image_endings in Hin.
      repeat (apply elem_of_cons in Hin as [-> | Hin];
              [cbn [list_ascii_of_string] in Hc;
               repeat (apply elem_of_cons in Hc as [-> | Hc]; [by split|]);
               by apply elem_of_nil in Hc|]).
      by apply elem_of_nil in Hin. }
  change ("*" ++ ending)%string with (String "*" ending).
  rewrite fnmatch_star. split.
  - intros (x & y & -> & H%Hlit). exists x. by rewrite H.
  - intros (stem & ->). exists stem, ending. split; [done | by apply Hlit].
Qed.

Lemma glob_ending d ending entries path :
  ending ∈ image_endings →
  path ∈ Glob.glob (OsPath.join d ("*" ++ ending)%string) entries ↔
  ∃ name stem, name ∈ entries ∧ name = (stem ++ ending)%string ∧
    Glob.is_hidden name = false ∧ path = OsPath.join (scan_dir d) name.
Proof.
  intros Hin. unfold Glob.glob.
  assert (Hfree : slash_free ("*" ++ ending)%string = true).
  { unfold image_endings in Hin.
    repeat (apply elem_of_cons in Hin as [-> | Hin]; [reflexivity|]).
    by apply elem_of_nil in Hin. }
  assert (Hvis : Glob.is_hidden ("*" ++ ending)%string = false) by reflexivity.
  rewrite (dirname_join d _ Hfree), (basename_join d _ Hfree), Hvis.
  rewrite list_elem_of_In, in_map_iff. split.
  - intros (name & <- & Hname%list_elem_of_In%list_elem_of_filter).
    destruct Hname as [Hp Hname]. apply Is_true_true, andb_true_iff in Hp as [Hm Hh].
    apply (fnmatch_ending ending name Hin) in Hm as [stem ->].
    exists (stem ++ ending)%string, stem. repeat split; [done|].
    cbn [orb] in Hh. by apply negb_true_iff in Hh.
  - intros (name & stem & Hname & Hstem & Hh & ->).
    exists name. split; [done|]. apply list_elem_of_In, list_elem_of_filter.
    split; [|done]. apply Is_true_true, andb_true_iff. split.
    + apply (fnmatch_ending ending name Hin). by exists stem.
    + by rewrite Hh.
Qed.

(** The paths that a scan of the workspace [d] goes through are the
    paths of its images. *)
Lemma found_image_entry (d : string) (listing : string → list string) (path : string) :
  path ∈ found d listing ↔ image_entry d listing path.
Proof.
  unfold image_entry, found, patterns. cbn [flat_map]. rewrite app_nil_r, !elem_of_app.
  rewrite (glob_ending d ".png" (listing "*.png"%string) path) by (unfold image_endings; set_solver).
  rewrite (glob_ending d ".jpg" (listing "*.jpg"%string) path) by (unfold image_endings; set_solver).
  rewrite (glob_ending d ".jpeg" (listing "*.jpeg"%string) path) by (unfold image_endings; set_solver).
  split.
  - intros [(name & stem & H) | [(name & stem & H) | (name & stem & H)]].
    + exists ".png"%string, name, stem. split; [unfold image_endings; set_solver | exact H].
    + exists ".jpg"%string, name, stem. split; [unfold image_endings; set_solver | exact H].
    + exists ".jpeg"%string, name, stem. split; [unfold image_endings; set_solver | exact H].
  - intros (ending & name & stem & Hin & H). unfold image_endings in Hin.
    apply elem_of_cons in Hin as [-> | Hin]; [left; by exists name, stem|].
    apply elem_of_cons in Hin as [-> | Hin]; [right; left; by exists name, stem|].
    apply elem_of_cons in Hin as [-> | Hin]; [right; right; by exists name, stem|].
    by apply elem_of_nil in Hin.
Qed.

(** ** Sessions of [sqlite3] *)

(** X18: a session started for the language [sql] has its workspace under
    [sql_temp_dir] and no [temp_dir], and [scan_for_new_images] looks at
    [temp_dir] only: whatever files are in the workspace, a scan for the
    client of such a session does nothing, so that no image of it is ever
    sent. *)
Theorem sql_session_sends_no_image (sid : string) (data : start_data)
    (env : start_env) (st : state) (listing : string → list string)
    (probe : string → file_obs) :
  accepted data = true →
  request_language data = "sql" →
  spawn_error env = None →
  let st1 := start_session sid data env st in
  (∃ a s, get_session sid st1 = Some (a, s) ∧ temp_dir s = None ∧
          sql_temp_dir s = Some (mkdtemp_path env)) ∧
  scan_for_new_images sid listing probe st1 = st1.
Proof.
  intros Ha Hl He st1.
  destruct (start_succeeded sid data env st Ha He) as (code_path & Ht & Hh & _).
  fold st1 in Ht, Hh. rewrite Hl in Hh.
  change (String.eqb "sql" "sql") with true in Hh. cbn [fresh_session] in Hh.
  set (n := next_id (cleanup_ephemeral_session sid st)) in *.
  set (s := Session _ _ _ _ _ _ _) in Hh.
  assert (Hget : get_session sid st1 = Some (n, s)).
  { apply get_session_Some. by rewrite Ht, Hh, !lookup_insert_eq. }
  split; [by exists n, s|].
  unfold scan_for_new_images. by rewrite Hget.
Qed.

Lemma sql_session_sends_no_image_witness :
  scan_for_new_images "s1" Demo.listing Demo.probe
    (start_session "s1" Demo.sql_one Demo.env_ok Demo.st0)
  = start_session "s1" Demo.sql_one Demo.env_ok Demo.st0.
Proof.
  apply (sql_session_sends_no_image "s1" Demo.sql_one Demo.env_ok Demo.st0
           Demo.listing Demo.probe).
  - vm_compute. reflexivity.
  - vm_compute. reflexivity.
  - reflexivity.
Defined.

(** * Cleanup, called again *)

Lemma cleanup_table_cases sid st :
  ephemeral_sessions (cleanup_ephemeral_session sid st) = ephemeral_sessions st ∨
  ephemeral_sessions (cleanup_ephemeral_session sid st) = delete sid (ephemeral_sessions st).
Proof.
  destruct (get_session sid st) as [[a s]|] eqn:Hget.
  - destruct (closing s) eqn:Hcl.
    + left. by rewrite (cleanup_closing sid st a s Hget Hcl).
    + right. apply (cleanup_table sid st a s Hget Hcl).
  - left. by rewrite (cleanup_absent sid st Hget).
Qed.

Lemma absent_cleanup sid sid' st :
  ephemeral_sessions st !! sid = None →
  ephemeral_sessions (cleanup_ephemeral_session sid' st) !! sid = None.
Proof.
  intros Hn. destruct (cleanup_table_cases sid' st) as [-> | ->]; [done|].
  rewrite lookup_delete. by case_decide.
Qed.

Lemma absent_start sid sid' data env st :
  sid' ≠ sid →
  ephemeral_sessions st !! sid = None →
  ephemeral_sessions (start_session sid' data env st) !! sid = None.
Proof.
  intros Hne Hn.
  pose proof (absent_cleanup sid sid' st Hn) as Hmid.
  destruct (accepted data) eqn:Ha.
  - destruct (spawn_error env) as [e|] eqn:He.
    + destruct (start_failed sid' data env st e Ha He) as (-> & _).
      rewrite lookup_delete. by case_decide.
    + destruct (start_succeeded sid' data env st Ha He) as (cp & -> & _).
      by rewrite lookup_insert_ne.
  - destruct (start_rejected sid' data env st Ha) as (-> & _). done.
Qed.

(** Only a start request of the client itself gives it a table entry. *)
Lemma absent_run sid ev st :
  no_start sid ev →
  ephemeral_sessions st !! sid = None →
  ephemeral_sessions (run ev st) !! sid = None.
Proof.
  intros Hev Hn. destruct ev as [sid' data env|sid' line|sid'|t polls|t leftover|t listing probe];
    cbn [run no_start] in *.
  - by apply absent_start.
  - unfold handle_send_input.
    destruct (get_session sid' st) as [[a s]|]; [|done].
    destruct (closing s); [by apply absent_cleanup|].
    destruct (child s) as [c|]; [|by apply absent_cleanup].
    destruct (isalive c st); [done | by apply absent_cleanup].
  - unfold handle_disconnect_session.
    destruct (get_session sid' st) as [[a s]|]; [destruct (closing s)|];
      cbn [emit record ephemeral_sessions]; by apply absent_cleanup.
  - destruct (threads st !! t) as [p|]; [|done].
    pose proof (pump_loop_frame p polls st) as (Ht & _).
    destruct (pump_loop p polls st) as [st1|st1|e st1]; cbn [loop_state] in Ht;
      cbn [emit record ephemeral_sessions]; by rewrite Ht.
  - destruct (threads st !! t) as [p|]; [|done].
    destruct (quiet_drain p leftover st) as (-> & _). done.
  - destruct (threads st !! t) as [p|]; [|done].
    unfold pump_finish. apply absent_cleanup.
    destruct (obj_closing p st); [done|].
    cbn [emit record ephemeral_sessions].
    destruct (quiet_scan (p_sid p) listing probe st) as (-> & _). done.
Qed.

Lemma absent_run_all sid evs st :
  Forall (no_start sid) evs →
  ephemeral_sessions st !! sid = None →
  ephemeral_sessions (run_all evs st) !! sid = None.
Proof.
  intros Hevs. revert st. unfold run_all.
  induction Hevs as [|ev evs Hev _ IH]; intros st Hn; [done|].
  simpl. apply IH. by apply absent_run.
Qed.

(** C1, amended: on a registered session that is not closing, the first
    call of [cleanup_ephemeral_session] kills the child if it is alive, removes
    both workspace directories, clears the fields of the session object
    and removes the session from the table.  A further call for the same
    socket id returns the state it is given, log included: when it comes
    right after (so any number of calls in a row does what one call
    does), and when it comes after any requests and thread steps among
    which there is no start request of that client.  In any state, a call
    that finds no entry, or an entry that is closing, returns the state it
    is given. *)
Theorem cleanup_teardown_exactly_once (sid : string) (st : state) (a : nat)
    (s : session) (n : nat) :
  get_session sid st = Some (a, s) →
  closing s = false →
  let st1 := cleanup_ephemeral_session sid st in
  (∀ c, child s = Some c →
        isalive c st1 = false ∧ (isalive c st = true → Terminate c ∈ teardown s st)) ∧
  (∀ d, temp_dir s = Some d ∨ sql_temp_dir s = Some d →
        isdir d st1 = false ∧ (isdir d st = true → Rmtree d ∈ teardown s st)) ∧
  heap st1 !! a = Some cleared ∧
  ephemeral_sessions st1 !! sid = None ∧
  log st1 = log st ++ teardown s st ∧
  cleanup_ephemeral_session sid st1 = st1 ∧
  Nat.iter (S n) (cleanup_ephemeral_session sid) st = st1 ∧
  (∀ evs, Forall (no_start sid) evs →
     cleanup_ephemeral_session sid (run_all evs st1) = run_all evs st1) ∧
  (∀ st', (∀ a' s', get_session sid st' = Some (a', s') → closing s' = true) →
     cleanup_ephemeral_session sid st' = st').
Proof.
  intros Hget Hopen st1. subst st1.
  destruct (teardown_complete sid st a s Hget Hopen) as (Hk & Hd & Hh & Ht & Hl).
  repeat (split; [assumption|]).
  split; [apply cleanup_idempotent|]. split; [apply cleanup_iter|]. split.
  - intros evs Hevs. apply cleanup_absent, get_session_unregistered.
    by apply absent_run_all.
  - intros st' Hgate. destruct (get_session sid st') as [[a' s']|] eqn:Hg.
    + apply (cleanup_closing sid st' a' s' Hg). by apply (Hgate a' s').
    + by apply cleanup_absent.
Qed.

Lemma cleanup_teardown_exactly_once_witness :
  let st1 := cleanup_ephemeral_session "s1" Demo.running in
  isalive 1 st1 = false ∧
  isdir "/tmp/user_session_ab12" st1 = false ∧
  ephemeral_sessions st1 !! "s1" = None ∧
  log st1 = log Demo.running ++ [Terminate 1; Rmtree "/tmp/user_session_ab12"] ∧
  Nat.iter 5 (cleanup_ephemeral_session "s1") Demo.running = st1 ∧
  (let st2 := run_all [EvStart "s2" Demo.python_hi Demo.env_again; EvInput "s1" None;
                       EvFinish 2 Demo.listing Demo.probe] st1 in
   cleanup_ephemeral_session "s1" st2 = st2).
Proof.
  destruct (cleanup_teardown_exactly_once "s1" Demo.running 0 Demo.running_session 4)
    as (Hkill & Hrm & _ & Htab & Hlog & _ & Hiter & Hlater & _).
  - vm_compute. reflexivity.
  - reflexivity.
  - intros st1. split; [|split; [|split; [|split; [|split]]]].
    + apply (Hkill 1). reflexivity.
    + apply (Hrm "/tmp/user_session_ab12"%string). left. reflexivity.
    + exact Htab.
    + subst st1. rewrite Hlog. vm_compute. reflexivity.
    + exact Hiter.
    + apply Hlater. repeat constructor. by intros [=].
Defined.

(** C1, as stated, fails: the call goes by the socket id, not by the
    session object.  Client [s1] has a session; the cleanup is called for it; the client starts a
    new program; the cleanup is called for [s1] again, as the thread of
    the first session does at its end.  This later call does not return
    at once: it kills the new child and removes the new workspace. *)
Lemma later_cleanup_after_restart_counterexample :
  let st1 := cleanup_ephemeral_session "s1" Demo.running in
  let st2 := start_session "s1" Demo.python_hi Demo.env_again st1 in
  let st3 := cleanup_ephemeral_session "s1" st2 in
  isalive 4 st2 = true ∧
  st3 ≠ st2 ∧
  log st3 = log st2 ++ [Terminate 4; Rmtree "/tmp/user_session_ef56"] ∧
  isalive 4 st3 = false ∧
  ephemeral_sessions st3 !! "s1" = None.
Proof.
  cbv zeta.
  assert (Hlog : log (cleanup_ephemeral_session "s1"
                        (start_session "s1" Demo.python_hi Demo.env_again
                           (cleanup_ephemeral_session "s1" Demo.running))) =
                 log (start_session "s1" Demo.python_hi Demo.env_again
                        (cleanup_ephemeral_session "s1" Demo.running))
                 ++ [Terminate 4; Rmtree "/tmp/user_session_ef56"])
    by (vm_compute; reflexivity).
  split; [vm_compute; reflexivity|]. split; [|split; [exact Hlog|split]].
  - intros Heq. apply (f_equal (isalive 4)) in Heq. vm_compute in Heq. discriminate.
  - vm_compute. reflexivity.
  - vm_compute. reflexivity.
Qed.

(** * A disconnect request during the last block of the thread *)

Lemma pump_finish_uninterrupted p listing probe st :
  pump_finish_interrupted p listing probe (λ st, st) st = pump_finish p listing probe st.
Proof. unfold pump_finish_interrupted, pump_finish. by destruct (obj_closing p st). Qed.

(** The thread of a session that is registered and open has found the
    session not closing and scans the workspace; a disconnect request of
    the client is handled before the thread goes on.  The handler sends
    the kill notice and [process_ended]; the thread, which has made its
    test already, sends [process_ended] too. *)
Lemma late_disconnect_twice p s listing probe st :
  get_session (p_sid p) st = Some (p_obj p, s) →
  closing s = false →
  let st' := pump_finish_interrupted p listing probe
               (handle_disconnect_session (p_sid p)) st in
  ended_count (p_sid p) (log st') = ended_count (p_sid p) (log st) + 2 ∧
  ephemeral_sessions st' !! p_sid p = None.
Proof.
  intros Hget Hopen st'. subst st'. unfold pump_finish_interrupted.
  pose proof (proj1 (get_session_Some _ _ _ _) Hget) as [_ Hs].
  assert (Hc : obj_closing p st = false) by (unfold obj_closing; by rewrite Hs).
  rewrite Hc. cbn [negb].
  pose proof (steady_init _ _ _ _ Hget) as Hst. rewrite Hopen in Hst.
  apply (steady_scan _ _ _ _ listing probe) in Hst.
  destruct Hst as (s1 & l1 & Ht1 & Hh1 & Hc1 & Hl1 & Hn1).
  set (st1 := scan_for_new_images (p_sid p) listing probe st) in *.
  assert (Hg1 : get_session (p_sid p) st1 = Some (p_obj p, s1))
    by (by apply get_session_Some).
  destruct (disconnect_live (p_sid p) st1 (p_obj p) s1 Hg1 Hc1) as (Hl2 & Ht2 & _).
  set (st2 := handle_disconnect_session (p_sid p) st1) in *.
  rewrite cleanup_absent by (by apply get_session_unregistered).
  split; [|exact Ht2].
  cbn [emit record log]. rewrite Hl2, Hl1, !ended_count_app.
  rewrite (ended_count_no_ended _ l1 Hn1),
    (ended_count_no_ended _ _ (no_ended_teardown s1 st1)), !ended_count_one.
  unfold killed_notice, ended_count. rewrite count_occ_cons_neq by done.
  simpl. lia.
Qed.

(** C4: client [s1] runs a program that prints 1 and exits.  Its thread
    leaves the loop, reads what is left, finds the session not closing and
    scans the workspace; the client's disconnect request is handled at
    that moment.  Both the handler and the thread send [process_ended]:
    the client gets it twice for the one session. *)
Theorem process_ended_twice_on_late_disconnect :
  ∃ st0,
    pump_advance AtFinish Demo.running_pump [Chunk "1"; Exited] None Demo.running
      = Some st0 ∧
    let st' := pump_finish_interrupted Demo.running_pump Demo.listing Demo.probe
                 (handle_disconnect_session "s1") st0 in
    log st' = log st0 ++
      [Glob "/tmp/user_session_ab12/*.png";
       Emit (plot_image "plot.png" (Png (Image 667 800))) "s1";
       Glob "/tmp/user_session_ab12/*.jpg";
       Glob "/tmp/user_session_ab12/*.jpeg";
       killed_notice "s1";
       Rmtree "/tmp/user_session_ab12";
       Emit process_ended "s1";
       Emit process_ended "s1"] ∧
    ended_count "s1" (log st') = ended_count "s1" (log Demo.running) + 2.
Proof.
  eexists. split; [vm_compute; reflexivity|].
  split; vm_compute; reflexivity.
Qed.

(** * The files a scan handles *)

Lemma traced_refl sid a s probe st :
  get_session sid st = Some (a, s) → traced sid a probe [] (sent_images s) st st.
Proof.
  intros Hget. exists s, []. split; [done|]. split; [done|].
  split; [by rewrite app_nil_r|]. split; [done|]. split; [by left|].
  split; [intros e H | intros path H]; by apply elem_of_nil in H.
Qed.

Lemma traced_record sid a s probe pathname st :
  get_session sid st = Some (a, s) →
  traced sid a probe [] (sent_images s) st (record (Glob pathname) st).
Proof.
  intros Hget. exists s, [Glob pathname]. split; [exact Hget|]. split; [done|].
  split; [done|]. split; [done|]. split; [by left|]. split.
  - intros e ->%list_elem_of_singleton. left. by exists pathname.
  - intros path H. by apply elem_of_nil in H.
Qed.

Lemma traced_trans sid a probe p1 p2 sent0 st st1 st2 :
  traced sid a probe p1 sent0 st st1 →
  (∀ s1, get_session sid st1 = Some (a, s1) →
         traced sid a probe p2 (sent_images s1) st1 st2) →
  traced sid a probe (p1 ++ p2) sent0 st st2.
Proof.
  intros (s1 & l1 & G1 & P1 & L1 & M1 & U1 & O1 & C1) H2.
  destruct (H2 s1 G1) as (s2 & l2 & G2 & P2 & L2 & M2 & U2 & O2 & C2).
  exists s2, (l1 ++ l2). split; [done|]. split; [congruence|].
  split; [by rewrite L2, L1, app_assoc|]. split; [set_solver|]. split; [|split].
  - intros path [H | H]%U2; [|right; apply elem_of_app; by right].
    destruct (U1 path H) as [? | ?]; [by left | right; apply elem_of_app; by left].
  - intros e [H | H]%elem_of_app.
    + destruct (O1 e H) as [? | (path & Hp & Hn & ->)]; [by left|].
      right. exists path. split; [apply elem_of_app; by left | done].
    + destruct (O2 e H) as [? | (path & Hp & Hn & ->)]; [by left|].
      right. exists path. split; [apply elem_of_app; by right|].
      split; [set_solver | by rewrite P1].
  - intros path Hin Hnew. apply elem_of_app.
    destruct (decide (path ∈ p1)) as [Hp1 | Hp1]; [left; by apply C1|].
    right. rewrite <- P1. apply C2.
    + apply elem_of_app in Hin as [? | ?]; done.
    + intros [? | ?]%U1; done.
Qed.

Lemma traced_one sid a s probe path st :
  get_session sid st = Some (a, s) →
  traced sid a probe [path] (sent_images s) st
    (if is_sent a path st then st else handle_plot_file sid path (probe path) st).
Proof.
  intros Hget. pose proof (proj1 (get_session_Some _ _ _ _) Hget) as [Hta Hs].
  unfold is_sent. rewrite Hs. case_bool_decide as Hsent.
  - exists s, []. split; [done|]. split; [done|]. split; [by rewrite app_nil_r|].
    split; [done|]. split; [by left|]. split.
    + intros e H. by apply elem_of_nil in H.
    + by intros p ->%list_elem_of_singleton.
  - assert (Hev : ∀ s' st',
              get_session sid st' = Some (a, s') → PIL_ENABLED st' = PIL_ENABLED st →
              log st' = log st ++ [handled sid (PIL_ENABLED st) path (probe path)] →
              sent_images s ⊆ sent_images s' →
              (∀ p, p ∈ sent_images s' → p ∈ sent_images s ∨ p = path) →
              traced sid a probe [path] (sent_images s) st st').
    { intros s' st' G P L M U. exists s', [handled sid (PIL_ENABLED st) path (probe path)].
      split; [done|]. split; [done|]. split; [done|]. split; [done|]. split; [|split].
      - intros p [? | ->]%U; [by left | right; by apply list_elem_of_singleton].
      - intros e ->%list_elem_of_singleton. right. exists path.
        split; [by apply list_elem_of_singleton | done].
      - intros p ->%list_elem_of_singleton _. by apply list_elem_of_singleton. }
    unfold handle_plot_file. rewrite Hget.
    destruct (probe path) as [|e|im bytes] eqn:Hp.
    + apply (Hev s); try done. by left.
    + apply (Hev s); try done. by left.
    + apply (Hev (set_sent_images ({[path]} ∪ sent_images s) s)); try done.
      * apply get_session_Some. split; [exact Hta|]. simpl.
        by rewrite lookup_alter_eq, Hs.
      * simpl. set_solver.
      * intros p. simpl. set_solver.
Qed.

Lemma traced_paths sid a s probe paths st :
  get_session sid st = Some (a, s) →
  traced sid a probe paths (sent_images s) st (scan_paths sid a probe paths st).
Proof.
  revert s st. induction paths as [|path paths IH]; intros s st Hget.
  - by apply traced_refl.
  - change (path :: paths) with ([path] ++ paths) at 1.
    apply (traced_trans sid a probe [path] paths (sent_images s) st
             (if is_sent a path st then st else handle_plot_file sid path (probe path) st)).
    + by apply traced_one.
    + intros s1 G1. apply (IH s1 _ G1).
Qed.

Lemma traced_scan sid a s d listing probe st :
  get_session sid st = Some (a, s) →
  temp_dir s = Some d → Py.truthy d = true → isdir d st = true →
  traced sid a probe (found d listing) (sent_images s) st
    (scan_for_new_images sid listing probe st).
Proof.
  intros Hget Hd Ht Hdir.
  unfold scan_for_new_images. rewrite Hget, Hd, Ht, Hdir. cbn [negb orb].
  unfold found, patterns. cbn [flat_map fold_left]. rewrite app_nil_r.
  assert (Hround : ∀ pat paths s0 st0, get_session sid st0 = Some (a, s0) →
            traced sid a probe paths (sent_images s0) st0
              (scan_paths sid a probe paths (record (Glob (OsPath.join d pat)) st0))).
  { intros pat paths s0 st0 G0.
    change paths with ([] ++ paths) at 1.
    apply (traced_trans sid a probe [] paths (sent_images s0) st0
             (record (Glob (OsPath.join d pat)) st0)).
    - by apply traced_record.
    - intros s1 G1. by apply traced_paths. }
  eapply traced_trans; [by apply (Hround "*.png"%string)|].
  intros s1 G1. eapply traced_trans; [by apply (Hround "*.jpg"%string)|].
  intros s2 G2. by apply (Hround "*.jpeg"%string).
Qed.

(** X17: a scan of a session whose workspace is there handles the images
    of the workspace and nothing else.  Besides the globs, every call it
    logs is the event of [handle_plot_file] for the path of a directory
    entry whose name ends in [.png], [.jpg] or [.jpeg], in these very
    letters, and does not begin with a dot, and which the session had not
    sent; and every such entry has its event in the log. *)
Theorem scan_handles_image_entries (sid : string) (a : nat) (s : session)
    (d : string) (listing : string → list string) (probe : string → file_obs)
    (st : state) :
  get_session sid st = Some (a, s) →
  temp_dir s = Some d → Py.truthy d = true → isdir d st = true →
  ∃ l, log (scan_for_new_images sid listing probe st) = log st ++ l ∧
    (∀ e, e ∈ l →
       (∃ pathname, e = Glob pathname) ∨
       ∃ path, image_entry d listing path ∧ (path ∉ sent_images s) ∧
               e = handled sid (PIL_ENABLED st) path (probe path)) ∧
    (∀ path, image_entry d listing path → path ∉ sent_images s →
       handled sid (PIL_ENABLED st) path (probe path) ∈ l).
Proof.
  intros Hget Hd Ht Hdir.
  destruct (traced_scan sid a s d listing probe st Hget Hd Ht Hdir)
    as (s' & l & _ & _ & L & _ & _ & O & C).
  exists l. split; [exact L|]. split.
  - intros e He. destruct (O e He) as [? | (path & Hp & Hn & ->)]; [by left|].
    right. exists path. split; [by apply found_image_entry | done].
  - intros path Hp Hn. apply C; [by apply found_image_entry | done].
Qed.

Lemma scan_handles_image_entries_witness :
  ∃ l, log (scan_for_new_images "s1" Demo.listing Demo.probe Demo.running)
       = log Demo.running ++ l ∧
    (∀ e, e ∈ l →
       (∃ pathname, e = Glob pathname) ∨
       ∃ path, image_entry "/tmp/user_session_ab12" Demo.listing path ∧
               (path ∉ sent_images Demo.running_session) ∧
               e = handled "s1" (PIL_ENABLED Demo.running) path (Demo.probe path)) ∧
    (∀ path, image_entry "/tmp/user_session_ab12" Demo.listing path →
       path ∉ sent_images Demo.running_session →
       handled "s1" (PIL_ENABLED Demo.running) path (Demo.probe path) ∈ l).
Proof.
  apply (scan_handles_image_entries "s1" 0 Demo.running_session
           "/tmp/user_session_ab12" Demo.listing Demo.probe Demo.running).
  - vm_compute. reflexivity.
  - reflexivity.
  - reflexivity.
  - vm_compute. reflexivity.
Defined.
